(** * Bagua communication layer: bootstrap, rendezvous and collectives

    A shallow embedding of [bagua/torch_api/env.py] and
    [bagua/torch_api/communication.py].  One process is a state transformer
    over a [World]: its environment, the module-level [_global_state], the
    rendezvous stores it can reach, the tensors it holds and the log of what
    it asked of torch and of the transport.  Code that lives outside the two
    files (torch, bagua_core, Python builtins) is taken through the
    [Backend] interface. *)

From Stdlib Require Import ZArith QArith Qcanon DecimalString.
From stdpp Require Import gmap strings list fin_maps pretty numbers.

Local Open Scope Z_scope.
Local Open Scope string_scope.
Local Open Scope list_scope.

(** ** Python values *)

Inductive exn :=
  | RepeatedInitializationError
  | ValueError (msg : string)
  | AssertionError (msg : string)
  | AttributeError (msg : string)
  | IndexError
  | ZeroDivisionError
  | RuntimeError (msg : string)
  | UnicodeDecodeError
  | ReferenceError.

(** The third outcome is a process parked inside a blocking [store.get]. *)
Inductive outcome (A : Type) :=
  | Ret (a : A)
  | Raise (e : exn)
  | Blocked (key : string).
Arguments Ret {A} a.
Arguments Raise {A} e.
Arguments Blocked {A} key.

(** [a % b] and [a // b] on Python integers: floor division, the remainder
    takes the sign of the divisor, a zero divisor raises. *)
Definition py_mod (a b : Z) : exn + Z :=
  if decide (b = 0) then inl ZeroDivisionError else inr (a `mod` b).

Definition py_floordiv (a b : Z) : exn + Z :=
  if decide (b = 0) then inl ZeroDivisionError else inr (a `div` b).

(** [s.split(sep)] for a non-empty separator: left to right, occurrences
    that do not overlap.  [skip] counts the separator characters still to
    drop, [cur] is the piece being read. *)
Fixpoint split_go (sep : string) (skip : nat) (cur s : string) : list string :=
  match s with
  | EmptyString => [cur]
  | String c s' =>
      match skip with
      | S k => split_go sep k cur s'
      | O =>
          if String.prefix sep s
          then cur :: split_go sep (String.length sep - 1) "" s'
          else split_go sep 0 (cur +:+ String c "") s'
      end
  end.

Definition split (s sep : string) : list string := split_go sep 0 "" s.

(** ** Handles of torch and of the transport *)

Record Stream := { cuda_stream : N; priority : Z }.

Inductive Device := cpu | cuda (index : nat).

Inductive dtype :=
  | float16 | float32 | float64 | uint8 | int8 | int16 | int32 | int64.

Inductive Store :=
  | DefaultStore
  | FileStore (file_name : string) (world_size : Z).

Record BaguaSingleCommunicatorPy := {
  rank : Z;
  nranks : Z;
  comm_device_id : Z;
  stream_ptr : N;
  nccl_unique_id_str : string;
  comm_cuda_stream : Stream
}.

Record BaguaCommBackendPy := {
  schedule_channel_cap : Z;
  backend_device_id : Z
}.

Record BaguaGlobalState := {
  backend : BaguaCommBackendPy;
  stream : Stream;
  store : option Store;
  hyperparameters : unit;
  hyperparameters_service_client : option string;
  internode_communicator : option BaguaSingleCommunicatorPy;
  intranode_communicator : BaguaSingleCommunicatorPy;
  global_communicator : BaguaSingleCommunicatorPy
}.

Record BaguaTensorPy := {
  ptr : nat;
  num_elem : nat;
  num_elem_allocated : nat;
  bagua_dtype : string;
  tensor_device_id : option nat
}.

(** A window of a flat buffer, as [narrow(0, offset, numel).view_as(t)]. *)
Record View := {
  view_base : nat;
  view_offset : nat;
  view_numel : nat;
  view_shape : list nat
}.

(** Calls into torch and bagua_core that build something and may fail. *)
Inductive call :=
  | CallFileStore (file_name : string) (world_size : Z)
  | CallDistInitProcessGroup (backend_name init_method : string)
  | CallBaguaCommBackendPy (cap device_id : Z)
  | CallCudaStream (prio : Z)
  | CallBaguaHyperparameter
  | CallAutotuneClient (addr : option string)
  | CallBaguaSingleCommunicatorPy
      (rank nranks device_id : Z) (stream_ptr : N) (id : string).

(** Work put on a device stream. *)
Inductive kernel :=
  | KCat (srcs : list nat) (dst : nat)
  | KBroadcast (c : BaguaSingleCommunicatorPy) (b : BaguaTensorPy) (root : Z)
  | KAllreduce (c : BaguaSingleCommunicatorPy) (b : BaguaTensorPy)
  | KDiv (t : nat) (n : Z)
  | KCopy (dst : nat) (src : View).

Inductive event :=
  | EvCall (c : call)
  | EvGenerateId (id : string)
  | EvStoreSet (s : Store) (key : string) (v : list Byte.byte)
  | EvStoreGet (s : Store) (key : string) (v : list Byte.byte)
  | EvRecord (on : N) (ev : nat)
  | EvWait (on : N) (ev : nat)
  | EvLaunch (on : N) (k : kernel)
  | EvSynchronize.

#[global] Instance exn_eq_dec : EqDecision exn.
Proof. solve_decision. Defined.
#[global] Instance Device_eq_dec : EqDecision Device.
Proof. solve_decision. Defined.
#[global] Instance dtype_eq_dec : EqDecision dtype.
Proof. solve_decision. Defined.

(** ** The interface to code outside the two files *)

Class Backend (elt : Type) := {
  (** builtin [int] on the text of an environment variable *)
  py_int : string → option Z;
  (** what the store binding does to a [str] it is given, and
      [str(b, encoding="utf-8")] *)
  str_encode : string → list Byte.byte;
  str_decode : list Byte.byte → option string;
  str_decode_encode : ∀ s, str_decode (str_encode s) = Some s;
  (** [BaguaSingleCommunicatorPy.generate_nccl_unique_id_str], by the
      process's entropy state *)
  generate_nccl_unique_id_str : nat → string;
  (** which constructor calls fail, and how *)
  faults : call → option exn;
  (** [utils.to_bagua_datatype] *)
  to_bagua_datatype : dtype → exn + string;
  (** [x / n] of torch on one element and a Python integer *)
  true_divide : elt → Z → elt;
  (** what the transport leaves in the local buffer *)
  comm_allreduce : BaguaSingleCommunicatorPy → list elt → list elt;
  comm_broadcast : BaguaSingleCommunicatorPy → Z → list elt → list elt
}.

(** The element-wise reduction of the members' buffers, in rank order. *)
Definition elementwise (A : Type) (add : A → A → A) (bufs : list (list A))
    : list A :=
  match bufs with
  | [] => []
  | b :: bs => foldl (zip_with add) b bs
  end.
Arguments elementwise {A} add bufs.

(** A backend to run examples on: exact rationals for elements, a transport
    that sums what the members of [group] hold (the caller's own buffer
    standing at its rank) and broadcasts the root's buffer, no failing
    constructor. *)
Definition reference_to_bagua_datatype (d : dtype) : exn + string :=
  match d with
  | float32 => inr "f32"
  | float16 => inr "f16"
  | uint8 => inr "u8"
  | int64 => inr "i64"
  | _ => inl (ValueError "unsupported data type")
  end.

Definition reference_backend (group : list (list Qc)) : Backend Qc := {|
  py_int s := Z.of_int <$> NilZero.int_of_string s;
  str_encode := String.list_byte_of_string;
  str_decode b := Some (String.string_of_list_byte b);
  str_decode_encode s :=
    f_equal Some (String.string_of_list_byte_of_string s);
  generate_nccl_unique_id_str n := "nccl-unique-id-" +:+ pretty n;
  faults _ := None;
  to_bagua_datatype := reference_to_bagua_datatype;
  true_divide x n := (x / Qc_of_Z n)%Qc;
  comm_allreduce c b := elementwise Qcplus (<[Z.to_nat (rank c) := b]> group);
  comm_broadcast c root b :=
    if decide (rank c = root) then b else default b (group !! Z.to_nat root)
|}.

(** The backends of the scenarios: a group of one, whose transport returns
    the buffer it is given, and four ranks holding the scalars 0, 1, 2, 3. *)
Definition plain_backend : Backend Qc := reference_backend [[]].



Section Process.
Context {elt : Type} `{E : Backend elt}.

Record Tensor := {
  device : Device;
  tensor_dtype : dtype;
  shape : list nat;
  data : list elt
}.

Definition numel (t : Tensor) : nat := length (data t).

Record World := {
  environ : gmap string string;
  _global_state : option BaguaGlobalState;
  dist_is_initialized : bool;
  default_store : gmap string (list Byte.byte);
  file_stores : gmap string (gmap string (list Byte.byte));
  id_seed : nat;
  next_handle : nat;
  current_stream : Stream;
  heap : gmap nat Tensor;
  trace : list event
}.

Definition set_global_state (g : option BaguaGlobalState) (w : World) : World :=
  {| environ := environ w; _global_state := g;
     dist_is_initialized := dist_is_initialized w;
     default_store := default_store w; file_stores := file_stores w;
     id_seed := id_seed w; next_handle := next_handle w;
     current_stream := current_stream w; heap := heap w; trace := trace w |}.

Definition set_dist_is_initialized (b : bool) (w : World) : World :=
  {| environ := environ w; _global_state := _global_state w;
     dist_is_initialized := b;
     default_store := default_store w; file_stores := file_stores w;
     id_seed := id_seed w; next_handle := next_handle w;
     current_stream := current_stream w; heap := heap w; trace := trace w |}.

Definition set_default_store (m : gmap string (list Byte.byte)) (w : World) : World :=
  {| environ := environ w; _global_state := _global_state w;
     dist_is_initialized := dist_is_initialized w;
     default_store := m; file_stores := file_stores w;
     id_seed := id_seed w; next_handle := next_handle w;
     current_stream := current_stream w; heap := heap w; trace := trace w |}.

Definition set_file_stores (m : gmap string (gmap string (list Byte.byte)))
    (w : World) : World :=
  {| environ := environ w; _global_state := _global_state w;
     dist_is_initialized := dist_is_initialized w;
     default_store := default_store w; file_stores := m;
     id_seed := id_seed w; next_handle := next_handle w;
     current_stream := current_stream w; heap := heap w; trace := trace w |}.

Definition set_id_seed (n : nat) (w : World) : World :=
  {| environ := environ w; _global_state := _global_state w;
     dist_is_initialized := dist_is_initialized w;
     default_store := default_store w; file_stores := file_stores w;
     id_seed := n; next_handle := next_handle w;
     current_stream := current_stream w; heap := heap w; trace := trace w |}.

Definition set_next_handle (n : nat) (w : World) : World :=
  {| environ := environ w; _global_state := _global_state w;
     dist_is_initialized := dist_is_initialized w;
     default_store := default_store w; file_stores := file_stores w;
     id_seed := id_seed w; next_handle := n;
     current_stream := current_stream w; heap := heap w; trace := trace w |}.

Definition set_current_stream (s : Stream) (w : World) : World :=
  {| environ := environ w; _global_state := _global_state w;
     dist_is_initialized := dist_is_initialized w;
     default_store := default_store w; file_stores := file_stores w;
     id_seed := id_seed w; next_handle := next_handle w;
     current_stream := s; heap := heap w; trace := trace w |}.

Definition set_heap (h : gmap nat Tensor) (w : World) : World :=
  {| environ := environ w; _global_state := _global_state w;
     dist_is_initialized := dist_is_initialized w;
     default_store := default_store w; file_stores := file_stores w;
     id_seed := id_seed w; next_handle := next_handle w;
     current_stream := current_stream w; heap := h; trace := trace w |}.

Definition log (e : event) (w : World) : World :=
  {| environ := environ w; _global_state := _global_state w;
     dist_is_initialized := dist_is_initialized w;
     default_store := default_store w; file_stores := file_stores w;
     id_seed := id_seed w; next_handle := next_handle w;
     current_stream := current_stream w; heap := heap w;
     trace := trace w ++ [e] |}.

(** ** The process monad *)

Definition M (A : Type) : Type := World → outcome A * World.

#[global] Instance M_ret : MRet M := λ A a w, (Ret a, w).

#[global] Instance M_bind : MBind M := λ A B k m w,
  match m w with
  | (Ret a, w') => k a w'
  | (Raise e, w') => (Raise e, w')
  | (Blocked key, w') => (Blocked key, w')
  end.

Definition raise {A} (e : exn) : M A := λ w, (Raise e, w).
Definition block {A} (key : string) : M A := λ w, (Blocked key, w).
Definition gets {A} (f : World → A) : M A := λ w, (Ret (f w), w).
Definition modify (f : World → World) : M unit := λ w, (Ret tt, f w).

Definition lift_sum {A} (r : exn + A) : M A :=
  match r with inl e => raise e | inr a => mret a end.

Definition py_assert (b : bool) (msg : string) : M unit :=
  if b then mret tt else raise (AssertionError msg).

(** [l[i]] *)
Definition index {A} (l : list A) (i : nat) : M A :=
  match l !! i with Some a => mret a | None => raise IndexError end.

(** [for x in l: body(x)] *)
Fixpoint for_each {A} (l : list A) (body : A → M unit) : M unit :=
  match l with
  | [] => mret tt
  | x :: l' => body x ;; for_each l' body
  end.

(** A constructor call from torch or bagua_core: fails as [faults] says,
    leaves a log entry otherwise. *)
Definition extcall (c : call) : M unit :=
  match faults c with
  | Some e => raise e
  | None => modify (log (EvCall c))
  end.

(** ** env.py *)

(** [int(os.environ.get(name, default))] *)
Definition environ_int (env : gmap string string) (name : string)
    (default : Z) : exn + Z :=
  match env !! name with
  | None => inr default
  | Some s =>
      match py_int s with
      | Some z => inr z
      | None => inl (ValueError ("invalid literal for int(): " +:+ s))
      end
  end.

Definition getenv_int (name : string) (default : Z) : M Z :=
  env ← gets environ;
  lift_sum (environ_int env name default).

Definition get_world_size : M Z := getenv_int "WORLD_SIZE" 1.
Definition get_rank : M Z := getenv_int "RANK" 0.
Definition get_local_rank : M Z := getenv_int "LOCAL_RANK" 0.
Definition get_local_size : M Z := getenv_int "LOCAL_SIZE" 1.

Definition get_autotune_server_addr : M (option string) :=
  gets (λ w, environ w !! "AUTO_TUNE_SERVER_ADDR").

(** ** The rendezvous store *)

Definition store_contents (s : Store) (w : World) : gmap string (list Byte.byte) :=
  match s with
  | DefaultStore => default_store w
  | FileStore f _ => default ∅ (file_stores w !! f)
  end.

Definition set_store_contents (s : Store) (m : gmap string (list Byte.byte))
    (w : World) : World :=
  match s with
  | DefaultStore => set_default_store m w
  | FileStore f _ => set_file_stores (<[f := m]> (file_stores w)) w
  end.

(** [store.set(key, value)] with a [str] value *)
Definition store_set (s : Store) (key value : string) : M unit := λ w,
  let v := str_encode value in
  (Ret tt, log (EvStoreSet s key v)
             (set_store_contents s (<[key := v]> (store_contents s w)) w)).

(** [store.get(key)]: the process stays inside the call while the key is
    not there. *)
Definition store_get (s : Store) (key : string) : M (list Byte.byte) := λ w,
  match store_contents s w !! key with
  | Some v => (Ret v, log (EvStoreGet s key v) w)
  | None => (Blocked key, w)
  end.

(** [c10d._get_default_store()] *)
Definition _get_default_store : M Store := λ w,
  if dist_is_initialized w then (Ret DefaultStore, w)
  else (Raise (RuntimeError "Default process group has not been initialized"), w).

(** [str(b, encoding="utf-8")] *)
Definition py_str_utf8 (b : list Byte.byte) : M string :=
  match str_decode b with
  | Some s => mret s
  | None => raise UnicodeDecodeError
  end.

(** ** communication.py: global state and bootstrap *)

Definition _get_global_state : M (option BaguaGlobalState) := gets _global_state.

Definition is_initialized : M bool :=
  gets (λ w, bool_decide (_global_state w ≠ None)).

Definition generate_nccl_unique_id : M string := λ w,
  let id := generate_nccl_unique_id_str (id_seed w) in
  (Ret id, log (EvGenerateId id) (set_id_seed (S (id_seed w)) w)).

(** [f"{comm_type}-{root}-unique_id"] *)
Definition unique_id_key (comm_type : string) (root : Z) : string :=
  comm_type +:+ "-" +:+ pretty root +:+ "-unique_id".

Definition gen_nccl_unique_id (comm_type : string) (root : Z)
    (store : option Store) : M string :=
  let key := unique_id_key comm_type root in
  store ← match store with
          | None => _get_default_store
          | Some s => mret s
          end;
  r ← get_rank;
  if decide (r = root) then
    idstr ← generate_nccl_unique_id;
    store_set store key idstr ;;
    mret idstr
  else
    idstr ← store_get store key;
    idstr ← py_str_utf8 idstr;
    mret idstr.

(** [B.BaguaSingleCommunicatorPy(...)] followed by
    [comm.cuda_stream = stream] *)
Definition new_communicator (rank nranks device_id : Z) (stream : Stream)
    (id : string) : M BaguaSingleCommunicatorPy :=
  extcall (CallBaguaSingleCommunicatorPy rank nranks device_id
             (cuda_stream stream) id) ;;
  mret {| rank := rank; nranks := nranks; comm_device_id := device_id;
          stream_ptr := cuda_stream stream; nccl_unique_id_str := id;
          comm_cuda_stream := stream |}.

Definition default_device_id (device_id : option Z) : M Z :=
  match device_id with
  | None => get_local_rank
  | Some d => mret d
  end.

Definition init_bagua_inter_communicator (stream : Stream) (leader_rank : Z)
    (store : option Store) (device_id : option Z)
    : M (option BaguaSingleCommunicatorPy) :=
  device_id ← default_device_id device_id;
  nccl_unique_id ← gen_nccl_unique_id "bagua_inter_comm" leader_rank store;
  r ← get_rank;
  l ← get_local_size;
  m ← lift_sum (py_mod r l);
  if decide (m ≠ leader_rank) then mret None
  else
    r ← get_rank;
    l ← get_local_size;
    crank ← lift_sum (py_floordiv r l);
    ws ← get_world_size;
    l ← get_local_size;
    cnranks ← lift_sum (py_floordiv ws l);
    comm ← new_communicator crank cnranks device_id stream nccl_unique_id;
    mret (Some comm).

Definition init_bagua_intra_communicator (stream : Stream)
    (store : option Store) (device_id : option Z)
    : M BaguaSingleCommunicatorPy :=
  device_id ← default_device_id device_id;
  r ← get_rank;
  l ← get_local_size;
  node ← lift_sum (py_floordiv r l);
  l ← get_local_size;
  nccl_unique_id ← gen_nccl_unique_id "bagua_intra_comm" (node * l) store;
  r ← get_rank;
  l ← get_local_size;
  crank ← lift_sum (py_mod r l);
  cnranks ← get_local_size;
  new_communicator crank cnranks device_id stream nccl_unique_id.

Definition init_bagua_communicator (stream : Stream)
    (store : option Store) (device_id : option Z)
    : M BaguaSingleCommunicatorPy :=
  device_id ← default_device_id device_id;
  nccl_unique_id ← gen_nccl_unique_id "bagua_global_comm" 0 store;
  crank ← get_rank;
  cnranks ← get_world_size;
  new_communicator crank cnranks device_id stream nccl_unique_id.

(** [torch.cuda.Stream(priority=p)] *)
Definition new_cuda_stream (p : Z) : M Stream :=
  extcall (CallCudaStream p) ;;
  h ← gets next_handle;
  modify (set_next_handle (S h)) ;;
  mret {| cuda_stream := N.of_nat h; priority := p |}.

(** [BaguaGlobalState.__init__] *)
Definition new_BaguaGlobalState (store : option Store) (device_id : option Z)
    : M BaguaGlobalState :=
  device_id ← default_device_id device_id;
  extcall (CallBaguaCommBackendPy 100 device_id) ;;
  stream ← new_cuda_stream (-1);
  extcall CallBaguaHyperparameter ;;
  addr ← get_autotune_server_addr;
  extcall (CallAutotuneClient addr) ;;
  inter ← init_bagua_inter_communicator stream 0 store (Some device_id);
  intra ← init_bagua_intra_communicator stream store (Some device_id);
  glob ← init_bagua_communicator stream store (Some device_id);
  mret {| backend := {| schedule_channel_cap := 100;
                        backend_device_id := device_id |};
          stream := stream; store := store; hyperparameters := tt;
          hyperparameters_service_client := addr;
          internode_communicator := inter;
          intranode_communicator := intra;
          global_communicator := glob |}.

Definition init_process_group (init_method : string) (device_id : option Z)
    : M unit :=
  initialized ← is_initialized;
  if initialized : bool then raise RepeatedInitializationError
  else
    let metas := split init_method "://" in
    scheme ← index metas 0;
    if bool_decide (scheme ∉ ["dist"; "file"]) then
      raise (ValueError ("Illegal init method: " +:+ init_method))
    else
      store ← (if bool_decide (scheme = "file") then
                 path ← index metas 1;
                 ws ← get_world_size;
                 extcall (CallFileStore path ws) ;;
                 mret (FileStore path ws)
               else
                 started ← gets dist_is_initialized;
                 (if started : bool then mret tt
                  else
                    extcall (CallDistInitProcessGroup "nccl" "env://") ;;
                    modify (set_dist_is_initialized true)) ;;
                 _get_default_store);
      state ← new_BaguaGlobalState (Some store) device_id;
      modify (set_global_state (Some state)).

(** ** Tensors on the heap, streams *)

(** Python names denote objects: a tensor argument is a handle into [heap].
    A handle outside the heap denotes nothing and is reported as
    [ReferenceError]; Python itself cannot produce one. *)
Definition deref (r : nat) : M Tensor := λ w,
  match heap w !! r with
  | Some t => (Ret t, w)
  | None => (Raise ReferenceError, w)
  end.

Definition with_data (t : Tensor) (d : list elt) : Tensor :=
  {| device := device t; tensor_dtype := tensor_dtype t;
     shape := shape t; data := d |}.

Definition store_data (r : nat) (t : Tensor) (d : list elt) : M unit :=
  modify (λ w, set_heap (<[r := with_data t d]> (heap w)) w).

(** [torch.cuda.current_stream().record_event()] *)
Definition record_event : M nat :=
  s ← gets current_stream;
  h ← gets next_handle;
  modify (set_next_handle (S h)) ;;
  modify (log (EvRecord (cuda_stream s) h)) ;;
  mret h.

(** [s.wait_event(ev)] *)
Definition wait_event (s : Stream) (ev : nat) : M unit :=
  modify (log (EvWait (cuda_stream s) ev)).

(** [with torch.cuda.stream(s): body]; the previous stream comes back
    however the body ends. *)
Definition with_stream {A} (s : Stream) (body : M A) : M A := λ w,
  let prev := current_stream w in
  let '(r, w') := body (set_current_stream s w) in
  (r, set_current_stream prev w').

(** A torch operator puts its kernel on the current stream. *)
Definition launch (k : kernel) : M unit :=
  s ← gets current_stream;
  modify (log (EvLaunch (cuda_stream s) k)).

(** [torch.cuda.synchronize()] *)
Definition synchronize : M unit := modify (log EvSynchronize).

(** ** utils.py *)

(** Modelled from the spec: [utils.flatten] is not among the sources.  The
    spec's Tensor Coalescer: all tensors share one element type, mixed types
    are rejected; each tensor's data goes, in input order, into its offset
    range of one newly allocated contiguous buffer.  An empty list has no
    element type to allocate with and is rejected as well. *)
Definition flatten_tensors (ts : list Tensor) : exn + Tensor :=
  match ts with
  | [] => inl (RuntimeError "flatten: expected a non-empty list of tensors")
  | t0 :: _ =>
      if forallb (λ t, bool_decide (tensor_dtype t = tensor_dtype t0)) ts
      then inr {| device := device t0; tensor_dtype := tensor_dtype t0;
                  shape := [length (concat (data <$> ts))];
                  data := concat (data <$> ts) |}
      else inl (RuntimeError "flatten: tensors of mixed element types")
  end.

Definition flatten (tensors : list nat) : M nat :=
  ts ← mapM deref tensors;
  flat ← lift_sum (flatten_tensors ts);
  p ← gets (λ w, fresh (dom (heap w)));
  launch (KCat tensors p) ;;
  modify (λ w, set_heap (<[p := flat]> (heap w)) w) ;;
  mret p.

(** Modelled from the spec: [utils.unflatten] is not among the sources.
    The spec: given the same ordered list, per-tensor views into the buffer
    at the same prefix offsets, aligned to each tensor's shape. *)
Fixpoint views_of (base offset : nat) (ts : list Tensor) : list View :=
  match ts with
  | [] => []
  | t :: ts' =>
      {| view_base := base; view_offset := offset;
         view_numel := numel t; view_shape := shape t |}
      :: views_of base (offset + numel t) ts'
  end.

Definition unflatten (flat : nat) (tensors : list nat) : M (list View) :=
  ts ← mapM deref tensors;
  mret (views_of flat 0 ts).

(** What a view shows of the buffer under it. *)
Definition view_tensor (flat : Tensor) (v : View) : Tensor :=
  {| device := device flat; tensor_dtype := tensor_dtype flat;
     shape := view_shape v;
     data := take (view_numel v) (drop (view_offset v) (data flat)) |}.

Definition read_view (v : View) : M Tensor :=
  flat ← deref (view_base v);
  mret (view_tensor flat v).

(** ** Operators of torch and of the transport used by the collectives *)

(** [buf.copy_(synced)] *)
Definition copy_ (buf : nat) (synced : View) : M unit :=
  src ← read_view synced;
  dst ← deref buf;
  launch (KCopy buf synced) ;;
  store_data buf dst (data src).

(** [t /= n] *)
Definition idiv (t : nat) (n : Z) : M unit :=
  x ← deref t;
  launch (KDiv t n) ;;
  store_data t x ((λ e, true_divide e n) <$> data x).

(** [B.BaguaTensorPy(ptr=t.data_ptr(), num_elem=t.numel(),
    num_elem_allocated=t.numel(), dtype=to_bagua_datatype(t.dtype),
    device_id=t.device.index)] *)
Definition new_BaguaTensorPy (t : nat) : M BaguaTensorPy :=
  x ← deref t;
  dt ← lift_sum (to_bagua_datatype (tensor_dtype x));
  mret {| ptr := t; num_elem := numel x; num_elem_allocated := numel x;
          bagua_dtype := dt;
          tensor_device_id := match device x with
                              | cpu => None
                              | cuda i => Some i
                              end |}.

(** The transport rewrites the first [num_elem] elements behind the
    descriptor, on the stream the communicator was built with. *)
Definition transport (c : BaguaSingleCommunicatorPy) (k : kernel)
    (f : list elt → list elt) (b : BaguaTensorPy) : M unit :=
  x ← deref (ptr b);
  modify (log (EvLaunch (stream_ptr c) k)) ;;
  store_data (ptr b) x
    (f (take (num_elem b) (data x)) ++ drop (num_elem b) (data x)).

(** [comm.broadcast(b, root)] *)
Definition comm_do_broadcast (c : BaguaSingleCommunicatorPy)
    (b : BaguaTensorPy) (root : Z) : M unit :=
  transport c (KBroadcast c b root) (comm_broadcast c root) b.

(** [comm.allreduce(b)] *)
Definition comm_do_allreduce (c : BaguaSingleCommunicatorPy)
    (b : BaguaTensorPy) : M unit :=
  transport c (KAllreduce c b) (comm_allreduce c) b.

(** ** communication.py: collectives *)

(** [if comm is None: comm = _get_global_state().get_global_communicator()] *)
Definition default_comm (comm : option BaguaSingleCommunicatorPy)
    : M BaguaSingleCommunicatorPy :=
  match comm with
  | Some c => mret c
  | None =>
      g ← _get_global_state;
      match g with
      | Some g => mret (global_communicator g)
      | None =>
          raise (AttributeError
            "'NoneType' object has no attribute 'get_global_communicator'")
      end
  end.

Definition assert_cuda (msg : string) (tensor : nat) : M unit :=
  t ← deref tensor;
  py_assert (bool_decide (device t ≠ cpu)) msg.

Definition broadcast_coalesced (tensors : list nat) (root : Z)
    (comm : option BaguaSingleCommunicatorPy) : M unit :=
  for_each tensors (assert_cuda "input tensors must be CUDA and dense") ;;
  comm ← default_comm comm;
  event ← record_event;
  wait_event (comm_cuda_stream comm) event ;;
  with_stream (comm_cuda_stream comm) (
    coalesced ← flatten tensors;
    b_coalesced ← new_BaguaTensorPy coalesced;
    comm_do_broadcast comm b_coalesced root ;;
    views ← unflatten coalesced tensors;
    for_each (zip tensors views) (λ '(buf, synced), copy_ buf synced)) ;;
  synchronize.

Definition broadcast (tensor : nat) (root : Z)
    (comm : option BaguaSingleCommunicatorPy) : M unit :=
  assert_cuda "input tensor must be CUDA and dense" tensor ;;
  comm ← default_comm comm;
  event ← record_event;
  wait_event (comm_cuda_stream comm) event ;;
  with_stream (comm_cuda_stream comm) (
    b_tensor ← new_BaguaTensorPy tensor;
    comm_do_broadcast comm b_tensor root) ;;
  synchronize.

Definition allreduce_coalesced (tensors : list nat)
    (comm : option BaguaSingleCommunicatorPy) (average : bool) : M unit :=
  for_each tensors (assert_cuda "input tensors must be CUDA and dense") ;;
  comm ← default_comm comm;
  event ← record_event;
  wait_event (comm_cuda_stream comm) event ;;
  with_stream (comm_cuda_stream comm) (
    coalesced ← flatten tensors;
    b_coalesced ← new_BaguaTensorPy coalesced;
    comm_do_allreduce comm b_coalesced ;;
    (if average then idiv coalesced (nranks comm) else mret tt) ;;
    views ← unflatten coalesced tensors;
    for_each (zip tensors views) (λ '(buf, synced), copy_ buf synced)) ;;
  synchronize.

Definition allreduce (tensor : nat)
    (comm : option BaguaSingleCommunicatorPy) (average : bool) : M unit :=
  assert_cuda "input tensor must be CUDA and dense" tensor ;;
  comm ← default_comm comm;
  event ← record_event;
  wait_event (comm_cuda_stream comm) event ;;
  with_stream (comm_cuda_stream comm) (
    b_tensor ← new_BaguaTensorPy tensor;
    comm_do_allreduce comm b_tensor ;;
    (if average then idiv tensor (nranks comm) else mret tt)) ;;
  synchronize.

(** ** Worlds to run examples on *)

Definition env_of (r ws lr ls : Z) : gmap string string :=
  {[ "RANK" := pretty r; "WORLD_SIZE" := pretty ws;
     "LOCAL_RANK" := pretty lr; "LOCAL_SIZE" := pretty ls ]}.

Definition fresh_world (env : gmap string string) : World :=
  {| environ := env; _global_state := None; dist_is_initialized := false;
     default_store := ∅; file_stores := ∅; id_seed := 0; next_handle := 1;
     current_stream := {| cuda_stream := 0; priority := 0 |};
     heap := ∅; trace := [] |}.

Definition scalar (d : Device) (x : elt) : Tensor :=
  {| device := d; tensor_dtype := float32; shape := []; data := [x] |}.

Definition vector (d : Device) (xs : list elt) : Tensor :=
  {| device := d; tensor_dtype := float32; shape := [length xs]; data := xs |}.

(** The four integers of env.py as the process reads them. *)
Record configured (w : World) (r ws lr ls : Z) : Prop := {
  cfg_rank : environ_int (environ w) "RANK" 0 = inr r;
  cfg_world_size : environ_int (environ w) "WORLD_SIZE" 1 = inr ws;
  cfg_local_rank : environ_int (environ w) "LOCAL_RANK" 0 = inr lr;
  cfg_local_size : environ_int (environ w) "LOCAL_SIZE" 1 = inr ls
}.

(** ** Several processes on shared stores *)

Record Stores := {
  shared_default : gmap string (list Byte.byte);
  shared_files : gmap string (gmap string (list Byte.byte))
}.

Definition stores_of (w : World) : Stores :=
  {| shared_default := default_store w; shared_files := file_stores w |}.

Definition with_stores (st : Stores) (w : World) : World :=
  set_file_stores (shared_files st) (set_default_store (shared_default st) w).

(** The processes run [f] one after the other, each on the stores the
    previous one left. *)
Fixpoint run_in_turn {A} (f : M A) (st : Stores) (ws : list World)
    : list (outcome A * World) :=
  match ws with
  | [] => []
  | w :: ws' =>
      let rw := f (with_stores st w) in
      rw :: run_in_turn f (stores_of (snd rw)) ws'
  end.

(** ** Vocabulary of the statements *)

(** An outcome that is not a normal return. *)
Definition failed {A} (r : outcome A) : Prop :=
  match r with Ret _ => False | _ => True end.

(** [m] never changes the observation [f] of the world. *)
Definition keeps {A B} (f : World → B) (m : M A) : Prop :=
  ∀ w r w', m w = (r, w') → f w' = f w.

(** Observations that the bootstrap cannot touch: everything it writes goes
    to the log, the stores, the entropy state, the handle counter or the
    flag of torch.distributed. *)
Record blind {B} (f : World → B) : Prop := {
  blind_log : ∀ e w, f (log e w) = f w;
  blind_id_seed : ∀ n w, f (set_id_seed n w) = f w;
  blind_next_handle : ∀ n w, f (set_next_handle n w) = f w;
  blind_default_store : ∀ m w, f (set_default_store m w) = f w;
  blind_file_stores : ∀ m w, f (set_file_stores m w) = f w;
  blind_dist : ∀ b w, f (set_dist_is_initialized b w) = f w
}.

(** The store that [init_process_group] settles on. *)
Definition choose_store (scheme : string) (metas : list string) : M Store :=
  if bool_decide (scheme = "file") then
    path ← index metas 1;
    ws ← get_world_size;
    extcall (CallFileStore path ws) ;;
    mret (FileStore path ws)
  else
    started ← gets dist_is_initialized;
    (if started : bool then mret tt
     else
       extcall (CallDistInitProcessGroup "nccl" "env://") ;;
       modify (set_dist_is_initialized true)) ;;
    _get_default_store.

(** The store a call works on: the one passed, or the default store of an
    initialised torch.distributed. *)
Definition store_handle (store : option Store) (w : World) : option Store :=
  match store with
  | Some s => Some s
  | None => if dist_is_initialized w then Some DefaultStore else None
  end.

Definition published (s : Store) (key id : string) (w : World) : World :=
  log (EvStoreSet s key (str_encode id))
    (set_store_contents s (<[key := str_encode id]> (store_contents s w)) w).

Definition generated (w : World) : World :=
  log (EvGenerateId (generate_nccl_unique_id_str (id_seed w)))
    (set_id_seed (S (id_seed w)) w).

Definition communicator_of (rank nranks device_id : Z) (stream : Stream)
    (id : string) : BaguaSingleCommunicatorPy :=
  {| rank := rank; nranks := nranks; comm_device_id := device_id;
     stream_ptr := cuda_stream stream; nccl_unique_id_str := id;
     comm_cuda_stream := stream |}.

Definition constructed (rank nranks device_id : Z) (stream : Stream)
    (id : string) (w : World) : World :=
  log (EvCall (CallBaguaSingleCommunicatorPy rank nranks device_id
                 (cuda_stream stream) id)) w.

(** A rank can obtain the identifier of a rendezvous when it is the one
    that publishes it or when the identifier is already in the store. *)
Definition obtainable (s : Store) (w : World) (r : Z) (comm_type : string)
    (root : Z) : Prop :=
  r = root ∨
  ∃ v id, store_contents s w !! unique_id_key comm_type root = Some v ∧
          str_decode v = Some id.

(** [w'] differs from [w] by bootstrap effects that leave every key of
    [s] other than [key] alone. *)
Record rendezvous_frame (s : Store) (key : string) (w w' : World) : Prop := {
  frame_environ : environ w' = environ w;
  frame_global_state : _global_state w' = _global_state w;
  frame_keys : ∀ k, k ≠ key →
    store_contents s w' !! k = store_contents s w !! k
}.

(** The ranks and sizes that the topology arithmetic gives the three
    communicators of a state. *)
Record topology (g : BaguaGlobalState) (r ws ls : Z) : Prop := {
  topo_inter :
    match internode_communicator g with
    | None => r `mod` ls ≠ 0
    | Some c => r `mod` ls = 0 ∧ rank c = r `div` ls ∧ nranks c = ws `div` ls
    end;
  topo_intra :
    rank (intranode_communicator g) = r `mod` ls ∧
    nranks (intranode_communicator g) = ls;
  topo_global :
    rank (global_communicator g) = r ∧ nranks (global_communicator g) = ws
}.

(** The store an init method selects. *)
Definition chosen_store (init_method : string) (ws : Z) : option Store :=
  match split init_method "://" with
  | scheme :: rest =>
      if bool_decide (scheme = "file") then
        match rest with
        | path :: _ => Some (FileStore path ws)
        | [] => None
        end
      else if bool_decide (scheme = "dist") then Some DefaultStore
      else None
  | [] => None
  end.

Definition shared_contents (s : Store) (st : Stores)
    : gmap string (list Byte.byte) :=
  match s with
  | DefaultStore => shared_default st
  | FileStore f _ => default ∅ (shared_files st !! f)
  end.

(** Processes paired with what they returned, if they have. *)
Record cluster (A : Type) := {
  cl_stores : Stores;
  cl_procs : list (World * option (outcome A))
}.
Arguments cl_stores {A} c.
Arguments cl_procs {A} c.

Definition start {A} (st : Stores) (ws : list World) : cluster A :=
  {| cl_stores := st; cl_procs := (λ w, (w, None)) <$> ws |}.

(** One scheduling step: some process that has not finished runs [f] on the
    stores as they are now.  It finishes, or it finds itself waiting in
    [store.get] and is looked at again later. *)
Inductive attempt {A} (f : M A) : cluster A → cluster A → Prop :=
  | attempt_finishes c i w r w' :
      cl_procs c !! i = Some (w, None) →
      f (with_stores (cl_stores c) w) = (r, w') →
      (∀ key, r ≠ Blocked key) →
      attempt f c {| cl_stores := stores_of w';
                     cl_procs := <[i := (w', Some r)]> (cl_procs c) |}
  | attempt_waits c i w key w' :
      cl_procs c !! i = Some (w, None) →
      f (with_stores (cl_stores c) w) = (Blocked key, w') →
      attempt f c c.

Definition rank_of (w : World) : exn + Z := environ_int (environ w) "RANK" 0.

(** What holds of a process started as [w0], when the identifier in the
    store is [pub]: if it has not returned it is as it started, and it is the
    root only if nothing is published; if it has returned, it returned the
    published identifier, the root having generated and put it, any other
    rank having got it. *)
Definition process_ok (comm_type : string) (root : Z) (s : Store)
    (pub : option string) (w0 : World)
    (p : World * option (outcome string)) : Prop :=
  let key := unique_id_key comm_type root in
  match p.2 with
  | None => p.1 = w0 ∧ (rank_of w0 = inr root → pub = None)
  | Some r =>
      ∃ id, pub = Some id ∧ r = Ret id ∧
        if decide (rank_of w0 = inr root)
        then id = generate_nccl_unique_id_str (id_seed w0) ∧
             trace p.1 = trace w0 ++
               [EvGenerateId id; EvStoreSet s key (str_encode id)]
        else trace p.1 = trace w0 ++ [EvStoreGet s key (str_encode id)]
  end.

Definition rendezvous_inv (comm_type : string) (root : Z) (s : Store)
    (ws : list World) (c : cluster string) : Prop :=
  ∃ pub : option string,
    shared_contents s (cl_stores c) !! unique_id_key comm_type root
    = str_encode <$> pub ∧
    Forall2 (process_ok comm_type root s pub) ws (cl_procs c).

(** The world on entering and on leaving the [with] block of a
    collective: an event recorded on the caller's stream, the
    communicator's stream made to wait for it and made current; then the
    caller's stream restored and the device synchronised. *)
Definition prologue (c : BaguaSingleCommunicatorPy) (w : World) : World :=
  set_current_stream (comm_cuda_stream c)
    (log (EvWait (cuda_stream (comm_cuda_stream c)) (next_handle w))
       (log (EvRecord (cuda_stream (current_stream w)) (next_handle w))
          (set_next_handle (S (next_handle w)) w))).

Definition epilogue (w0 w : World) : World :=
  log EvSynchronize (set_current_stream (current_stream w0) w).

(** The descriptor the collectives hand to the transport. *)
Definition descriptor (r : nat) (t : Tensor) (dt : string) : BaguaTensorPy :=
  {| ptr := r; num_elem := numel t; num_elem_allocated := numel t;
     bagua_dtype := dt;
     tensor_device_id := match device t with
                         | cpu => None
                         | cuda i => Some i
                         end |}.

(** One kernel on the current stream, or on the communicator's own, that
    rewrites the data of [r]. *)
Definition rewritten (on : N) (k : kernel) (r : nat) (t : Tensor)
    (d : list elt) (w : World) : World :=
  set_heap (<[r := with_data t d]> (heap w)) (log (EvLaunch on k) w).

Definition divided (n : Z) (d : list elt) : list elt :=
  (λ e, true_divide e n) <$> d.

(** What all-reduce leaves in a buffer that held [d]. *)
Definition reduced (c : BaguaSingleCommunicatorPy) (average : bool)
    (d : list elt) : list elt :=
  if average then divided (nranks c) (comm_allreduce c d)
  else comm_allreduce c d.

(** The scatter step of the coalesced collectives on the heap: each buffer,
    in order, takes the data its view shows of [flat]. *)
Definition scatter_step (flat : Tensor) (h : gmap nat Tensor)
    (bv : nat * View) : gmap nat Tensor :=
  match h !! bv.1 with
  | Some dst => <[bv.1 := with_data dst (data (view_tensor flat bv.2))]> h
  | None => h
  end.

Definition scatter (flat : Tensor) (h : gmap nat Tensor)
    (bvs : list (nat * View)) : gmap nat Tensor :=
  foldl (scatter_step flat) h bvs.

Fixpoint copied (flat : Tensor) (bvs : list (nat * View)) (w : World)
    : World :=
  match bvs with
  | [] => w
  | bv :: rest =>
      copied flat rest
        (set_heap (scatter_step flat (heap w) bv)
           (log (EvLaunch (cuda_stream (current_stream w))
                   (KCopy bv.1 bv.2)) w))
  end.

Definition copy_events (on : N) (bvs : list (nat * View)) : list event :=
  (λ bv, EvLaunch on (KCopy bv.1 bv.2)) <$> bvs.

(** The handles [tensors] denote the tensors [ts]. *)
Definition denote (w : World) (tensors : list nat) (ts : list Tensor) : Prop :=
  Forall2 (λ r t, heap w !! r = Some t) tensors ts.


(** The log entries of the four collectives, from the call to the return. *)
Definition entry_events (c : BaguaSingleCommunicatorPy) (w : World)
    : list event :=
  [EvRecord (cuda_stream (current_stream w)) (next_handle w);
   EvWait (cuda_stream (comm_cuda_stream c)) (next_handle w)].

Definition allreduce_events (c : BaguaSingleCommunicatorPy) (average : bool)
    (b : BaguaTensorPy) : list event :=
  EvLaunch (stream_ptr c) (KAllreduce c b)
  :: (if average
      then [EvLaunch (cuda_stream (comm_cuda_stream c))
              (KDiv (ptr b) (nranks c))]
      else []).

Definition broadcast_events (c : BaguaSingleCommunicatorPy) (root : Z)
    (b : BaguaTensorPy) : list event :=
  [EvLaunch (stream_ptr c) (KBroadcast c b root)].

(** What a finished single-tensor collective has done to the world. *)
Record collective_effect (w w' : World) (r : nat) (t : Tensor)
    (d : list elt) (evs : list event) : Prop := {
  effect_heap : heap w' = <[r := with_data t d]> (heap w);
  effect_trace : trace w' = trace w ++ evs;
  effect_stream : current_stream w' = current_stream w;
  effect_state : _global_state w' = _global_state w
}.

(** The world after [flatten]: the flat buffer freshly allocated, one
    concatenation kernel on the current stream. *)
Definition flat_ptr (w : World) : nat := fresh (dom (heap w)).

Definition allocated (tensors : list nat) (flat : Tensor) (w : World) : World :=
  set_heap (<[flat_ptr w := flat]> (heap w))
    (log (EvLaunch (cuda_stream (current_stream w))
            (KCat tensors (flat_ptr w))) w).

(** What a finished coalesced collective has done to the world: the flat
    buffer [flat] of the tensors holds [d] and has been scattered over
    them through [views], in order. *)
Record coalesced_effect (w w' : World) (tensors : list nat)
    (flat : Tensor) (d : list elt) (views : list View)
    (evs : list event) : Prop := {
  coalesced_heap :
    heap w' = scatter (with_data flat d)
                (<[flat_ptr w := with_data flat d]> (heap w))
                (zip tensors views);
  coalesced_trace : trace w' = trace w ++ evs;
  coalesced_stream : current_stream w' = current_stream w;
  coalesced_state : _global_state w' = _global_state w
}.

(** A communicator whose transport stream is its [cuda_stream]; the three
    factories build no other. *)
Definition bound (c : BaguaSingleCommunicatorPy) : Prop :=
  stream_ptr c = cuda_stream (comm_cuda_stream c).




(** One member of a group in a single-tensor collective: its process, the
    tensor it passes and the communicator argument. *)
Record member := {
  m_world : World;
  m_tensor : nat;
  m_comm : option BaguaSingleCommunicatorPy
}.

Definition m_data (w : World) (r : nat) : list elt :=
  match heap w !! r with
  | Some t => data t
  | None => []
  end.

Definition contribution (m : member) : list elt :=
  m_data (m_world m) (m_tensor m).

(** Member [r] of [n] passes a tensor on a compute device, of an element
    type the transport knows, and its communicator argument stands for a
    communicator of rank [r] and size [n]. *)
Definition joined (n r : nat) (m : member) (c : BaguaSingleCommunicatorPy)
    : Prop :=
  (∃ t dt, heap (m_world m) !! m_tensor m = Some t ∧
           device t ≠ cpu ∧
           to_bagua_datatype (tensor_dtype t) = inr dt) ∧
  default_comm (m_comm m) (m_world m) = (Ret c, m_world m) ∧
  rank c = Z.of_nat r ∧
  nranks c = Z.of_nat n.

(** One member of a group in a coalesced collective. *)
Record cmember := {
  cm_world : World;
  cm_tensors : list nat;
  cm_comm : option BaguaSingleCommunicatorPy
}.

Definition cm_flat (m : cmember) : list elt :=
  concat (m_data (cm_world m) <$> cm_tensors m).

Definition cjoined (n r : nat) (m : cmember) (c : BaguaSingleCommunicatorPy)
    (ts : list Tensor) (flat : Tensor) : Prop :=
  denote (cm_world m) (cm_tensors m) ts ∧
  Forall (λ t, device t ≠ cpu) ts ∧
  flatten_tensors ts = inr flat ∧
  (∃ dt, to_bagua_datatype (tensor_dtype flat) = inr dt) ∧
  default_comm (cm_comm m) (cm_world m) = (Ret c, cm_world m) ∧
  rank c = Z.of_nat r ∧
  nranks c = Z.of_nat n.



(** The transport performs a sum-reduction over a group: whichever member
    calls it, it leaves the element-wise [add]-fold of all the members'
    buffers in that member's buffer. *)
Definition sum_reduction (add : elt → elt → elt) (buffers : list (list elt))
    : Prop :=
  ∀ (r : nat) b c,
    buffers !! r = Some b →
    rank c = Z.of_nat r →
    nranks c = Z.of_nat (length buffers) →
    comm_allreduce c b = elementwise add buffers.

(** The transport broadcasts over a group: it leaves the root's buffer in
    every member's buffer. *)
Definition root_broadcast (buffers : list (list elt)) : Prop :=
  ∀ (r root : nat) b broot c,
    buffers !! r = Some b →
    buffers !! root = Some broot →
    rank c = Z.of_nat r →
    comm_broadcast c (Z.of_nat root) b = broot.

(** The result of all-reduce over a group of [n] whose buffers sum to
    [total]. *)
Definition averaged (average : bool) (n : nat) (total : list elt) : list elt :=
  if average then divided (Z.of_nat n) total else total.


(** ** Scenarios *)

Definition empty_stores : Stores :=
  {| shared_default := ∅; shared_files := ∅ |}.

(** The process of rank [r] on a cluster of [ws] processes, [ls] a node. *)
Definition rank_world (ws ls r : Z) : World :=
  fresh_world (env_of r ws (r `mod` ls) ls).

(** The ranks bootstrap one after the other on shared stores. *)
Definition bootstrapped (init_method : string) (ws ls : Z) (ranks : list Z)
    : list (outcome unit * World) :=
  run_in_turn (init_process_group init_method None) empty_stores
    (rank_world ws ls <$> ranks).

Definition holding (r : nat) (t : Tensor) (w : World) : World :=
  set_heap (<[r := t]> (heap w)) w.



(** ** Vocabulary of the further properties *)

(** Same device, element type and shape. *)
Definition same_meta (a b : Tensor) : Prop :=
  device a = device b ∧ tensor_dtype a = tensor_dtype b ∧ shape a = shape b.

(** [sep.join(pieces)] *)
Fixpoint join (sep : string) (pieces : list string) : string :=
  match pieces with
  | [] => ""
  | [s] => s
  | s :: rest => s +:+ sep +:+ join sep rest
  end.

(** [s[n:]] *)
Fixpoint string_drop (n : nat) (s : string) : string :=
  match n, s with
  | O, _ => s
  | S n', String _ s' => string_drop n' s'
  | S _, EmptyString => EmptyString
  end.

(** ** env.py and communication.py: the remaining readers *)

(** [int(os.environ.get("BAGUA_REPORT_METRICS", 0)) == 1] *)
Definition is_report_metrics_switch_on : M bool :=
  v ← getenv_int "BAGUA_REPORT_METRICS" 0;
  mret (bool_decide (v = 1)).

Definition get_autotune_level : M Z := getenv_int "BAGUA_AUTOTUNE" 0.

(** [_global_state.hyperparameters] *)
Definition get_bagua_hyperparameters : M unit :=
  g ← gets _global_state;
  match g with
  | Some g => mret (hyperparameters g)
  | None =>
      raise (AttributeError
        "'NoneType' object has no attribute 'hyperparameters'")
  end.

(** [_global_state.hyperparameters_service_client] *)
Definition get_hyperparameters_service_client : M (option string) :=
  g ← gets _global_state;
  match g with
  | Some g => mret (hyperparameters_service_client g)
  | None =>
      raise (AttributeError
        "'NoneType' object has no attribute 'hyperparameters_service_client'")
  end.

(** The getters of [BaguaGlobalState]. *)
Definition get_internode_communicator (g : BaguaGlobalState)
    : option BaguaSingleCommunicatorPy := internode_communicator g.
Definition get_intranode_communicator (g : BaguaGlobalState)
    : BaguaSingleCommunicatorPy := intranode_communicator g.
Definition get_global_communicator (g : BaguaGlobalState)
    : BaguaSingleCommunicatorPy := global_communicator g.
Definition get_backend (g : BaguaGlobalState) : BaguaCommBackendPy :=
  backend g.

(** ** Vocabulary of the further properties, bootstrap *)

(** The store holds a readable identifier under [key]. *)
Definition available (s : Store) (w : World) (key : string) : Prop :=
  ∃ v id, store_contents s w !! key = Some v ∧ str_decode v = Some id.

Definition shared_available (s : Store) (st : Stores) (key : string) : Prop :=
  ∃ v id, shared_contents s st !! key = Some v ∧ str_decode v = Some id.

(** What the store holds once ranks [0 .. k-1] have bootstrapped, [ls] a
    node: the inter-node and the global identifier, and the intra-node
    identifier of every node whose first rank has run. *)
Definition ready (s : Store) (ls : Z) (k : nat) (st : Stores) : Prop :=
  ((0 < k)%nat →
   shared_available s st (unique_id_key "bagua_inter_comm" 0) ∧
   shared_available s st (unique_id_key "bagua_global_comm" 0)) ∧
  ∀ m, 0 ≤ m * ls < Z.of_nat k →
       shared_available s st (unique_id_key "bagua_intra_comm" (m * ls)).

(** A rank that indexes a member of its group. *)
Definition in_range (c : BaguaSingleCommunicatorPy) : Prop :=
  0 ≤ rank c < nranks c.

(** The three purposes a rendezvous is made for. *)
Definition purposes : list string :=
  ["bagua_inter_comm"; "bagua_intra_comm"; "bagua_global_comm"].

(** [m] waits for nothing but keys that satisfy [P]. *)
Definition waits_only {A} (P : string → Prop) (m : M A) : Prop :=
  ∀ w key w', m w = (Blocked key, w') → P key.

(** What a process configured as rank [r], [ls] a node, can be found
    waiting for: an identifier whose root it is not. *)
Definition rendezvous_wait (w : World) (key : string) : Prop :=
  ∀ r ws lr ls,
    configured w r ws lr ls →
    (key = unique_id_key "bagua_inter_comm" 0 ∧ r ≠ 0) ∨
    (key = unique_id_key "bagua_intra_comm" (r `div` ls * ls) ∧
     r ≠ r `div` ls * ls) ∨
    (key = unique_id_key "bagua_global_comm" 0 ∧ r ≠ 0).

Definition waits_in {A} (m : M A) : Prop :=
  ∀ w key w', m w = (Blocked key, w') → rendezvous_wait w key.

(** The readers of env.py that return an integer, each with the variable
    it reads and the default it passes to [os.environ.get]. *)
Definition int_readers : list (string * Z * M Z) :=
  [("WORLD_SIZE", 1, get_world_size); ("RANK", 0, get_rank);
   ("LOCAL_RANK", 0, get_local_rank); ("LOCAL_SIZE", 1, get_local_size);
   ("BAGUA_AUTOTUNE", 0, get_autotune_level)].

(** The data of the [i]-th tensor that a member passes to a coalesced
    collective. *)
Definition cm_data (i : nat) (m : cmember) : list elt :=
  default [] ((m_data (cm_world m) <$> cm_tensors m) !! i).

(** The store holds, under [key], a value that reads as [id]. *)
Definition holds (s : Store) (w : World) (key id : string) : Prop :=
  ∃ v, store_contents s w !! key = Some v ∧ str_decode v = Some id.

Definition shared_holds (s : Store) (st : Stores) (key id : string) : Prop :=
  ∃ v, shared_contents s st !! key = Some v ∧ str_decode v = Some id.

(** Rank [r], [ls] a node, is the root of the rendezvous under [key]. *)
Definition roots (r ls : Z) (key : string) : Prop :=
  (r = 0 ∧ key = unique_id_key "bagua_inter_comm" 0) ∨
  (r = r `div` ls * ls ∧
   key = unique_id_key "bagua_intra_comm" (r `div` ls * ls)) ∨
  (r = 0 ∧ key = unique_id_key "bagua_global_comm" 0).

(** The identifiers that the communicators of the state of rank [r] were
    built with are the ones the store holds. *)
Record identified (s : Store) (st : Stores) (g : BaguaGlobalState)
    (r ls : Z) : Prop := {
  id_global :
    shared_holds s st (unique_id_key "bagua_global_comm" 0)
      (nccl_unique_id_str (global_communicator g));
  id_intra :
    shared_holds s st (unique_id_key "bagua_intra_comm" (r `div` ls * ls))
      (nccl_unique_id_str (intranode_communicator g));
  id_inter :
    ∀ c, internode_communicator g = Some c →
         shared_holds s st (unique_id_key "bagua_inter_comm" 0)
           (nccl_unique_id_str c)
}.

(** The stores as the last of the processes run in turn leaves them. *)
Fixpoint stores_after {A} (f : M A) (st : Stores) (ws : list World)
    : Stores :=
  match ws with
  | [] => st
  | w :: ws' => stores_after f (stores_of (f (with_stores st w)).2) ws'
  end.

(** Observations that the work of a collective cannot touch: what it
    writes goes to the log, the heap and the handle counter, and the
    stream it makes current is put back. *)
Record quiet {B} (f : World → B) : Prop := {
  quiet_log : ∀ e w, f (log e w) = f w;
  quiet_heap : ∀ h w, f (set_heap h w) = f w;
  quiet_next_handle : ∀ n w, f (set_next_handle n w) = f w;
  quiet_with_stream :
    ∀ A s (body : M A), keeps f body → keeps f (with_stream s body)
}.

(** The parts of a process that belong to the bootstrap, and the current
    stream. *)
Record process_state_kept (w w' : World) : Prop := {
  kept_environ : environ w' = environ w;
  kept_global_state : _global_state w' = _global_state w;
  kept_dist : dist_is_initialized w' = dist_is_initialized w;
  kept_default_store : default_store w' = default_store w;
  kept_file_stores : file_stores w' = file_stores w;
  kept_id_seed : id_seed w' = id_seed w;
  kept_current_stream : current_stream w' = current_stream w
}.


(** * Properties *)

(** ** The monad *)

Lemma run_bind {A B} (m : M A) (k : A → M B) (w : World) :
  (m ≫= k) w =
  match m w with
  | (Ret a, w') => k a w'
  | (Raise e, w') => (Raise e, w')
  | (Blocked key, w') => (Blocked key, w')
  end.
Proof. reflexivity. Qed.

Lemma bind_ret {A B} (m : M A) (k : A → M B) w a w1 :
  m w = (Ret a, w1) → (m ≫= k) w = k a w1.
Proof. intros H. rewrite run_bind, H. reflexivity. Qed.

Lemma bind_raise {A B} (m : M A) (k : A → M B) w e w1 :
  m w = (Raise e, w1) → (m ≫= k) w = (Raise e, w1).
Proof. intros H. rewrite run_bind, H. reflexivity. Qed.

Lemma bind_blocked {A B} (m : M A) (k : A → M B) w key w1 :
  m w = (Blocked key, w1) → (m ≫= k) w = (Blocked key, w1).
Proof. intros H. rewrite run_bind, H. reflexivity. Qed.

Lemma bind_inv {A B} (m : M A) (k : A → M B) w r w' :
  (m ≫= k) w = (r, w') →
  (∃ a w1, m w = (Ret a, w1) ∧ k a w1 = (r, w')) ∨
  (failed r ∧ ((∃ e, m w = (Raise e, w') ∧ r = Raise e) ∨
               (∃ key, m w = (Blocked key, w') ∧ r = Blocked key))).
Proof.
  rewrite run_bind. destruct (m w) as [[a | e | key] w1]; intros H.
  - left. eauto.
  - right. inversion H; subst. split; [exact I | left; eauto].
  - right. inversion H; subst. split; [exact I | right; eauto].
Qed.

(** ** What a computation leaves alone *)

Lemma keeps_ret {A B} (f : World → B) (a : A) : keeps f (mret a).
Proof. intros w r w' H. inversion H. reflexivity. Qed.

Lemma keeps_raise {A B} (f : World → B) (e : exn) : keeps f (raise (A:=A) e).
Proof. intros w r w' H. inversion H. reflexivity. Qed.

Lemma keeps_gets {A B} (f : World → B) (g : World → A) : keeps f (gets g).
Proof. intros w r w' H. inversion H. reflexivity. Qed.

Lemma keeps_modify {B} (f : World → B) (g : World → World) :
  (∀ w, f (g w) = f w) → keeps f (modify g).
Proof. intros Hg w r w' H. inversion H. apply Hg. Qed.

Lemma keeps_bind {A B C} (f : World → C) (m : M A) (k : A → M B) :
  keeps f m → (∀ a, keeps f (k a)) → keeps f (m ≫= k).
Proof.
  intros Hm Hk w r w' H.
  apply bind_inv in H as [(a & w1 & H1 & H2) | [_ [(e & H1 & _) | (key & H1 & _)]]].
  - rewrite (Hk _ _ _ _ H2). eapply Hm, H1.
  - eapply Hm, H1.
  - eapply Hm, H1.
Qed.

Lemma keeps_lift_sum {A B} (f : World → B) (r : exn + A) : keeps f (lift_sum r).
Proof. destruct r; [apply keeps_raise | apply keeps_ret]. Qed.

Lemma keeps_index {A B} (f : World → B) (l : list A) i : keeps f (index l i).
Proof. unfold index. destruct (l !! i); [apply keeps_ret | apply keeps_raise]. Qed.

Create HintDb keeps.
#[local] Hint Resolve keeps_ret keeps_raise keeps_gets keeps_lift_sum
  keeps_index : keeps.

Lemma blind_global_state : blind _global_state.
Proof. split; intros ? []; reflexivity. Qed.

Lemma blind_environ : blind environ.
Proof. split; intros ? []; reflexivity. Qed.

Lemma blind_heap : blind heap.
Proof. split; intros ? []; reflexivity. Qed.

Lemma blind_current_stream : blind current_stream.
Proof. split; intros ? []; reflexivity. Qed.

(** Splits [keeps] along binds and branches, leaving the primitives to
    the hint database. *)
Ltac keeps_step :=
  match goal with
  | |- keeps _ (_ ≫= _) => apply keeps_bind; [| intros ?]
  | |- keeps _ (if ?b then _ else _) => destruct b
  | |- keeps _ (match ?x with _ => _ end) => destruct x
  | |- keeps _ _ => solve [eauto with keeps]
  end.
Ltac keeps_auto := repeat keeps_step.

Section Blind.
Context {B : Type} (f : World → B) (Hf : blind f).

Lemma keeps_log e : keeps f (modify (log e)).
Proof. apply keeps_modify. intros w. apply Hf. Qed.

Lemma keeps_set_next_handle n : keeps f (modify (set_next_handle n)).
Proof. apply keeps_modify. intros w. apply Hf. Qed.

Lemma keeps_set_dist b : keeps f (modify (set_dist_is_initialized b)).
Proof. apply keeps_modify. intros w. apply Hf. Qed.

Lemma keeps_getenv_int name d : keeps f (getenv_int name d).
Proof. unfold getenv_int. keeps_auto. Qed.

Lemma keeps_extcall c : keeps f (extcall c).
Proof. unfold extcall. destruct (faults c); auto using keeps_raise, keeps_log. Qed.

Lemma keeps_store_set s k v : keeps f (store_set s k v).
Proof.
  intros w r w' H. inversion H. rewrite (blind_log f Hf).
  destruct s; apply Hf.
Qed.

Lemma keeps_store_get s k : keeps f (store_get s k).
Proof.
  intros w r w' H. unfold store_get in H.
  destruct (store_contents s w !! k); inversion H; [apply Hf | reflexivity].
Qed.

Lemma keeps_generate : keeps f generate_nccl_unique_id.
Proof.
  intros w r w' H. inversion H.
  rewrite (blind_log f Hf). apply Hf.
Qed.

Lemma keeps_default_store : keeps f _get_default_store.
Proof.
  intros w r w' H. unfold _get_default_store in H.
  destruct (dist_is_initialized w); inversion H; reflexivity.
Qed.

Hint Resolve keeps_log keeps_set_next_handle keeps_set_dist keeps_getenv_int
  keeps_extcall keeps_store_set keeps_store_get keeps_generate
  keeps_default_store : keeps.

Lemma keeps_gen_nccl_unique_id comm_type root store :
  keeps f (gen_nccl_unique_id comm_type root store).
Proof. unfold gen_nccl_unique_id, py_str_utf8, get_rank. keeps_auto. Qed.

Lemma keeps_new_communicator r n d s id :
  keeps f (new_communicator r n d s id).
Proof. unfold new_communicator. keeps_auto. Qed.

Lemma keeps_default_device_id d : keeps f (default_device_id d).
Proof. unfold default_device_id, get_local_rank. keeps_auto. Qed.

Hint Resolve keeps_gen_nccl_unique_id keeps_new_communicator
  keeps_default_device_id : keeps.

Lemma keeps_inter s l st d :
  keeps f (init_bagua_inter_communicator s l st d).
Proof.
  unfold init_bagua_inter_communicator, get_rank, get_local_size,
    get_world_size.
  keeps_auto.
Qed.

Lemma keeps_intra s st d : keeps f (init_bagua_intra_communicator s st d).
Proof.
  unfold init_bagua_intra_communicator, get_rank, get_local_size. keeps_auto.
Qed.

Lemma keeps_comm s st d : keeps f (init_bagua_communicator s st d).
Proof.
  unfold init_bagua_communicator, get_rank, get_world_size. keeps_auto.
Qed.

Hint Resolve keeps_inter keeps_intra keeps_comm : keeps.

Lemma keeps_new_cuda_stream p : keeps f (new_cuda_stream p).
Proof. unfold new_cuda_stream. keeps_auto. Qed.

Hint Resolve keeps_new_cuda_stream : keeps.

Lemma keeps_new_state st d : keeps f (new_BaguaGlobalState st d).
Proof.
  unfold new_BaguaGlobalState, get_autotune_server_addr. keeps_auto.
Qed.

End Blind.

(** A failure of [m ≫= k] leaves [f] alone when [m] does and the failures
    of [k] do. *)
Lemma failed_bind_keeps {A B C} (f : World → C) (m : M A) (k : A → M B)
    w r w' :
  keeps f m →
  (m ≫= k) w = (r, w') →
  failed r →
  (∀ a w1, k a w1 = (r, w') → f w' = f w1) →
  f w' = f w.
Proof.
  intros Hm H Hr Hk.
  apply bind_inv in H as [(a & w1 & H1 & H2) | [_ [(e & H1 & _) | (key & H1 & _)]]].
  - rewrite (Hk _ _ H2). eapply Hm, H1.
  - eapply Hm, H1.
  - eapply Hm, H1.
Qed.

Lemma keeps_choose_store {B} (f : World → B) scheme metas :
  blind f → keeps f (choose_store scheme metas).
Proof.
  intros Hf. unfold choose_store, get_world_size.
  keeps_auto; eauto using keeps_getenv_int, keeps_extcall, keeps_set_dist,
    keeps_default_store.
Qed.

Lemma init_process_group_failed init_method device_id w r w' :
  init_process_group init_method device_id w = (r, w') →
  failed r →
  _global_state w' = _global_state w.
Proof.
  intros H Hr. unfold init_process_group in H.
  eapply failed_bind_keeps; [| exact H | exact Hr |]; [apply keeps_gets |].
  clear H. intros [] w1 H.
  { inversion H. reflexivity. }
  eapply failed_bind_keeps; [| exact H | exact Hr |]; [apply keeps_index |].
  clear H. intros scheme w2 H. cbv beta in H.
  destruct (bool_decide (scheme ∉ ["dist"; "file"])).
  { inversion H. reflexivity. }
  eapply failed_bind_keeps; [| exact H | exact Hr |].
  { apply (keeps_choose_store _ scheme), blind_global_state. }
  clear H. intros st w3 H.
  eapply failed_bind_keeps; [| exact H | exact Hr |].
  { apply keeps_new_state, blind_global_state. }
  clear H. intros g w4 H. inversion H; subst. destruct Hr.
Qed.

Lemma init_process_group_repeated init_method device_id w :
  _global_state w ≠ None →
  init_process_group init_method device_id w
  = (Raise RepeatedInitializationError, w).
Proof.
  intros H. unfold init_process_group. rewrite run_bind.
  unfold is_initialized, gets. rewrite bool_decide_true by exact H.
  reflexivity.
Qed.

(** ** Reading the environment *)

Lemma getenv_int_run name d w z :
  environ_int (environ w) name d = inr z → getenv_int name d w = (Ret z, w).
Proof.
  intros H. unfold getenv_int. rewrite run_bind. unfold gets.
  rewrite H. reflexivity.
Qed.

Lemma getenv_int_raise name d w e :
  environ_int (environ w) name d = inl e → getenv_int name d w = (Raise e, w).
Proof.
  intros H. unfold getenv_int. rewrite run_bind. unfold gets.
  rewrite H. reflexivity.
Qed.

Lemma configured_environ w w' r ws lr ls :
  environ w' = environ w → configured w r ws lr ls → configured w' r ws lr ls.
Proof. intros He [? ? ? ?]. split; rewrite He; assumption. Qed.

Lemma get_rank_run w r ws lr ls :
  configured w r ws lr ls → get_rank w = (Ret r, w).
Proof. intros [? ? ? ?]. apply getenv_int_run. assumption. Qed.

Lemma get_world_size_run w r ws lr ls :
  configured w r ws lr ls → get_world_size w = (Ret ws, w).
Proof. intros [? ? ? ?]. apply getenv_int_run. assumption. Qed.

Lemma get_local_rank_run w r ws lr ls :
  configured w r ws lr ls → get_local_rank w = (Ret lr, w).
Proof. intros [? ? ? ?]. apply getenv_int_run. assumption. Qed.

Lemma get_local_size_run w r ws lr ls :
  configured w r ws lr ls → get_local_size w = (Ret ls, w).
Proof. intros [? ? ? ?]. apply getenv_int_run. assumption. Qed.

(** ** The rendezvous, one process *)

Lemma store_handle_run store w s :
  store_handle store w = Some s →
  match store with
  | None => _get_default_store
  | Some s => mret s
  end w = (Ret s, w).
Proof.
  unfold store_handle, _get_default_store. destruct store as [s'|].
  - intros [= ->]. reflexivity.
  - destruct (dist_is_initialized w); intros [= <-]. reflexivity.
Qed.

Lemma store_contents_generated s w :
  store_contents s (generated w) = store_contents s w.
Proof. destruct s, w; reflexivity. Qed.

Lemma gen_nccl_unique_id_leader comm_type root store w s :
  store_handle store w = Some s →
  environ_int (environ w) "RANK" 0 = inr root →
  gen_nccl_unique_id comm_type root store w
  = (Ret (generate_nccl_unique_id_str (id_seed w)),
     published s (unique_id_key comm_type root)
       (generate_nccl_unique_id_str (id_seed w)) (generated w)).
Proof.
  intros Hs Hr. unfold gen_nccl_unique_id.
  rewrite (bind_ret _ _ _ _ _ (store_handle_run _ _ _ Hs)).
  rewrite (bind_ret _ _ _ _ _ (getenv_int_run _ _ _ _ Hr)).
  rewrite decide_True by reflexivity.
  reflexivity.
Qed.

Lemma gen_nccl_unique_id_follower comm_type root store w s r v id :
  store_handle store w = Some s →
  environ_int (environ w) "RANK" 0 = inr r →
  r ≠ root →
  store_contents s w !! unique_id_key comm_type root = Some v →
  str_decode v = Some id →
  gen_nccl_unique_id comm_type root store w
  = (Ret id, log (EvStoreGet s (unique_id_key comm_type root) v) w).
Proof.
  intros Hs Hr Hne Hv Hid. unfold gen_nccl_unique_id.
  rewrite (bind_ret _ _ _ _ _ (store_handle_run _ _ _ Hs)).
  rewrite (bind_ret _ _ _ _ _ (getenv_int_run _ _ _ _ Hr)).
  rewrite decide_False by exact Hne.
  rewrite run_bind. unfold store_get. rewrite Hv.
  rewrite run_bind. unfold py_str_utf8. rewrite Hid. reflexivity.
Qed.

Lemma gen_nccl_unique_id_blocked comm_type root store w s r :
  store_handle store w = Some s →
  environ_int (environ w) "RANK" 0 = inr r →
  r ≠ root →
  store_contents s w !! unique_id_key comm_type root = None →
  gen_nccl_unique_id comm_type root store w
  = (Blocked (unique_id_key comm_type root), w).
Proof.
  intros Hs Hr Hne Hv. unfold gen_nccl_unique_id.
  rewrite (bind_ret _ _ _ _ _ (store_handle_run _ _ _ Hs)).
  rewrite (bind_ret _ _ _ _ _ (getenv_int_run _ _ _ _ Hr)).
  rewrite decide_False by exact Hne.
  rewrite run_bind. unfold store_get. rewrite Hv. reflexivity.
Qed.

(** ** The three communicator factories *)

Lemma extcall_run c w : faults c = None → extcall c w = (Ret tt, log (EvCall c) w).
Proof. intros H. unfold extcall. rewrite H. reflexivity. Qed.

Lemma extcall_raise c e w : faults c = Some e → extcall c w = (Raise e, w).
Proof. intros H. unfold extcall. rewrite H. reflexivity. Qed.

Lemma new_communicator_run r n d s id w :
  faults (CallBaguaSingleCommunicatorPy r n d (cuda_stream s) id) = None →
  new_communicator r n d s id w
  = (Ret (communicator_of r n d s id), constructed r n d s id w).
Proof.
  intros H. unfold new_communicator.
  rewrite (bind_ret _ _ _ _ _ (extcall_run _ _ H)). reflexivity.
Qed.

Lemma new_communicator_inv r n d s id w c w' :
  new_communicator r n d s id w = (Ret c, w') →
  c = communicator_of r n d s id ∧ w' = constructed r n d s id w.
Proof.
  unfold new_communicator, extcall. rewrite run_bind.
  destruct (faults _); [discriminate |]. intros [= <- <-]. done.
Qed.

Lemma default_device_id_run device_id w r ws lr ls :
  configured w r ws lr ls →
  default_device_id device_id w = (Ret (default lr device_id), w).
Proof.
  intros Hc. destruct device_id; [reflexivity |].
  apply (get_local_rank_run _ _ _ _ _ Hc).
Qed.

Lemma py_mod_run a b : b ≠ 0 → py_mod a b = inr (a `mod` b).
Proof. intros H. unfold py_mod. rewrite decide_False by exact H. done. Qed.

Lemma py_floordiv_run a b : b ≠ 0 → py_floordiv a b = inr (a `div` b).
Proof. intros H. unfold py_floordiv. rewrite decide_False by exact H. done. Qed.

Lemma gen_nccl_unique_id_configured comm_type root store w x w1 r ws lr ls :
  gen_nccl_unique_id comm_type root store w = (x, w1) →
  configured w r ws lr ls → configured w1 r ws lr ls.
Proof.
  intros H. apply configured_environ.
  exact (keeps_gen_nccl_unique_id environ blind_environ _ _ _ _ _ _ H).
Qed.

(** With the rendezvous done, the inter-node factory is decided by
    [rank % local_size] alone. *)
Lemma init_bagua_inter_communicator_run stream leader store device_id
    w r ws lr ls id w1 :
  configured w r ws lr ls →
  ls ≠ 0 →
  gen_nccl_unique_id "bagua_inter_comm" leader store w = (Ret id, w1) →
  init_bagua_inter_communicator stream leader store device_id w
  = if decide (r `mod` ls ≠ leader) then (Ret None, w1)
    else (new_communicator (r `div` ls) (ws `div` ls)
            (default lr device_id) stream id
          ≫= λ comm, mret (Some comm)) w1.
Proof.
  intros Hc Hls Hgen. unfold init_bagua_inter_communicator.
  rewrite (bind_ret _ _ _ _ _ (default_device_id_run device_id _ _ _ _ _ Hc)).
  rewrite (bind_ret _ _ _ _ _ Hgen).
  pose proof (gen_nccl_unique_id_configured _ _ _ _ _ _ _ _ _ _ Hgen Hc) as Hc1.
  rewrite (bind_ret _ _ _ _ _ (get_rank_run _ _ _ _ _ Hc1)).
  rewrite (bind_ret _ _ _ _ _ (get_local_size_run _ _ _ _ _ Hc1)).
  rewrite (py_mod_run _ _ Hls). rewrite run_bind. cbn [lift_sum mret M_ret].
  destruct (decide (r `mod` ls ≠ leader)); [reflexivity |].
  rewrite (bind_ret _ _ _ _ _ (get_rank_run _ _ _ _ _ Hc1)).
  rewrite (bind_ret _ _ _ _ _ (get_local_size_run _ _ _ _ _ Hc1)).
  rewrite (py_floordiv_run _ _ Hls). rewrite run_bind. cbn [lift_sum mret M_ret].
  rewrite (bind_ret _ _ _ _ _ (get_world_size_run _ _ _ _ _ Hc1)).
  rewrite (bind_ret _ _ _ _ _ (get_local_size_run _ _ _ _ _ Hc1)).
  rewrite (py_floordiv_run _ _ Hls). rewrite run_bind. cbn [lift_sum mret M_ret].
  reflexivity.
Qed.

(** The rendezvous comes first: while it has not returned, nothing else of
    the factory has run, whatever the local size is. *)
Lemma init_bagua_inter_communicator_blocked stream leader store device_id
    w r ws lr ls key w1 :
  configured w r ws lr ls →
  gen_nccl_unique_id "bagua_inter_comm" leader store w = (Blocked key, w1) →
  init_bagua_inter_communicator stream leader store device_id w
  = (Blocked key, w1).
Proof.
  intros Hc Hgen. unfold init_bagua_inter_communicator.
  rewrite (bind_ret _ _ _ _ _ (default_device_id_run device_id _ _ _ _ _ Hc)).
  rewrite (bind_blocked _ _ _ _ _ Hgen). reflexivity.
Qed.

Lemma init_bagua_inter_communicator_returns stream leader store device_id
    w r ws lr ls res w' :
  configured w r ws lr ls →
  init_bagua_inter_communicator stream leader store device_id w
  = (Ret res, w') →
  ∃ id w1,
    gen_nccl_unique_id "bagua_inter_comm" leader store w = (Ret id, w1) ∧
    ls ≠ 0 ∧
    match res with
    | None => r `mod` ls ≠ leader ∧ w' = w1
    | Some c =>
        r `mod` ls = leader ∧
        c = communicator_of (r `div` ls) (ws `div` ls)
              (default lr device_id) stream id ∧
        w' = constructed (r `div` ls) (ws `div` ls)
               (default lr device_id) stream id w1
    end.
Proof.
  intros Hc H. pose proof H as H0. unfold init_bagua_inter_communicator in H.
  rewrite (bind_ret _ _ _ _ _ (default_device_id_run device_id _ _ _ _ _ Hc)) in H.
  apply bind_inv in H as [(id & w1 & Hgen & H) | [[] _]].
  exists id, w1. split; [exact Hgen |].
  pose proof (gen_nccl_unique_id_configured _ _ _ _ _ _ _ _ _ _ Hgen Hc) as Hc1.
  destruct (decide (ls = 0)) as [-> | Hls].
  { rewrite (bind_ret _ _ _ _ _ (get_rank_run _ _ _ _ _ Hc1)) in H.
    rewrite (bind_ret _ _ _ _ _ (get_local_size_run _ _ _ _ _ Hc1)) in H.
    discriminate H. }
  split; [exact Hls |].
  rewrite (init_bagua_inter_communicator_run _ _ _ _ _ _ _ _ _ _ _ Hc Hls Hgen) in H0.
  destruct (decide (r `mod` ls ≠ leader)) as [Hm | Hm].
  - injection H0 as <- <-. done.
  - apply dec_stable in Hm.
    apply bind_inv in H0 as [(c & w2 & Hn & H0) | [[] _]].
    injection H0 as <- <-.
    apply new_communicator_inv in Hn as [-> ->]. done.
Qed.

(** ** What the stores hold along the bootstrap *)

Lemma store_contents_log s e w :
  store_contents s (log e w) = store_contents s w.
Proof. destruct s, w; reflexivity. Qed.

Lemma store_contents_set_next_handle s n w :
  store_contents s (set_next_handle n w) = store_contents s w.
Proof. destruct s, w; reflexivity. Qed.

Lemma store_contents_set_dist s b w :
  store_contents s (set_dist_is_initialized b w) = store_contents s w.
Proof. destruct s, w; reflexivity. Qed.

Lemma store_contents_set s m w :
  store_contents s (set_store_contents s m w) = m.
Proof.
  destruct s as [| f n], w; cbn; [reflexivity |].
  rewrite lookup_insert_eq. reflexivity.
Qed.

Lemma store_contents_published s key id w :
  store_contents s (published s key id w)
  = <[key := str_encode id]> (store_contents s w).
Proof. unfold published. rewrite store_contents_log. apply store_contents_set. Qed.

Lemma frame_configured s key w w' r ws lr ls :
  rendezvous_frame s key w w' →
  configured w r ws lr ls → configured w' r ws lr ls.
Proof. intros [He _ _]. apply configured_environ, He. Qed.

Lemma frame_obtainable s key w w' r comm_type root :
  rendezvous_frame s key w w' →
  unique_id_key comm_type root ≠ key →
  obtainable s w r comm_type root → obtainable s w' r comm_type root.
Proof.
  intros [_ _ Hk] Hne [-> | (v & id & Hv & Hid)]; [left; reflexivity |].
  right. exists v, id. rewrite (Hk _ Hne). done.
Qed.

Lemma frame_log s key e w : rendezvous_frame s key w (log e w).
Proof.
  split; [apply blind_environ | apply blind_global_state |].
  intros. rewrite store_contents_log. reflexivity.
Qed.

Lemma frame_trans s key w1 w2 w3 :
  rendezvous_frame s key w1 w2 → rendezvous_frame s key w2 w3 →
  rendezvous_frame s key w1 w3.
Proof.
  intros [He1 Hg1 Hk1] [He2 Hg2 Hk2]. split; [congruence | congruence |].
  intros k Hk. rewrite (Hk2 _ Hk). apply Hk1, Hk.
Qed.

Lemma gen_nccl_unique_id_completes comm_type root store s w r :
  store_handle store w = Some s →
  environ_int (environ w) "RANK" 0 = inr r →
  obtainable s w r comm_type root →
  ∃ id w1,
    gen_nccl_unique_id comm_type root store w = (Ret id, w1) ∧
    rendezvous_frame s (unique_id_key comm_type root) w w1.
Proof.
  intros Hs Hr Hob. destruct (decide (r = root)) as [-> | Hne].
  - eexists _, _. split.
    + apply gen_nccl_unique_id_leader; [exact Hs | exact Hr].
    + split.
      * unfold published, generated.
        rewrite (blind_log _ blind_environ).
        destruct s, w; reflexivity.
      * unfold published, generated.
        rewrite (blind_log _ blind_global_state).
        destruct s, w; reflexivity.
      * intros k Hk. rewrite store_contents_published.
        rewrite lookup_insert_ne by congruence.
        rewrite store_contents_generated. reflexivity.
  - destruct Hob as [-> | (v & id & Hv & Hid)]; [done |].
    exists id, (log (EvStoreGet s (unique_id_key comm_type root) v) w).
    split.
    + eapply gen_nccl_unique_id_follower; eauto.
    + apply frame_log.
Qed.

Section NoFaults.
Hypothesis no_faults : ∀ c, faults c = None.

Lemma init_bagua_inter_communicator_completes stream leader store s
    device_id w r ws lr ls :
  store_handle store w = Some s →
  configured w r ws lr ls →
  ls ≠ 0 →
  obtainable s w r "bagua_inter_comm" leader →
  ∃ id w',
    init_bagua_inter_communicator stream leader store device_id w
    = (Ret (if decide (r `mod` ls ≠ leader) then None
            else Some (communicator_of (r `div` ls) (ws `div` ls)
                         (default lr device_id) stream id)),
       w') ∧
    rendezvous_frame s (unique_id_key "bagua_inter_comm" leader) w w'.
Proof.
  intros Hs Hc Hls Hob.
  destruct (gen_nccl_unique_id_completes _ _ _ _ _ _
              Hs (cfg_rank _ _ _ _ _ Hc) Hob)
    as (id & w1 & Hgen & Hfr).
  exists id.
  rewrite (init_bagua_inter_communicator_run _ _ _ _ _ _ _ _ _ _ _ Hc Hls Hgen).
  destruct (decide (r `mod` ls ≠ leader)).
  - exists w1. done.
  - rewrite (bind_ret _ _ _ _ _ (new_communicator_run _ _ _ _ _ _ (no_faults _))).
    eexists. split; [reflexivity |].
    eapply frame_trans; [exact Hfr | apply frame_log].
Qed.

Lemma init_bagua_intra_communicator_completes stream s d w r ws lr ls :
  configured w r ws lr ls →
  ls ≠ 0 →
  obtainable s w r "bagua_intra_comm" (r `div` ls * ls) →
  ∃ id w',
    init_bagua_intra_communicator stream (Some s) (Some d) w
    = (Ret (communicator_of (r `mod` ls) ls d stream id), w') ∧
    rendezvous_frame s
      (unique_id_key "bagua_intra_comm" (r `div` ls * ls)) w w'.
Proof.
  intros Hc Hls Hob.
  destruct (gen_nccl_unique_id_completes _ _ (Some s) _ _ _
              eq_refl (cfg_rank _ _ _ _ _ Hc) Hob)
    as (id & w1 & Hgen & Hfr).
  pose proof (frame_configured _ _ _ _ _ _ _ _ Hfr Hc) as Hc1.
  exists id. unfold init_bagua_intra_communicator.
  rewrite (bind_ret _ _ _ _ _ (default_device_id_run (Some d) _ _ _ _ _ Hc)).
  rewrite (bind_ret _ _ _ _ _ (get_rank_run _ _ _ _ _ Hc)).
  rewrite (bind_ret _ _ _ _ _ (get_local_size_run _ _ _ _ _ Hc)).
  rewrite (py_floordiv_run _ _ Hls). rewrite run_bind. cbn [lift_sum mret M_ret].
  rewrite (bind_ret _ _ _ _ _ (get_local_size_run _ _ _ _ _ Hc)).
  rewrite (bind_ret _ _ _ _ _ Hgen).
  rewrite (bind_ret _ _ _ _ _ (get_rank_run _ _ _ _ _ Hc1)).
  rewrite (bind_ret _ _ _ _ _ (get_local_size_run _ _ _ _ _ Hc1)).
  rewrite (py_mod_run _ _ Hls). rewrite run_bind. cbn [lift_sum mret M_ret].
  rewrite (bind_ret _ _ _ _ _ (get_local_size_run _ _ _ _ _ Hc1)).
  rewrite (new_communicator_run _ _ _ _ _ _ (no_faults _)).
  eexists. split; [reflexivity |].
  eapply frame_trans; [exact Hfr | apply frame_log].
Qed.

Lemma init_bagua_communicator_completes stream s d w r ws lr ls :
  configured w r ws lr ls →
  obtainable s w r "bagua_global_comm" 0 →
  ∃ id w',
    init_bagua_communicator stream (Some s) (Some d) w
    = (Ret (communicator_of r ws d stream id), w') ∧
    rendezvous_frame s (unique_id_key "bagua_global_comm" 0) w w'.
Proof.
  intros Hc Hob.
  destruct (gen_nccl_unique_id_completes _ _ (Some s) _ _ _
              eq_refl (cfg_rank _ _ _ _ _ Hc) Hob)
    as (id & w1 & Hgen & Hfr).
  pose proof (frame_configured _ _ _ _ _ _ _ _ Hfr Hc) as Hc1.
  exists id. unfold init_bagua_communicator.
  rewrite (bind_ret _ _ _ _ _ (default_device_id_run (Some d) _ _ _ _ _ Hc)).
  rewrite (bind_ret _ _ _ _ _ Hgen).
  rewrite (bind_ret _ _ _ _ _ (get_rank_run _ _ _ _ _ Hc1)).
  rewrite (bind_ret _ _ _ _ _ (get_world_size_run _ _ _ _ _ Hc1)).
  rewrite (new_communicator_run _ _ _ _ _ _ (no_faults _)).
  eexists. split; [reflexivity |].
  eapply frame_trans; [exact Hfr | apply frame_log].
Qed.

End NoFaults.

(** ** The whole bootstrap *)

Lemma key_intra_inter a b :
  unique_id_key "bagua_intra_comm" a ≠ unique_id_key "bagua_inter_comm" b.
Proof. unfold unique_id_key. cbn. discriminate. Qed.

Lemma key_global_inter a b :
  unique_id_key "bagua_global_comm" a ≠ unique_id_key "bagua_inter_comm" b.
Proof. unfold unique_id_key. cbn. discriminate. Qed.

Lemma key_global_intra a b :
  unique_id_key "bagua_global_comm" a ≠ unique_id_key "bagua_intra_comm" b.
Proof. unfold unique_id_key. cbn. discriminate. Qed.

Lemma frame_set_next_handle s key n w :
  rendezvous_frame s key w (set_next_handle n w).
Proof.
  split; [apply blind_environ | apply blind_global_state |].
  intros. rewrite store_contents_set_next_handle. reflexivity.
Qed.

Lemma frame_set_dist s key b w :
  rendezvous_frame s key w (set_dist_is_initialized b w).
Proof.
  split; [apply blind_environ | apply blind_global_state |].
  intros. rewrite store_contents_set_dist. reflexivity.
Qed.

Lemma frame_refl s key w : rendezvous_frame s key w w.
Proof. split; reflexivity. Qed.

Lemma new_cuda_stream_run p w :
  faults (CallCudaStream p) = None →
  new_cuda_stream p w
  = (Ret {| cuda_stream := N.of_nat (next_handle w); priority := p |},
     set_next_handle (S (next_handle w)) (log (EvCall (CallCudaStream p)) w)).
Proof.
  intros H. unfold new_cuda_stream.
  rewrite (bind_ret _ _ _ _ _ (extcall_run _ _ H)). reflexivity.
Qed.

Section NoFaultsState.
Hypothesis no_faults : ∀ c, faults c = None.

Lemma new_BaguaGlobalState_completes s device_id w r ws lr ls :
  configured w r ws lr ls →
  ls ≠ 0 →
  obtainable s w r "bagua_inter_comm" 0 →
  obtainable s w r "bagua_intra_comm" (r `div` ls * ls) →
  obtainable s w r "bagua_global_comm" 0 →
  ∃ g w',
    new_BaguaGlobalState (Some s) device_id w = (Ret g, w') ∧
    topology g r ws ls ∧
    _global_state w' = _global_state w.
Proof.
  intros Hc Hls Hinter Hintra Hglobal. unfold new_BaguaGlobalState.
  rewrite (bind_ret _ _ _ _ _ (default_device_id_run device_id _ _ _ _ _ Hc)).
  rewrite (bind_ret _ _ _ _ _ (extcall_run _ _ (no_faults _))).
  rewrite (bind_ret _ _ _ _ _ (new_cuda_stream_run _ _ (no_faults _))).
  rewrite (bind_ret _ _ _ _ _ (extcall_run _ _ (no_faults _))).
  unfold get_autotune_server_addr. rewrite run_bind. cbn [gets].
  rewrite (bind_ret _ _ _ _ _ (extcall_run _ _ (no_faults _))).
  match goal with
  | |- context [(init_bagua_inter_communicator ?y _ _ _ ≫= _) ?x] =>
      set (w0 := x); set (strm := y)
  end.
  assert (rendezvous_frame s "" w w0) as Hfr0.
  { unfold w0.
    repeat (eapply frame_trans;
            [| first [apply frame_log | apply frame_set_next_handle]]).
    apply frame_refl. }
  assert (∀ ct root, obtainable s w r ct root → obtainable s w0 r ct root)
    as Hob0.
  { intros ct root [-> | (v & id & Hv & Hid)]; [left; reflexivity |].
    right. exists v, id. split; [| exact Hid].
    unfold w0.
    rewrite !store_contents_log, store_contents_set_next_handle,
      !store_contents_log.
    exact Hv. }
  pose proof (frame_configured _ _ _ _ _ _ _ _ Hfr0 Hc) as Hc0.
  destruct (init_bagua_inter_communicator_completes no_faults strm 0
              (Some s) s (Some (default lr device_id)) _ _ _ _ _
              eq_refl Hc0 Hls (Hob0 _ _ Hinter))
    as (id1 & w1 & Hrun1 & Hfr1).
  rewrite (bind_ret _ _ _ _ _ Hrun1).
  pose proof (frame_configured _ _ _ _ _ _ _ _ Hfr1 Hc0) as Hc1.
  destruct (init_bagua_intra_communicator_completes no_faults strm s
              (default lr device_id) _ _ _ _ _ Hc1 Hls
              (frame_obtainable _ _ _ _ _ _ _ Hfr1 (key_intra_inter _ _)
                 (Hob0 _ _ Hintra)))
    as (id2 & w2 & Hrun2 & Hfr2).
  rewrite (bind_ret _ _ _ _ _ Hrun2).
  pose proof (frame_configured _ _ _ _ _ _ _ _ Hfr2 Hc1) as Hc2.
  destruct (init_bagua_communicator_completes no_faults strm s
              (default lr device_id) _ _ _ _ _ Hc2
              (frame_obtainable _ _ _ _ _ _ _ Hfr2 (key_global_intra _ _)
                 (frame_obtainable _ _ _ _ _ _ _ Hfr1 (key_global_inter _ _)
                    (Hob0 _ _ Hglobal))))
    as (id3 & w3 & Hrun3 & Hfr3).
  rewrite (bind_ret _ _ _ _ _ Hrun3).
  eexists _, _. split; [reflexivity |]. split.
  - split; cbn; [| done | done].
    destruct (decide (r `mod` ls ≠ 0)) as [Hm | Hm]; [exact Hm |].
    apply dec_stable in Hm. done.
  - rewrite (frame_global_state _ _ _ _ Hfr3), (frame_global_state _ _ _ _ Hfr2),
      (frame_global_state _ _ _ _ Hfr1). apply Hfr0.
Qed.

Lemma init_process_group_completes init_method device_id s w r ws lr ls :
  _global_state w = None →
  chosen_store init_method ws = Some s →
  configured w r ws lr ls →
  ls ≠ 0 →
  obtainable s w r "bagua_inter_comm" 0 →
  obtainable s w r "bagua_intra_comm" (r `div` ls * ls) →
  obtainable s w r "bagua_global_comm" 0 →
  ∃ g w',
    init_process_group init_method device_id w = (Ret tt, w') ∧
    _global_state w' = Some g ∧
    topology g r ws ls.
Proof.
  intros Hnone Hs Hc Hls Hinter Hintra Hglobal.
  unfold init_process_group. rewrite run_bind.
  unfold is_initialized, gets. rewrite bool_decide_false by (rewrite Hnone; auto).
  unfold chosen_store in Hs.
  destruct (split init_method "://") as [| scheme rest] eqn:Hsplit;
    [discriminate |].
  rewrite run_bind. cbn [index lookup list_lookup mret M_ret].
  assert (∃ w0, choose_store scheme (scheme :: rest) w = (Ret s, w0) ∧
                rendezvous_frame s "" w w0 ∧
                (∀ ct root, obtainable s w r ct root →
                            obtainable s w0 r ct root))
    as (w0 & Hch & Hfr0 & Hob0).
  { unfold choose_store. destruct (bool_decide (scheme = "file")) eqn:Hfile.
    - destruct rest as [| path rest]; [discriminate |].
      injection Hs as <-.
      rewrite run_bind. cbn [index lookup list_lookup mret M_ret].
      rewrite (bind_ret _ _ _ _ _ (get_world_size_run _ _ _ _ _ Hc)).
      rewrite (bind_ret _ _ _ _ _ (extcall_run _ _ (no_faults _))).
      eexists. split; [reflexivity |]. split; [apply frame_log |].
      intros ct root [-> | (v & id & Hv & Hid)]; [left; reflexivity |].
      right. exists v, id. rewrite store_contents_log. done.
    - destruct (bool_decide (scheme = "dist")); [| discriminate].
      injection Hs as <-. rewrite run_bind. unfold gets.
      destruct (dist_is_initialized w) eqn:Hd.
      + rewrite run_bind. cbn [mret M_ret]. unfold _get_default_store.
        rewrite Hd. eexists. split; [reflexivity |].
        split; [apply frame_refl | done].
      + rewrite !run_bind, (extcall_run _ _ (no_faults _)).
        cbn [modify]. unfold _get_default_store. cbn.
        eexists. split; [reflexivity |]. split.
        * eapply frame_trans; [apply frame_log | apply frame_set_dist].
        * intros ct root [-> | (v & id & Hv & Hid)]; [left; reflexivity |].
          right. exists v, id. done. }
  assert (bool_decide (scheme ∉ ["dist"; "file"]) = false) as ->.
  { apply bool_decide_eq_false. intros Hn. apply Hn.
    destruct (bool_decide (scheme = "file")) eqn:Hfile.
    - apply bool_decide_eq_true in Hfile. subst. set_solver.
    - destruct (bool_decide (scheme = "dist")) eqn:Hdist; [| discriminate].
      apply bool_decide_eq_true in Hdist. subst. set_solver. }
  change (if bool_decide (scheme = "file") then _ else _)
    with (choose_store scheme (scheme :: rest)).
  rewrite (bind_ret _ _ _ _ _ Hch).
  destruct (new_BaguaGlobalState_completes s device_id w0 r ws lr ls
              (frame_configured _ _ _ _ _ _ _ _ Hfr0 Hc) Hls
              (Hob0 _ _ Hinter) (Hob0 _ _ Hintra) (Hob0 _ _ Hglobal))
    as (g & w1 & Hnew & Htopo & _).
  rewrite (bind_ret _ _ _ _ _ Hnew).
  exists g. eexists. split; [reflexivity |]. split; [| exact Htopo].
  destruct w1; reflexivity.
Qed.

End NoFaultsState.

(** ** The rendezvous, all processes *)

Lemma store_contents_with_stores s st w :
  store_contents s (with_stores st w) = shared_contents s st.
Proof. destruct s, w; reflexivity. Qed.

Lemma shared_contents_stores_of s w :
  shared_contents s (stores_of w) = store_contents s w.
Proof. destruct s; reflexivity. Qed.

Lemma rank_of_with_stores st w : rank_of (with_stores st w) = rank_of w.
Proof. destruct w; reflexivity. Qed.

Lemma store_handle_with_stores store st w :
  store_handle store (with_stores st w) = store_handle store w.
Proof. destruct w; reflexivity. Qed.

Lemma trace_with_stores st w : trace (with_stores st w) = trace w.
Proof. destruct w; reflexivity. Qed.

Lemma id_seed_with_stores st w : id_seed (with_stores st w) = id_seed w.
Proof. destruct w; reflexivity. Qed.

Lemma trace_published s key id w :
  trace (published s key id w)
  = trace w ++ [EvStoreSet s key (str_encode id)].
Proof. destruct s, w; reflexivity. Qed.

Lemma trace_generated w :
  trace (generated w)
  = trace w ++ [EvGenerateId (generate_nccl_unique_id_str (id_seed w))].
Proof. destruct w; reflexivity. Qed.

Section Rendezvous.
Context (comm_type : string) (root : Z) (store : option Store) (s : Store).
Context (ws : list World).

Let key := unique_id_key comm_type root.
Let f := gen_nccl_unique_id comm_type root store.

(** Every process reads its rank and reaches the store; no two processes
    carry the rank [root]. *)
Hypothesis ranks_readable : ∀ i w, ws !! i = Some w → ∃ r, rank_of w = inr r.
Hypothesis stores_reachable : ∀ i w, ws !! i = Some w → store_handle store w = Some s.
Hypothesis root_unique : ∀ i j wi wj,
  ws !! i = Some wi → ws !! j = Some wj →
  rank_of wi = inr root → rank_of wj = inr root → i = j.

Lemma rendezvous_inv_start st :
  shared_contents s st !! key = None →
  rendezvous_inv comm_type root s ws (start st ws).
Proof.
  intros Hk. exists None. split; [exact Hk |].
  unfold start. cbn. apply Forall2_fmap_r, Forall_Forall2_diag, Forall_forall.
  intros w _. split; done.
Qed.

Lemma rendezvous_inv_step c c' :
  rendezvous_inv comm_type root s ws c → attempt f c c' →
  rendezvous_inv comm_type root s ws c'.
Proof.
  intros (pub & Hpub & Hall) Hstep.
  destruct Hstep as [c i w r w' Hi Hrun Hnb | c i w k w' Hi Hrun];
    [| exists pub; done].
  destruct (Forall2_lookup_r _ _ _ _ _ Hall Hi) as (w0 & Hw0 & Hok).
  destruct Hok as [Hw Hroot]. cbn in Hw, Hroot. subst w.
  destruct (ranks_readable _ _ Hw0) as (rk & Hrk).
  pose proof (stores_reachable _ _ Hw0) as Hst.
  rewrite <- (store_handle_with_stores _ (cl_stores c)) in Hst.
  pose proof Hrk as Hrk'. rewrite <- (rank_of_with_stores (cl_stores c)) in Hrk'.
  destruct (decide (rk = root)) as [-> | Hne].
  - (* the root publishes *)
    rewrite (Hroot Hrk) in Hpub, Hall. clear Hroot.
    unfold f in Hrun.
    rewrite (gen_nccl_unique_id_leader _ _ _ _ _ Hst Hrk') in Hrun.
    injection Hrun as <- <-.
    exists (Some (generate_nccl_unique_id_str (id_seed w0))). cbn. split.
    + rewrite shared_contents_stores_of, store_contents_published.
      apply lookup_insert_eq.
    + apply Forall2_same_length_lookup_2.
      * rewrite length_insert. eapply Forall2_length, Hall.
      * intros j wj pj Hwj Hpj.
        destruct (decide (i = j)) as [<- | Hij].
        -- rewrite list_lookup_insert_eq in Hpj
             by (eapply lookup_lt_Some, Hi).
           injection Hpj as <-. rewrite Hw0 in Hwj. injection Hwj as <-.
           eexists. split; [reflexivity |]. split; [reflexivity |].
           rewrite decide_True by exact Hrk. split; [reflexivity |].
           cbn [fst]. rewrite trace_published, trace_generated.
           rewrite trace_with_stores, id_seed_with_stores, <- app_assoc.
           reflexivity.
        -- rewrite list_lookup_insert_ne in Hpj by exact Hij.
           pose proof (Forall2_lookup_lr _ _ _ _ _ _ Hall Hwj Hpj) as Hj.
           unfold process_ok in Hj |- *. cbn zeta in Hj |- *. destruct (pj.2).
           ++ destruct Hj as (id & Hid & _). discriminate Hid.
           ++ destruct Hj as [Hj _]. split; [exact Hj |].
              intros Hrj. destruct Hij.
              exact (root_unique _ _ _ _ Hw0 Hwj Hrk Hrj).
  - (* another rank reads *)
    destruct pub as [id |]; cbn in Hpub.
    + unfold f in Hrun.
      rewrite (gen_nccl_unique_id_follower _ _ _ _ _ _ (str_encode id) id
                 Hst Hrk' Hne) in Hrun.
      2: { rewrite store_contents_with_stores. exact Hpub. }
      2: { apply str_decode_encode. }
      injection Hrun as <- <-.
      exists (Some id). cbn. split.
      * rewrite shared_contents_stores_of, store_contents_log,
          store_contents_with_stores. exact Hpub.
      * apply Forall2_same_length_lookup_2.
        -- rewrite length_insert. eapply Forall2_length, Hall.
        -- intros j wj pj Hwj Hpj.
           destruct (decide (i = j)) as [<- | Hij].
           ++ rewrite list_lookup_insert_eq in Hpj
                by (eapply lookup_lt_Some, Hi).
              injection Hpj as <-. rewrite Hw0 in Hwj. injection Hwj as <-.
              exists id. split; [reflexivity |]. split; [reflexivity |].
              rewrite decide_False by (rewrite Hrk; congruence).
              cbn. rewrite ?trace_with_stores. reflexivity.
           ++ rewrite list_lookup_insert_ne in Hpj by exact Hij.
              exact (Forall2_lookup_lr _ _ _ _ _ _ Hall Hwj Hpj).
    + unfold f in Hrun.
      rewrite (gen_nccl_unique_id_blocked _ _ _ _ _ _ Hst Hrk' Hne) in Hrun.
      2: { rewrite store_contents_with_stores. exact Hpub. }
      injection Hrun as <- <-. destruct (Hnb _ eq_refl).
Qed.

Lemma rendezvous_inv_reachable st c :
  shared_contents s st !! key = None →
  rtc (attempt f) (start st ws) c → rendezvous_inv comm_type root s ws c.
Proof.
  intros Hk Hrtc. revert c Hrtc. apply rtc_ind_r.
  - apply rendezvous_inv_start, Hk.
  - intros c1 c2 _ Hstep IH.
    eapply rendezvous_inv_step; [exact IH | exact Hstep].
Qed.

(** Any two processes that have returned hold the same identifier, the
    one the store holds. *)
Lemma rendezvous_agreement c i wi ri :
  rendezvous_inv comm_type root s ws c →
  cl_procs c !! i = Some (wi, Some ri) →
  ∃ id,
    ri = Ret id ∧
    shared_contents s (cl_stores c) !! key = Some (str_encode id) ∧
    ∀ j wj rj, cl_procs c !! j = Some (wj, Some rj) → rj = Ret id.
Proof.
  intros (pub & Hpub & Hall) Hi.
  destruct (Forall2_lookup_r _ _ _ _ _ Hall Hi) as (w0 & _ & Hok).
  destruct Hok as (id & -> & -> & _). exists id.
  split; [reflexivity |]. split; [exact Hpub |].
  intros j wj rj Hj.
  destruct (Forall2_lookup_r _ _ _ _ _ Hall Hj) as (w1 & _ & Hok).
  destruct Hok as (id' & [= <-] & -> & _). reflexivity.
Qed.

(** Who generated: a process that has returned generated an identifier
    exactly when it carries the rank [root]. *)
Lemma rendezvous_generator c i w0 wi ri :
  rendezvous_inv comm_type root s ws c →
  ws !! i = Some w0 →
  cl_procs c !! i = Some (wi, Some ri) →
  ∃ id, ri = Ret id ∧
    if decide (rank_of w0 = inr root)
    then trace wi = trace w0 ++
           [EvGenerateId id; EvStoreSet s key (str_encode id)]
    else trace wi = trace w0 ++ [EvStoreGet s key (str_encode id)].
Proof.
  intros (pub & Hpub & Hall) Hw0 Hi.
  pose proof (Forall2_lookup_lr _ _ _ _ _ _ Hall Hw0 Hi) as Hok.
  destruct Hok as (id & -> & -> & Hok). exists id.
  split; [reflexivity |]. cbn in Hok.
  destruct (decide (rank_of w0 = inr root)); [apply Hok | exact Hok].
Qed.

(** Nobody waits for ever: the root's call returns whenever it is made,
    and once the identifier is in the store so does every other call. *)
Lemma rendezvous_progress c i w :
  rendezvous_inv comm_type root s ws c →
  cl_procs c !! i = Some (w, None) →
  rank_of w = inr root ∨
    is_Some (shared_contents s (cl_stores c) !! key) →
  ∃ id w', f (with_stores (cl_stores c) w) = (Ret id, w').
Proof.
  intros (pub & Hpub & Hall) Hi Hcan.
  destruct (Forall2_lookup_r _ _ _ _ _ Hall Hi) as (w0 & Hw0 & Hok).
  destruct Hok as [Hw Hroot]. cbn in Hw, Hroot. subst w.
  destruct (ranks_readable _ _ Hw0) as (rk & Hrk).
  pose proof (stores_reachable _ _ Hw0) as Hst.
  rewrite <- (store_handle_with_stores _ (cl_stores c)) in Hst.
  pose proof Hrk as Hrk'. rewrite <- (rank_of_with_stores (cl_stores c)) in Hrk'.
  destruct (decide (rk = root)) as [-> | Hne].
  - eexists _, _. apply (gen_nccl_unique_id_leader _ _ _ _ _ Hst Hrk').
  - destruct Hcan as [Hr | [v Hv]]; [congruence |].
    unfold key in Hv. rewrite Hpub in Hv. destruct pub as [id |]; [| discriminate].
    exists id. eexists.
    apply (gen_nccl_unique_id_follower _ _ _ _ _ _ (str_encode id) id
             Hst Hrk' Hne).
    + rewrite store_contents_with_stores. exact Hpub.
    + apply str_decode_encode.
Qed.

End Rendezvous.

(** ** Collectives: the pieces *)

Ltac world_simpl :=
  cbn [heap trace current_stream next_handle _global_state environ
       id_seed dist_is_initialized default_store file_stores
       log set_heap set_current_stream set_next_handle set_global_state
       rewritten prologue epilogue].

Lemma deref_run r w t : heap w !! r = Some t → deref r w = (Ret t, w).
Proof. intros H. unfold deref. rewrite H. reflexivity. Qed.

Lemma assert_cuda_run msg r w t :
  heap w !! r = Some t → device t ≠ cpu → assert_cuda msg r w = (Ret tt, w).
Proof.
  intros H Hd. unfold assert_cuda.
  rewrite (bind_ret _ _ _ _ _ (deref_run _ _ _ H)).
  rewrite bool_decide_true by exact Hd. reflexivity.
Qed.

Lemma assert_cuda_cpu msg r w t :
  heap w !! r = Some t → device t = cpu →
  assert_cuda msg r w = (Raise (AssertionError msg), w).
Proof.
  intros H Hd. unfold assert_cuda.
  rewrite (bind_ret _ _ _ _ _ (deref_run _ _ _ H)).
  rewrite bool_decide_false by (intros Hn; exact (Hn Hd)). reflexivity.
Qed.

Lemma for_each_assert_cuda_run msg tensors ts w :
  denote w tensors ts →
  Forall (λ t, device t ≠ cpu) ts →
  for_each tensors (assert_cuda msg) w = (Ret tt, w).
Proof.
  intros Hden. induction Hden as [| r t tensors ts Hr _ IH]; intros Hall.
  - reflexivity.
  - inversion Hall as [| ? ? Hd Hall']; subst. cbn [for_each].
    rewrite (bind_ret _ _ _ _ _ (assert_cuda_run _ _ _ _ Hr Hd)).
    apply IH, Hall'.
Qed.

Lemma for_each_assert_cuda_cpu msg tensors ts w :
  denote w tensors ts →
  Exists (λ t, device t = cpu) ts →
  for_each tensors (assert_cuda msg) w = (Raise (AssertionError msg), w).
Proof.
  intros Hden. induction Hden as [| r t tensors ts Hr _ IH]; intros Hex.
  - inversion Hex.
  - cbn [for_each]. destruct (decide (device t = cpu)) as [Hd | Hd].
    + rewrite (bind_raise _ _ _ _ _ (assert_cuda_cpu _ _ _ _ Hr Hd)).
      reflexivity.
    + rewrite (bind_ret _ _ _ _ _ (assert_cuda_run _ _ _ _ Hr Hd)).
      apply IH. inversion Hex; subst; [done | assumption].
Qed.

Lemma record_event_run w :
  record_event w
  = (Ret (next_handle w),
     log (EvRecord (cuda_stream (current_stream w)) (next_handle w))
       (set_next_handle (S (next_handle w)) w)).
Proof. reflexivity. Qed.

Lemma with_stream_run {A} s (body : M A) w r w' :
  body (set_current_stream s w) = (r, w') →
  with_stream s body w = (r, set_current_stream (current_stream w) w').
Proof. intros H. unfold with_stream. rewrite H. reflexivity. Qed.

(** Every collective has this shape around its body. *)
Lemma collective_run c (body : M unit) w w' :
  body (prologue c w) = (Ret tt, w') →
  (event ← record_event;
   wait_event (comm_cuda_stream c) event ;;
   with_stream (comm_cuda_stream c) body ;;
   synchronize) w
  = (Ret tt, epilogue w w').
Proof.
  intros H. rewrite (bind_ret _ _ _ _ _ (record_event_run w)).
  rewrite run_bind. unfold wait_event at 1. cbn [modify].
  rewrite (bind_ret _ _ _ _ _ (with_stream_run _ _ _ _ _ H)).
  reflexivity.
Qed.

Lemma collective_fails c (body : M unit) w r w' :
  body (prologue c w) = (r, w') →
  failed r →
  (event ← record_event;
   wait_event (comm_cuda_stream c) event ;;
   with_stream (comm_cuda_stream c) body ;;
   synchronize) w
  = (r, set_current_stream (current_stream w) w').
Proof.
  intros H Hr. rewrite (bind_ret _ _ _ _ _ (record_event_run w)).
  rewrite run_bind. unfold wait_event at 1. cbn [modify].
  rewrite run_bind, (with_stream_run _ _ _ _ _ H).
  destruct r; [destruct Hr | reflexivity | reflexivity].
Qed.

Lemma new_BaguaTensorPy_run r w t dt :
  heap w !! r = Some t →
  to_bagua_datatype (tensor_dtype t) = inr dt →
  new_BaguaTensorPy r w = (Ret (descriptor r t dt), w).
Proof.
  intros H Hdt. unfold new_BaguaTensorPy.
  rewrite (bind_ret _ _ _ _ _ (deref_run _ _ _ H)).
  rewrite Hdt. reflexivity.
Qed.

Lemma transport_run c k f r t dt w :
  heap w !! r = Some t →
  transport c k f (descriptor r t dt) w
  = (Ret tt, rewritten (stream_ptr c) k r t (f (data t)) w).
Proof.
  intros H. unfold transport. cbn [ptr num_elem descriptor].
  rewrite (bind_ret _ _ _ _ _ (deref_run _ _ _ H)).
  unfold numel. rewrite firstn_all, drop_all, app_nil_r. reflexivity.
Qed.

Lemma idiv_run r n t w :
  heap w !! r = Some t →
  idiv r n w
  = (Ret tt,
     rewritten (cuda_stream (current_stream w)) (KDiv r n) r t
       (divided n (data t)) w).
Proof.
  intros H. unfold idiv.
  rewrite (bind_ret _ _ _ _ _ (deref_run _ _ _ H)). reflexivity.
Qed.

Lemma default_comm_some c w : default_comm (Some c) w = (Ret c, w).
Proof. reflexivity. Qed.


Lemma default_comm_uninitialized w :
  _global_state w = None →
  ∃ msg, default_comm None w = (Raise (AttributeError msg), w).
Proof.
  intros H. unfold default_comm, _get_global_state.
  rewrite run_bind. unfold gets. rewrite H. eexists. reflexivity.
Qed.

(** The communicator a call works with. *)
Lemma default_comm_inv comm w c w' :
  default_comm comm w = (Ret c, w') →
  w' = w ∧
  match comm with
  | Some c' => c = c'
  | None => ∃ g, _global_state w = Some g ∧ c = global_communicator g
  end.
Proof.
  destruct comm as [c' |].
  - intros [= <- <-]. done.
  - unfold default_comm, _get_global_state. rewrite run_bind. unfold gets.
    destruct (_global_state w) as [g |]; [| discriminate].
    intros [= <- <-]. eauto.
Qed.

(** ** Single-tensor collectives *)

Lemma heap_rewritten on k r t d w :
  heap (rewritten on k r t d w) = <[r := with_data t d]> (heap w).
Proof. reflexivity. Qed.

Lemma allreduce_body_run tensor c (average : bool) t dt w :
  heap w !! tensor = Some t →
  to_bagua_datatype (tensor_dtype t) = inr dt →
  (b_tensor ← new_BaguaTensorPy tensor;
   comm_do_allreduce c b_tensor ;;
   (if average then idiv tensor (nranks c) else mret tt)) w
  = (Ret tt,
     let w1 := rewritten (stream_ptr c)
                 (KAllreduce c (descriptor tensor t dt)) tensor t
                 (comm_allreduce c (data t)) w in
     if average
     then rewritten (cuda_stream (current_stream w))
            (KDiv tensor (nranks c)) tensor
            (with_data t (comm_allreduce c (data t)))
            (divided (nranks c) (comm_allreduce c (data t))) w1
     else w1).
Proof.
  intros Ht Hdt.
  rewrite (bind_ret _ _ _ _ _ (new_BaguaTensorPy_run _ _ _ _ Ht Hdt)).
  unfold comm_do_allreduce.
  rewrite (bind_ret _ _ _ _ _ (transport_run _ _ _ _ _ _ _ Ht)).
  destruct average; [| reflexivity].
  rewrite (idiv_run _ _ (with_data t (comm_allreduce c (data t))))
    by (rewrite heap_rewritten; apply lookup_insert_eq).
  reflexivity.
Qed.

Lemma allreduce_run tensor comm c (average : bool) t dt w :
  heap w !! tensor = Some t →
  device t ≠ cpu →
  default_comm comm w = (Ret c, w) →
  to_bagua_datatype (tensor_dtype t) = inr dt →
  ∃ w',
    allreduce tensor comm average w = (Ret tt, w') ∧
    collective_effect w w' tensor t (reduced c average (data t))
      (entry_events c w
       ++ allreduce_events c average (descriptor tensor t dt)
       ++ [EvSynchronize]).
Proof.
  intros Ht Hd Hc Hdt. unfold allreduce.
  rewrite (bind_ret _ _ _ _ _ (assert_cuda_run _ _ _ _ Ht Hd)).
  rewrite (bind_ret _ _ _ _ _ Hc).
  erewrite collective_run
    by (apply (allreduce_body_run _ _ _ t dt); [exact Ht | exact Hdt]).
  eexists. split; [reflexivity |].
  unfold reduced, allreduce_events, entry_events.
  destruct average; split; world_simpl; cbn [ptr descriptor];
    rewrite ?insert_insert_eq, <- ?app_assoc; reflexivity.
Qed.

Lemma broadcast_run tensor root comm c t dt w :
  heap w !! tensor = Some t →
  device t ≠ cpu →
  default_comm comm w = (Ret c, w) →
  to_bagua_datatype (tensor_dtype t) = inr dt →
  ∃ w',
    broadcast tensor root comm w = (Ret tt, w') ∧
    collective_effect w w' tensor t (comm_broadcast c root (data t))
      (entry_events c w
       ++ broadcast_events c root (descriptor tensor t dt)
       ++ [EvSynchronize]).
Proof.
  intros Ht Hd Hc Hdt. unfold broadcast.
  rewrite (bind_ret _ _ _ _ _ (assert_cuda_run _ _ _ _ Ht Hd)).
  rewrite (bind_ret _ _ _ _ _ Hc).
  erewrite collective_run.
  2: { rewrite (bind_ret _ _ _ _ _
                  (new_BaguaTensorPy_run tensor (prologue c w) t dt Ht Hdt)).
       unfold comm_do_broadcast. apply transport_run. exact Ht. }
  eexists. split; [reflexivity |].
  unfold broadcast_events, entry_events.
  split; world_simpl; rewrite <- ?app_assoc; reflexivity.
Qed.

(** ** Flattening and views *)

Lemma mapM_deref_run w tensors ts :
  denote w tensors ts → mapM deref tensors w = (Ret ts, w).
Proof.
  intros H. induction H as [| r t tensors ts Hr _ IH]; [reflexivity |].
  cbn [mapM]. rewrite (bind_ret _ _ _ _ _ (deref_run _ _ _ Hr)).
  rewrite (bind_ret _ _ _ _ _ IH). reflexivity.
Qed.

Lemma flat_ptr_fresh w : heap w !! flat_ptr w = None.
Proof.
  unfold flat_ptr. apply (not_elem_of_dom (D := gset nat)).
  apply (is_fresh (dom (heap w))).
Qed.

Lemma denote_ne_flat_ptr w tensors ts :
  denote w tensors ts → Forall (λ r, r ≠ flat_ptr w) tensors.
Proof.
  intros H. induction H as [| r t tensors ts Hr _ IH]; constructor; [| exact IH].
  intros ->. rewrite flat_ptr_fresh in Hr. discriminate.
Qed.

Lemma denote_insert w tensors ts p x h :
  denote w tensors ts → Forall (λ r, r ≠ p) tensors →
  h = <[p := x]> (heap w) →
  Forall2 (λ r t, h !! r = Some t) tensors ts.
Proof.
  intros H Hne ->. induction H as [| r t tensors ts Hr _ IH]; constructor.
  - inversion Hne; subst. rewrite lookup_insert_ne by congruence. exact Hr.
  - apply IH. inversion Hne; assumption.
Qed.

Lemma flatten_run tensors ts flat w :
  denote w tensors ts →
  flatten_tensors ts = inr flat →
  flatten tensors w = (Ret (flat_ptr w), allocated tensors flat w).
Proof.
  intros Hden Hflat. unfold flatten.
  rewrite (bind_ret _ _ _ _ _ (mapM_deref_run _ _ _ Hden)).
  rewrite Hflat. reflexivity.
Qed.

Lemma unflatten_run p tensors ts w :
  denote w tensors ts →
  unflatten p tensors w = (Ret (views_of p 0 ts), w).
Proof.
  intros Hden. unfold unflatten.
  rewrite (bind_ret _ _ _ _ _ (mapM_deref_run _ _ _ Hden)). reflexivity.
Qed.


Lemma flatten_tensors_inv ts flat :
  flatten_tensors ts = inr flat →
  data flat = concat (data <$> ts) ∧
  Forall (λ t, tensor_dtype t = tensor_dtype flat) ts ∧
  ts ≠ [].
Proof.
  unfold flatten_tensors. destruct ts as [| t0 ts0]; [discriminate |].
  destruct (forallb _ _) eqn:Hall; [| discriminate].
  intros [= <-]. split; [reflexivity |]. split; [| discriminate].
  apply Is_true_true_2, forallb_True in Hall. cbn [tensor_dtype].
  eapply Forall_impl; [| exact Hall].
  intros t Ht. cbn in Ht. apply bool_decide_unpack in Ht. exact Ht.
Qed.



(** ** The scatter loop *)

Lemma read_view_run flat v w :
  heap w !! view_base v = Some flat →
  read_view v w = (Ret (view_tensor flat v), w).
Proof.
  intros H. unfold read_view.
  rewrite (bind_ret _ _ _ _ _ (deref_run _ _ _ H)). reflexivity.
Qed.

Lemma copy_run flat b v dst w :
  heap w !! view_base v = Some flat →
  heap w !! b = Some dst →
  copy_ b v w
  = (Ret tt,
     set_heap (scatter_step flat (heap w) (b, v))
       (log (EvLaunch (cuda_stream (current_stream w)) (KCopy b v)) w)).
Proof.
  intros Hflat Hb. unfold copy_.
  rewrite (bind_ret _ _ _ _ _ (read_view_run _ _ _ Hflat)).
  rewrite (bind_ret _ _ _ _ _ (deref_run _ _ _ Hb)).
  unfold scatter_step. cbn [fst snd]. rewrite Hb. reflexivity.
Qed.

Lemma scatter_step_lookup_ne flat h bv r :
  r ≠ bv.1 → scatter_step flat h bv !! r = h !! r.
Proof.
  intros Hne. unfold scatter_step. destruct (h !! bv.1); [| reflexivity].
  apply lookup_insert_ne. congruence.
Qed.

Lemma scatter_step_is_Some flat h bv r :
  is_Some (h !! r) → is_Some (scatter_step flat h bv !! r).
Proof.
  intros Hr. unfold scatter_step. destruct (h !! bv.1) eqn:Hb; [| exact Hr].
  destruct (decide (bv.1 = r)) as [<- | Hne].
  - rewrite lookup_insert_eq. eauto.
  - rewrite lookup_insert_ne by exact Hne. exact Hr.
Qed.

Lemma copy_loop_run flat p bvs w :
  heap w !! p = Some flat →
  Forall (λ bv, view_base bv.2 = p ∧ bv.1 ≠ p ∧ is_Some (heap w !! bv.1)) bvs →
  for_each bvs (λ '(buf, synced), copy_ buf synced) w
  = (Ret tt, copied flat bvs w).
Proof.
  revert w. induction bvs as [| [b v] bvs IH]; intros w Hp Hall;
    [reflexivity |].
  inversion Hall as [| ? ? (Hbase & Hne & [dst Hb]) Hall']; subst.
  cbn [for_each copied fst snd] in *.
  rewrite (bind_ret _ _ _ _ _ (copy_run flat b v dst w Hp Hb)).
  apply IH.
  - cbn [heap set_heap]. rewrite scatter_step_lookup_ne by exact (not_eq_sym Hne).
    exact Hp.
  - eapply Forall_impl; [| exact Hall'].
    intros [b' v'] (? & ? & ?). cbn [heap set_heap fst snd] in *.
    split; [assumption |]. split; [assumption |].
    apply scatter_step_is_Some. assumption.
Qed.

Lemma heap_copied flat bvs w :
  heap (copied flat bvs w) = scatter flat (heap w) bvs.
Proof.
  revert w. induction bvs as [| bv bvs IH]; intros w; [reflexivity |].
  cbn [copied]. rewrite IH. reflexivity.
Qed.

Lemma current_stream_copied flat bvs w :
  current_stream (copied flat bvs w) = current_stream w.
Proof.
  revert w. induction bvs as [| bv bvs IH]; intros w; [reflexivity |].
  cbn [copied]. rewrite IH. reflexivity.
Qed.

Lemma global_state_copied flat bvs w :
  _global_state (copied flat bvs w) = _global_state w.
Proof.
  revert w. induction bvs as [| bv bvs IH]; intros w; [reflexivity |].
  cbn [copied]. rewrite IH. reflexivity.
Qed.

Lemma trace_copied flat bvs w :
  trace (copied flat bvs w)
  = trace w ++ copy_events (cuda_stream (current_stream w)) bvs.
Proof.
  revert w. induction bvs as [| bv bvs IH]; intros w.
  - cbn. rewrite app_nil_r. reflexivity.
  - cbn [copied]. rewrite IH. cbn. rewrite <- app_assoc. reflexivity.
Qed.

Lemma scatter_lookup_other flat h bvs r :
  r ∉ bvs.*1 → scatter flat h bvs !! r = h !! r.
Proof.
  revert h. induction bvs as [| bv bvs IH]; intros h Hr; [reflexivity |].
  cbn [fmap list_fmap] in Hr. apply not_elem_of_cons in Hr as [Hne Hr].
  unfold scatter. cbn [foldl]. fold (scatter flat (scatter_step flat h bv) bvs).
  rewrite IH by exact Hr. apply scatter_step_lookup_ne, Hne.
Qed.

(** Distinct buffers each end up with what their own view shows. *)
Lemma scatter_lookup flat h bvs i b v dst :
  NoDup bvs.*1 →
  bvs !! i = Some (b, v) →
  h !! b = Some dst →
  scatter flat h bvs !! b
  = Some (with_data dst (data (view_tensor flat v))).
Proof.
  revert h i. induction bvs as [| bv bvs IH]; intros h i Hnd Hi Hb;
    [discriminate |].
  cbn [fmap list_fmap] in Hnd. apply list.NoDup_cons in Hnd as [Hnotin Hnd].
  unfold scatter. cbn [foldl]. fold (scatter flat (scatter_step flat h bv) bvs).
  destruct i as [| i].
  - injection Hi as ->. cbn [fst] in Hnotin.
    rewrite scatter_lookup_other by exact Hnotin.
    unfold scatter_step. cbn [fst snd]. rewrite Hb. apply lookup_insert_eq.
  - cbn in Hi. apply (IH _ i Hnd Hi).
    rewrite scatter_step_lookup_ne; [exact Hb |].
    intros ->. apply Hnotin. apply list_elem_of_fmap.
    exists (bv.1, v). split; [reflexivity |]. eapply list_elem_of_lookup_2, Hi.
Qed.

(** ** Coalesced collectives *)

Lemma views_of_base p o ts :
  Forall (λ v, view_base v = p) (views_of p o ts).
Proof.
  revert o. induction ts as [| t ts IH]; intros o; constructor;
    [reflexivity | apply IH].
Qed.

Lemma scatter_tail_run tensors ts p flat w :
  heap w !! p = Some flat →
  Forall2 (λ r t, heap w !! r = Some t) tensors ts →
  Forall (λ r, r ≠ p) tensors →
  (views ← unflatten p tensors;
   for_each (zip tensors views) (λ '(buf, synced), copy_ buf synced)) w
  = (Ret tt, copied flat (zip tensors (views_of p 0 ts)) w).
Proof.
  intros Hp Hden Hne.
  rewrite (bind_ret _ _ _ _ _ (unflatten_run p _ _ _ Hden)).
  apply (copy_loop_run flat p); [exact Hp |].
  apply list.Forall_forall. intros [b v] Hin.
  apply elem_of_zip_l in Hin as Hb. apply elem_of_zip_r in Hin as Hv.
  cbn [fst snd] in *. split; [| split].
  - exact (proj1 (list.Forall_forall _ _) (views_of_base p 0 ts) _ Hv).
  - exact (proj1 (list.Forall_forall _ _) Hne _ Hb).
  - apply list_elem_of_lookup in Hb as [i Hi].
    destruct (Forall2_lookup_l _ _ _ _ _ Hden Hi) as (t & _ & Ht). eauto.
Qed.

Lemma allreduce_coalesced_run tensors comm c (average : bool) ts flat dt w :
  denote w tensors ts →
  Forall (λ t, device t ≠ cpu) ts →
  default_comm comm w = (Ret c, w) →
  flatten_tensors ts = inr flat →
  to_bagua_datatype (tensor_dtype flat) = inr dt →
  ∃ w',
    allreduce_coalesced tensors comm average w = (Ret tt, w') ∧
    coalesced_effect w w' tensors flat (reduced c average (data flat))
      (views_of (flat_ptr w) 0 ts)
      (entry_events c w
       ++ [EvLaunch (cuda_stream (comm_cuda_stream c))
             (KCat tensors (flat_ptr w))]
       ++ allreduce_events c average (descriptor (flat_ptr w) flat dt)
       ++ copy_events (cuda_stream (comm_cuda_stream c))
            (zip tensors (views_of (flat_ptr w) 0 ts))
       ++ [EvSynchronize]).
Proof.
  intros Hden Hdev Hc Hflat Hdt. unfold allreduce_coalesced.
  rewrite (bind_ret _ _ _ _ _ (for_each_assert_cuda_run _ _ _ _ Hden Hdev)).
  rewrite (bind_ret _ _ _ _ _ Hc).
  pose proof (denote_ne_flat_ptr _ _ _ Hden) as Hne.
  set (p := flat_ptr w) in *.
  set (d := reduced c average (data flat)).
  assert (∃ w1,
    (coalesced ← flatten tensors;
     b_coalesced ← new_BaguaTensorPy coalesced;
     comm_do_allreduce c b_coalesced ;;
     (if average then idiv coalesced (nranks c) else mret tt)) (prologue c w)
    = (Ret tt, w1) ∧
    heap w1 = <[p := with_data flat d]> (heap w) ∧
    trace w1 = trace (prologue c w)
               ++ [EvLaunch (cuda_stream (comm_cuda_stream c)) (KCat tensors p)]
               ++ allreduce_events c average (descriptor p flat dt) ∧
    current_stream w1 = comm_cuda_stream c ∧
    _global_state w1 = _global_state w) as (w1 & Hrun & Hheap & Htrace & Hcur & Hgs).
  { rewrite (bind_ret _ _ _ _ _
               (flatten_run tensors ts flat (prologue c w) Hden Hflat)).
    change (flat_ptr (prologue c w)) with p.
    assert (heap (allocated tensors flat (prologue c w)) !! p = Some flat) as Hp
      by apply lookup_insert_eq.
    rewrite (bind_ret _ _ _ _ _ (new_BaguaTensorPy_run _ _ _ _ Hp Hdt)).
    unfold comm_do_allreduce.
    rewrite (bind_ret _ _ _ _ _ (transport_run _ _ _ _ _ _ _ Hp)).
    unfold d, reduced, allreduce_events. destruct average.
    - rewrite (idiv_run _ _ (with_data flat (comm_allreduce c (data flat))))
        by (rewrite heap_rewritten; apply lookup_insert_eq).
      eexists. split; [reflexivity |].
      unfold allocated. world_simpl. cbn [ptr descriptor].
      rewrite !insert_insert_eq, <- !app_assoc. done.
    - eexists. split; [reflexivity |].
      unfold allocated. world_simpl.
      rewrite !insert_insert_eq, <- !app_assoc. done. }
  assert ((coalesced ← flatten tensors;
           b_coalesced ← new_BaguaTensorPy coalesced;
           comm_do_allreduce c b_coalesced ;;
           (if average then idiv coalesced (nranks c) else mret tt) ;;
           views ← unflatten coalesced tensors;
           for_each (zip tensors views) (λ '(buf, synced), copy_ buf synced))
            (prologue c w)
          = (Ret tt, copied (with_data flat d)
                       (zip tensors (views_of p 0 ts)) w1)) as Hbody.
  { rewrite (bind_ret _ _ _ _ _
               (flatten_run tensors ts flat (prologue c w) Hden Hflat)).
    change (flat_ptr (prologue c w)) with p.
    rewrite (bind_ret _ _ _ _ _
               (flatten_run tensors ts flat (prologue c w) Hden Hflat)) in Hrun.
    change (flat_ptr (prologue c w)) with p in Hrun.
    apply bind_inv in Hrun as [(b & w2 & Hb & Hrun) | [[] _]].
    rewrite (bind_ret _ _ _ _ _ Hb).
    apply bind_inv in Hrun as [([] & w3 & Hall & Hrun) | [[] _]].
    rewrite (bind_ret _ _ _ _ _ Hall).
    rewrite (bind_ret _ _ _ _ _ Hrun).
    apply (scatter_tail_run tensors ts p).
    - rewrite Hheap. apply lookup_insert_eq.
    - eapply denote_insert; [exact Hden | exact Hne | exact Hheap].
    - exact Hne. }
  rewrite (collective_run _ _ _ _ Hbody).
  eexists. split; [reflexivity |]. split.
  - unfold epilogue. world_simpl. rewrite heap_copied, Hheap. reflexivity.
  - unfold epilogue. world_simpl. rewrite trace_copied, Htrace, Hcur.
    unfold entry_events. world_simpl. rewrite <- !app_assoc. reflexivity.
  - reflexivity.
  - unfold epilogue. world_simpl. rewrite global_state_copied. exact Hgs.
Qed.

Lemma broadcast_coalesced_run tensors root comm c ts flat dt w :
  denote w tensors ts →
  Forall (λ t, device t ≠ cpu) ts →
  default_comm comm w = (Ret c, w) →
  flatten_tensors ts = inr flat →
  to_bagua_datatype (tensor_dtype flat) = inr dt →
  ∃ w',
    broadcast_coalesced tensors root comm w = (Ret tt, w') ∧
    coalesced_effect w w' tensors flat (comm_broadcast c root (data flat))
      (views_of (flat_ptr w) 0 ts)
      (entry_events c w
       ++ [EvLaunch (cuda_stream (comm_cuda_stream c))
             (KCat tensors (flat_ptr w))]
       ++ broadcast_events c root (descriptor (flat_ptr w) flat dt)
       ++ copy_events (cuda_stream (comm_cuda_stream c))
            (zip tensors (views_of (flat_ptr w) 0 ts))
       ++ [EvSynchronize]).
Proof.
  intros Hden Hdev Hc Hflat Hdt. unfold broadcast_coalesced.
  rewrite (bind_ret _ _ _ _ _ (for_each_assert_cuda_run _ _ _ _ Hden Hdev)).
  rewrite (bind_ret _ _ _ _ _ Hc).
  pose proof (denote_ne_flat_ptr _ _ _ Hden) as Hne.
  set (p := flat_ptr w) in *.
  set (d := comm_broadcast c root (data flat)).
  set (w1 := rewritten (stream_ptr c)
               (KBroadcast c (descriptor p flat dt) root) p flat d
               (allocated tensors flat (prologue c w))).
  assert (heap w1 = <[p := with_data flat d]> (heap w)) as Hheap.
  { unfold w1, allocated. world_simpl.
    change (flat_ptr (prologue c w)) with p. apply insert_insert_eq. }
  assert ((coalesced ← flatten tensors;
           b_coalesced ← new_BaguaTensorPy coalesced;
           comm_do_broadcast c b_coalesced root ;;
           views ← unflatten coalesced tensors;
           for_each (zip tensors views) (λ '(buf, synced), copy_ buf synced))
            (prologue c w)
          = (Ret tt, copied (with_data flat d)
                       (zip tensors (views_of p 0 ts)) w1)) as Hbody.
  { rewrite (bind_ret _ _ _ _ _
               (flatten_run tensors ts flat (prologue c w) Hden Hflat)).
    change (flat_ptr (prologue c w)) with p.
    assert (heap (allocated tensors flat (prologue c w)) !! p = Some flat) as Hp
      by apply lookup_insert_eq.
    rewrite (bind_ret _ _ _ _ _ (new_BaguaTensorPy_run _ _ _ _ Hp Hdt)).
    unfold comm_do_broadcast.
    rewrite (bind_ret _ _ _ _ _ (transport_run _ _ _ _ _ _ _ Hp)).
    apply (scatter_tail_run tensors ts p).
    - fold d. fold w1. rewrite Hheap. apply lookup_insert_eq.
    - eapply denote_insert; [exact Hden | exact Hne | exact Hheap].
    - exact Hne. }
  rewrite (collective_run _ _ _ _ Hbody).
  eexists. split; [reflexivity |]. split.
  - unfold epilogue. world_simpl. rewrite heap_copied, Hheap. reflexivity.
  - unfold epilogue. world_simpl. rewrite trace_copied.
    unfold w1, allocated, entry_events, broadcast_events. world_simpl.
    rewrite <- !app_assoc. reflexivity.
  - reflexivity.
  - unfold epilogue. world_simpl. rewrite global_state_copied. reflexivity.
Qed.

(** ** Rejection of host tensors *)

Lemma allreduce_cpu tensor comm average t w :
  heap w !! tensor = Some t → device t = cpu →
  allreduce tensor comm average w
  = (Raise (AssertionError "input tensor must be CUDA and dense"), w).
Proof.
  intros Ht Hd. unfold allreduce.
  rewrite (bind_raise _ _ _ _ _ (assert_cuda_cpu _ _ _ _ Ht Hd)). reflexivity.
Qed.

Lemma broadcast_cpu tensor root comm t w :
  heap w !! tensor = Some t → device t = cpu →
  broadcast tensor root comm w
  = (Raise (AssertionError "input tensor must be CUDA and dense"), w).
Proof.
  intros Ht Hd. unfold broadcast.
  rewrite (bind_raise _ _ _ _ _ (assert_cuda_cpu _ _ _ _ Ht Hd)). reflexivity.
Qed.

Lemma allreduce_coalesced_cpu tensors comm average ts w :
  denote w tensors ts → Exists (λ t, device t = cpu) ts →
  allreduce_coalesced tensors comm average w
  = (Raise (AssertionError "input tensors must be CUDA and dense"), w).
Proof.
  intros Hden Hex. unfold allreduce_coalesced.
  rewrite (bind_raise _ _ _ _ _ (for_each_assert_cuda_cpu _ _ _ _ Hden Hex)).
  reflexivity.
Qed.

Lemma broadcast_coalesced_cpu tensors root comm ts w :
  denote w tensors ts → Exists (λ t, device t = cpu) ts →
  broadcast_coalesced tensors root comm w
  = (Raise (AssertionError "input tensors must be CUDA and dense"), w).
Proof.
  intros Hden Hex. unfold broadcast_coalesced.
  rewrite (bind_raise _ _ _ _ _ (for_each_assert_cuda_cpu _ _ _ _ Hden Hex)).
  reflexivity.
Qed.

(** ** Stream order *)

Lemma bound_communicator_of r n d s id : bound (communicator_of r n d s id).
Proof. reflexivity. Qed.








(** ** The communicators of an initialised process *)

Lemma bind_ret_inv {A B} (m : M A) (k : A → M B) w b w' :
  (m ≫= k) w = (Ret b, w') →
  ∃ a w1, m w = (Ret a, w1) ∧ k a w1 = (Ret b, w').
Proof. intros H. apply bind_inv in H as [? | [[] _]]. assumption. Qed.

Ltac bind_ret_inv H :=
  let a := fresh "a" in
  let w := fresh "w" in
  let H1 := fresh "Hstep" in
  apply bind_ret_inv in H as (a & w & H1 & H).






(** ** The round trip through the flat buffer *)



Lemma length_views_of p o ts : length (views_of p o ts) = length ts.
Proof.
  revert o. induction ts as [| t ts IH]; intros o; [reflexivity |].
  cbn. rewrite IH. reflexivity.
Qed.

(** After a coalesced collective, distinct tensors each hold what their own
    view shows of the flat buffer the transport worked on. *)
Lemma coalesced_effect_lookup w w' tensors ts flat d evs i r t v :
  coalesced_effect w w' tensors flat d (views_of (flat_ptr w) 0 ts) evs →
  denote w tensors ts →
  NoDup tensors →
  tensors !! i = Some r →
  ts !! i = Some t →
  views_of (flat_ptr w) 0 ts !! i = Some v →
  heap w' !! r
  = Some (with_data t (take (view_numel v) (drop (view_offset v) d))).
Proof.
  intros [Hheap _ _ _] Hden Hnd Hr Ht Hv. rewrite Hheap.
  assert (length tensors = length ts) as Hlen by (eapply Forall2_length, Hden).
  rewrite (scatter_lookup _ _ _ i r v t).
  - reflexivity.
  - rewrite fst_zip; [exact Hnd |]. rewrite length_views_of. lia.
  - apply lookup_zip_with_Some. eauto.
  - rewrite lookup_insert_ne.
    + exact (Forall2_lookup_lr _ _ _ _ _ _ Hden Hr Ht).
    + pose proof (denote_ne_flat_ptr _ _ _ Hden) as Hne.
      intros Heq. eapply (proj1 (list.Forall_forall _ _) Hne r).
      * eapply list_elem_of_lookup_2, Hr.
      * symmetry. exact Heq.
Qed.

(** ** All-reduce over a group *)

Lemma averaged_reduced c average n d total :
  nranks c = Z.of_nat n →
  comm_allreduce c d = total →
  reduced c average d = averaged average n total.
Proof. intros Hn <-. unfold reduced, averaged. rewrite Hn. reflexivity. Qed.

Lemma m_data_insert h r t d (w : World) :
  heap w = <[r := with_data t d]> h → m_data w r = d.
Proof. intros H. unfold m_data. rewrite H, lookup_insert_eq. reflexivity. Qed.


Lemma cm_flat_data m ts flat :
  denote (cm_world m) (cm_tensors m) ts →
  flatten_tensors ts = inr flat →
  cm_flat m = data flat.
Proof.
  intros Hden Hflat. apply flatten_tensors_inv in Hflat as (-> & _ & _).
  unfold cm_flat. f_equal.
  induction Hden as [| r t tensors ts Hr _ IH]; [reflexivity |].
  cbn. rewrite IH. unfold m_data at 1. rewrite Hr. reflexivity.
Qed.

Lemma allreduce_coalesced_group add (group : list cmember) (average : bool) :
  (∀ r m, group !! r = Some m →
          ∃ c ts flat, cjoined (length group) r m c ts flat) →
  sum_reduction add (cm_flat <$> group) →
  ∀ r m,
    group !! r = Some m →
    ∃ w' ts flat evs,
      denote (cm_world m) (cm_tensors m) ts ∧
      flatten_tensors ts = inr flat ∧
      allreduce_coalesced (cm_tensors m) (cm_comm m) average (cm_world m)
      = (Ret tt, w') ∧
      coalesced_effect (cm_world m) w' (cm_tensors m) flat
        (averaged average (length group)
           (elementwise add (cm_flat <$> group)))
        (views_of (flat_ptr (cm_world m)) 0 ts) evs.
Proof.
  intros Hjoin Hsum r m Hm.
  destruct (Hjoin r m Hm)
    as (c & ts & flat & Hden & Hdev & Hflat & [dt Hdt] & Hc & Hrk & Hn).
  destruct (allreduce_coalesced_run _ _ _ average _ _ _ _
              Hden Hdev Hc Hflat Hdt) as (w' & Hrun & Heff).
  exists w', ts, flat. eexists.
  split; [exact Hden |]. split; [exact Hflat |]. split; [exact Hrun |].
  replace (elementwise add (cm_flat <$> group))
    with (comm_allreduce c (data flat)).
  { rewrite <- (averaged_reduced c average _ (data flat) _ Hn eq_refl).
    exact Heff. }
  apply (Hsum r); [| exact Hrk | rewrite length_fmap; exact Hn].
  rewrite list_lookup_fmap, Hm. cbn. f_equal.
  apply (cm_flat_data _ _ _ Hden Hflat).
Qed.

(** ** What a returned rendezvous says of the store *)

Lemma gen_nccl_unique_id_returns comm_type root store s w r id w1 :
  store_handle store w = Some s →
  rank_of w = inr r →
  gen_nccl_unique_id comm_type root store w = (Ret id, w1) →
  (r = root ∧
   id = generate_nccl_unique_id_str (id_seed w) ∧
   w1 = published s (unique_id_key comm_type root) id (generated w)) ∨
  (r ≠ root ∧
   ∃ v, store_contents s w !! unique_id_key comm_type root = Some v ∧
        str_decode v = Some id ∧
        w1 = log (EvStoreGet s (unique_id_key comm_type root) v) w).
Proof.
  intros Hs Hr Hrun. destruct (decide (r = root)) as [-> | Hne].
  - left. rewrite (gen_nccl_unique_id_leader _ _ _ _ _ Hs Hr) in Hrun.
    injection Hrun as <- <-. done.
  - right. split; [exact Hne |].
    destruct (store_contents s w !! unique_id_key comm_type root)
      as [v |] eqn:Hv.
    + exists v. split; [reflexivity |].
      destruct (str_decode v) as [id' |] eqn:Hid.
      * rewrite (gen_nccl_unique_id_follower _ _ _ _ _ _ _ _
                   Hs Hr Hne Hv Hid) in Hrun.
        injection Hrun as <- <-. done.
      * unfold gen_nccl_unique_id in Hrun.
        rewrite (bind_ret _ _ _ _ _ (store_handle_run _ _ _ Hs)) in Hrun.
        rewrite (bind_ret _ _ _ _ _ (getenv_int_run _ _ _ _ Hr)) in Hrun.
        rewrite decide_False in Hrun by exact Hne.
        rewrite run_bind in Hrun. unfold store_get in Hrun.
        rewrite Hv in Hrun. rewrite run_bind in Hrun.
        unfold py_str_utf8 in Hrun. rewrite Hid in Hrun. discriminate.
    + rewrite (gen_nccl_unique_id_blocked _ _ _ _ _ _ Hs Hr Hne Hv) in Hrun.
      discriminate.
Qed.

(** A process is past the inter-node factory only with the identifier in
    the store; a rank other than the leader found it there on arrival. *)
Lemma init_bagua_inter_communicator_published stream leader store s
    device_id w r ws lr ls res w' :
  configured w r ws lr ls →
  store_handle store w = Some s →
  init_bagua_inter_communicator stream leader store device_id w
  = (Ret res, w') →
  is_Some (store_contents s w' !! unique_id_key "bagua_inter_comm" leader) ∧
  (r ≠ leader →
   is_Some (store_contents s w !! unique_id_key "bagua_inter_comm" leader)).
Proof.
  intros Hc Hs Hrun.
  destruct (init_bagua_inter_communicator_returns _ _ _ _ _ _ _ _ _ _ _
              Hc Hrun) as (id & w1 & Hgen & _ & Hres).
  assert (store_contents s w' = store_contents s w1) as ->.
  { destruct res as [c |].
    - destruct Hres as (_ & _ & ->). apply store_contents_log.
    - destruct Hres as [_ ->]. reflexivity. }
  destruct (gen_nccl_unique_id_returns _ _ _ _ _ _ _ _
              Hs (cfg_rank _ _ _ _ _ Hc) Hgen)
    as [(-> & _ & ->) | (Hne & v & Hv & _ & ->)].
  - split; [| done]. rewrite store_contents_published, lookup_insert_eq. eauto.
  - rewrite store_contents_log, Hv. eauto.
Qed.

(** An init method with an illegal scheme. *)
Lemma init_process_group_illegal init_method device_id w scheme :
  _global_state w = None →
  split init_method "://" !! 0%nat = Some scheme →
  scheme ∉ ["dist"; "file"] →
  init_process_group init_method device_id w
  = (Raise (ValueError ("Illegal init method: " +:+ init_method)), w).
Proof.
  intros Hnone Hsplit Hscheme. unfold init_process_group.
  rewrite run_bind. unfold is_initialized, gets.
  rewrite bool_decide_false by (rewrite Hnone; auto).
  rewrite run_bind. unfold index. rewrite Hsplit. cbn [mret M_ret].
  rewrite bool_decide_true by exact Hscheme. reflexivity.
Qed.

(** ** Further properties: what the collectives leave alone *)

Lemma same_meta_refl t : same_meta t t.
Proof. done. Qed.

Lemma same_meta_trans a b c : same_meta a b → same_meta b c → same_meta a c.
Proof. intros (? & ? & ?) (? & ? & ?). repeat split; congruence. Qed.

Lemma same_meta_with_data t d : same_meta (with_data t d) t.
Proof. done. Qed.

Lemma scatter_cons flat h bv bvs :
  scatter flat h (bv :: bvs) = scatter flat (scatter_step flat h bv) bvs.
Proof. reflexivity. Qed.

Lemma scatter_app flat h l1 l2 :
  scatter flat h (l1 ++ l2) = scatter flat (scatter flat h l1) l2.
Proof. apply foldl_app. Qed.

Lemma scatter_step_meta flat h bv r t :
  h !! r = Some t →
  ∃ t', scatter_step flat h bv !! r = Some t' ∧ same_meta t' t.
Proof.
  intros Hr. unfold scatter_step.
  destruct (decide (bv.1 = r)) as [-> | Hne].
  - rewrite Hr, lookup_insert_eq. eexists. split; [reflexivity | done].
  - destruct (h !! bv.1).
    + rewrite lookup_insert_ne by exact Hne. eauto using same_meta_refl.
    + eauto using same_meta_refl.
Qed.

(** The scatter never changes the device, the element type or the shape of
    anything on the heap, and never removes anything. *)
Lemma scatter_meta flat bvs h r t :
  h !! r = Some t →
  ∃ t', scatter flat h bvs !! r = Some t' ∧ same_meta t' t.
Proof.
  revert h t. induction bvs as [| bv bvs IH]; intros h t Hr.
  - exists t. split; [exact Hr | apply same_meta_refl].
  - rewrite scatter_cons.
    destruct (scatter_step_meta flat h bv r t Hr) as (t1 & H1 & Hm1).
    destruct (IH _ _ H1) as (t2 & H2 & Hm2).
    exists t2. split; [exact H2 | eapply same_meta_trans; eassumption].
Qed.

(** A buffer that occurs several times ends with the window of its last
    occurrence. *)
Lemma scatter_lookup_last flat h pre b v post dst :
  h !! b = Some dst →
  b ∉ post.*1 →
  ∃ t', scatter flat h (pre ++ (b, v) :: post) !! b = Some t' ∧
        data t' = data (view_tensor flat v) ∧
        same_meta t' dst.
Proof.
  intros Hb Hpost. rewrite scatter_app, scatter_cons.
  destruct (scatter_meta flat pre h b dst Hb) as (t1 & H1 & Hm1).
  rewrite scatter_lookup_other by exact Hpost.
  unfold scatter_step at 1. cbn [fst snd]. rewrite H1, lookup_insert_eq.
  eexists. split; [reflexivity |]. split; [reflexivity |].
  eapply same_meta_trans; [apply same_meta_with_data | exact Hm1].
Qed.

Lemma zip_fst_subseteq {A B} (l : list A) (k : list B) x :
  x ∈ (zip l k).*1 → x ∈ l.
Proof.
  intros Hx. apply list_elem_of_fmap in Hx as ([a b] & -> & Hin).
  eapply elem_of_zip_l, Hin.
Qed.

Lemma collective_effect_frame w w' r t d evs r' :
  collective_effect w w' r t d evs → r' ≠ r → heap w' !! r' = heap w !! r'.
Proof.
  intros [Hheap _ _ _] Hne. rewrite Hheap. apply lookup_insert_ne. congruence.
Qed.

Lemma coalesced_effect_frame w w' tensors flat d views evs r' :
  coalesced_effect w w' tensors flat d views evs →
  r' ∉ tensors → r' ≠ flat_ptr w →
  heap w' !! r' = heap w !! r'.
Proof.
  intros [Hheap _ _ _] Hnotin Hne. rewrite Hheap.
  rewrite scatter_lookup_other.
  - apply lookup_insert_ne. congruence.
  - intros Hin. apply Hnotin. eapply zip_fst_subseteq, Hin.
Qed.

Lemma coalesced_effect_meta w w' tensors flat d views evs r t :
  coalesced_effect w w' tensors flat d views evs →
  heap w !! r = Some t →
  ∃ t', heap w' !! r = Some t' ∧ same_meta t' t.
Proof.
  intros [Hheap _ _ _] Hr. rewrite Hheap. apply scatter_meta.
  rewrite lookup_insert_ne; [exact Hr |].
  intros <-. rewrite flat_ptr_fresh in Hr. discriminate.
Qed.

(** ** Further properties: broadcast over a group *)

Lemma broadcast_group (group : list member) (root : nat) broot :
  (∀ r m, group !! r = Some m → ∃ c, joined (length group) r m c) →
  root_broadcast (contribution <$> group) →
  (contribution <$> group) !! root = Some broot →
  ∀ r m,
    group !! r = Some m →
    ∃ w',
      broadcast (m_tensor m) (Z.of_nat root) (m_comm m) (m_world m)
      = (Ret tt, w') ∧
      m_data w' (m_tensor m) = broot.
Proof.
  intros Hjoin Hbc Hroot r m Hm.
  destruct (Hjoin r m Hm) as (c & (t & dt & Ht & Hd & Hdt) & Hc & Hrk & Hn).
  destruct (broadcast_run _ (Z.of_nat root) _ _ _ _ _ Ht Hd Hc Hdt)
    as (w' & Hrun & Heff).
  exists w'. split; [exact Hrun |].
  rewrite (m_data_insert _ _ _ _ _ (effect_heap _ _ _ _ _ _ Heff)).
  apply (Hbc r root); [| exact Hroot | exact Hrk].
  rewrite list_lookup_fmap, Hm. cbn. unfold contribution, m_data.
  rewrite Ht. reflexivity.
Qed.

Lemma broadcast_coalesced_group (group : list cmember) (root : nat) broot :
  (∀ r m, group !! r = Some m →
          ∃ c ts flat, cjoined (length group) r m c ts flat) →
  root_broadcast (cm_flat <$> group) →
  (cm_flat <$> group) !! root = Some broot →
  ∀ r m,
    group !! r = Some m →
    ∃ w' ts flat evs,
      denote (cm_world m) (cm_tensors m) ts ∧
      flatten_tensors ts = inr flat ∧
      broadcast_coalesced (cm_tensors m) (Z.of_nat root) (cm_comm m)
        (cm_world m)
      = (Ret tt, w') ∧
      coalesced_effect (cm_world m) w' (cm_tensors m) flat broot
        (views_of (flat_ptr (cm_world m)) 0 ts) evs.
Proof.
  intros Hjoin Hbc Hroot r m Hm.
  destruct (Hjoin r m Hm)
    as (c & ts & flat & Hden & Hdev & Hflat & [dt Hdt] & Hc & Hrk & Hn).
  destruct (broadcast_coalesced_run _ (Z.of_nat root) _ _ _ _ _ _
              Hden Hdev Hc Hflat Hdt) as (w' & Hrun & Heff).
  exists w', ts, flat. eexists.
  split; [exact Hden |]. split; [exact Hflat |]. split; [exact Hrun |].
  replace broot with (comm_broadcast c (Z.of_nat root) (data flat));
    [exact Heff |].
  apply (Hbc r root); [| exact Hroot | exact Hrk].
  rewrite list_lookup_fmap, Hm. cbn. f_equal.
  apply (cm_flat_data _ _ _ Hden Hflat).
Qed.

(** ** Further properties: failures inside and before the stream block *)

Lemma new_BaguaTensorPy_raise r w t e :
  heap w !! r = Some t →
  to_bagua_datatype (tensor_dtype t) = inl e →
  new_BaguaTensorPy r w = (Raise e, w).
Proof.
  intros H Hdt. unfold new_BaguaTensorPy.
  rewrite (bind_ret _ _ _ _ _ (deref_run _ _ _ H)).
  rewrite Hdt. reflexivity.
Qed.

Lemma allreduce_unsupported tensor comm c (average : bool) t e w :
  heap w !! tensor = Some t →
  device t ≠ cpu →
  default_comm comm w = (Ret c, w) →
  to_bagua_datatype (tensor_dtype t) = inl e →
  allreduce tensor comm average w
  = (Raise e, set_current_stream (current_stream w) (prologue c w)).
Proof.
  intros Ht Hd Hc Hdt. unfold allreduce.
  rewrite (bind_ret _ _ _ _ _ (assert_cuda_run _ _ _ _ Ht Hd)).
  rewrite (bind_ret _ _ _ _ _ Hc).
  apply collective_fails; [| exact I].
  rewrite (bind_raise _ _ _ _ _
             (new_BaguaTensorPy_raise tensor (prologue c w) t e Ht Hdt)).
  reflexivity.
Qed.

Lemma broadcast_unsupported tensor root comm c t e w :
  heap w !! tensor = Some t →
  device t ≠ cpu →
  default_comm comm w = (Ret c, w) →
  to_bagua_datatype (tensor_dtype t) = inl e →
  broadcast tensor root comm w
  = (Raise e, set_current_stream (current_stream w) (prologue c w)).
Proof.
  intros Ht Hd Hc Hdt. unfold broadcast.
  rewrite (bind_ret _ _ _ _ _ (assert_cuda_run _ _ _ _ Ht Hd)).
  rewrite (bind_ret _ _ _ _ _ Hc).
  apply collective_fails; [| exact I].
  rewrite (bind_raise _ _ _ _ _
             (new_BaguaTensorPy_raise tensor (prologue c w) t e Ht Hdt)).
  reflexivity.
Qed.

Lemma allreduce_uninitialized tensor (average : bool) t w :
  heap w !! tensor = Some t → device t ≠ cpu → _global_state w = None →
  ∃ msg, allreduce tensor None average w = (Raise (AttributeError msg), w).
Proof.
  intros Ht Hd Hg. destruct (default_comm_uninitialized w Hg) as [msg Hc].
  exists msg. unfold allreduce.
  rewrite (bind_ret _ _ _ _ _ (assert_cuda_run _ _ _ _ Ht Hd)).
  rewrite (bind_raise _ _ _ _ _ Hc). reflexivity.
Qed.

Lemma broadcast_uninitialized tensor root t w :
  heap w !! tensor = Some t → device t ≠ cpu → _global_state w = None →
  ∃ msg, broadcast tensor root None w = (Raise (AttributeError msg), w).
Proof.
  intros Ht Hd Hg. destruct (default_comm_uninitialized w Hg) as [msg Hc].
  exists msg. unfold broadcast.
  rewrite (bind_ret _ _ _ _ _ (assert_cuda_run _ _ _ _ Ht Hd)).
  rewrite (bind_raise _ _ _ _ _ Hc). reflexivity.
Qed.

Lemma allreduce_coalesced_uninitialized tensors (average : bool) ts w :
  denote w tensors ts → Forall (λ t, device t ≠ cpu) ts →
  _global_state w = None →
  ∃ msg,
    allreduce_coalesced tensors None average w
    = (Raise (AttributeError msg), w).
Proof.
  intros Hden Hdev Hg. destruct (default_comm_uninitialized w Hg) as [msg Hc].
  exists msg. unfold allreduce_coalesced.
  rewrite (bind_ret _ _ _ _ _ (for_each_assert_cuda_run _ _ _ _ Hden Hdev)).
  rewrite (bind_raise _ _ _ _ _ Hc). reflexivity.
Qed.

Lemma broadcast_coalesced_uninitialized tensors root ts w :
  denote w tensors ts → Forall (λ t, device t ≠ cpu) ts →
  _global_state w = None →
  ∃ msg,
    broadcast_coalesced tensors root None w
    = (Raise (AttributeError msg), w).
Proof.
  intros Hden Hdev Hg. destruct (default_comm_uninitialized w Hg) as [msg Hc].
  exists msg. unfold broadcast_coalesced.
  rewrite (bind_ret _ _ _ _ _ (for_each_assert_cuda_run _ _ _ _ Hden Hdev)).
  rewrite (bind_raise _ _ _ _ _ Hc). reflexivity.
Qed.

(** ** Further properties: [str.split] and the init method *)

Lemma string_app_cons c s t : String c s +:+ t = String c (s +:+ t).
Proof. reflexivity. Qed.

Lemma string_app_nil_r s : s +:+ "" = s.
Proof.
  induction s as [| c s IH]; [reflexivity |].
  rewrite string_app_cons, IH. reflexivity.
Qed.

Lemma string_app_assoc s1 s2 s3 : (s1 +:+ s2) +:+ s3 = s1 +:+ (s2 +:+ s3).
Proof.
  induction s1 as [| c s IH]; [reflexivity |].
  rewrite !string_app_cons, IH. reflexivity.
Qed.

Lemma string_length_app s1 s2 :
  String.length (s1 +:+ s2) = (String.length s1 + String.length s2)%nat.
Proof.
  induction s1 as [| c s IH]; [reflexivity |].
  rewrite string_app_cons. cbn. rewrite IH. reflexivity.
Qed.

Lemma string_app_inv_tail s1 s2 t : s1 +:+ t = s2 +:+ t → s1 = s2.
Proof.
  revert s2. induction s1 as [| a s1 IH]; intros [| b s2] H.
  - reflexivity.
  - apply (f_equal String.length) in H.
    rewrite !string_length_app in H. cbn in H. lia.
  - apply (f_equal String.length) in H.
    rewrite !string_length_app in H. cbn in H. lia.
  - rewrite !string_app_cons in H. injection H as -> H. f_equal. apply IH, H.
Qed.

Lemma prefix_true_drop sep s :
  String.prefix sep s = true →
  s = sep +:+ string_drop (String.length sep) s.
Proof.
  revert s. induction sep as [| a sep IH]; intros s H; [reflexivity |].
  destruct s as [| b s]; [discriminate |]. cbn in H.
  destruct (Ascii.ascii_dec a b) as [-> | Hne]; [| discriminate].
  rewrite string_app_cons. cbn. f_equal. apply IH, H.
Qed.

Lemma split_go_nonempty sep skip cur s : split_go sep skip cur s ≠ [].
Proof.
  revert skip cur. induction s as [| c s IH]; intros skip cur; [done |].
  cbn [split_go]. destruct skip; [| apply IH].
  destruct (String.prefix sep (String c s)); [done | apply IH].
Qed.

Lemma split_go_skip sep skip cur s :
(skip ≤ String.length s)%nat →
  split_go sep skip cur s = split_go sep 0 cur (string_drop skip s).
Proof.
  revert skip. induction s as [| c s IH]; intros skip Hle.
  - cbn in Hle. assert (skip = 0%nat) as -> by lia. reflexivity.
  - destruct skip as [| k]; [reflexivity |].
    cbn [split_go string_drop]. apply IH. cbn in Hle. lia.
Qed.

Lemma join_cons sep s rest :
  rest ≠ [] → join sep (s :: rest) = s +:+ sep +:+ join sep rest.
Proof. destruct rest; [done | reflexivity]. Qed.

(** [sep.join(s.split(sep)) == s], as Python has it. *)
Lemma join_split_go sep n :
  sep ≠ "" →
  ∀ s cur, (String.length s ≤ n)%nat →
           join sep (split_go sep 0 cur s) = cur +:+ s.
Proof.
  intros Hsep. induction n as [| n IH]; intros s cur Hlen.
  - destruct s; [| cbn in Hlen; lia]. cbn. rewrite string_app_nil_r. done.
  - revert cur Hlen. induction s as [| c s IHs]; intros cur Hlen.
    { cbn. rewrite string_app_nil_r. done. }
    cbn [split_go].
    destruct (String.prefix sep (String c s)) eqn:Hp.
    + pose proof (prefix_true_drop _ _ Hp) as Hs.
      destruct sep as [| a sep']; [done |].
      cbn [String.length string_drop] in Hs.
      replace (String.length (String a sep') - 1)%nat
        with (String.length sep') by (cbn [String.length]; lia).
      rewrite string_app_cons in Hs. injection Hs as <- Hs.
      assert (String.length sep' ≤ String.length s)%nat as Hle.
      { apply (f_equal String.length) in Hs.
        rewrite string_length_app in Hs. lia. }
      rewrite (split_go_skip _ _ _ _ Hle).
      rewrite join_cons by apply split_go_nonempty.
      rewrite IH.
      * rewrite Hs at 2. reflexivity.
      * apply (f_equal String.length) in Hs. cbn in Hlen.
        rewrite string_length_app in Hs. lia.
    + rewrite IHs by (cbn in Hlen; lia).
      rewrite string_app_assoc. reflexivity.
Qed.

Lemma join_split s sep : sep ≠ "" → join sep (split s sep) = s.
Proof.
  intros Hsep. unfold split.
  apply (join_split_go sep (String.length s) Hsep s ""). lia.
Qed.

Lemma split_nonempty s sep : ∃ first rest, split s sep = first :: rest.
Proof.
  unfold split. pose proof (split_go_nonempty sep 0 "" s) as H.
  destruct (split_go sep 0 "" s) as [| first rest]; [done | eauto].
Qed.

Lemma init_process_group_no_path init_method device_id w :
  _global_state w = None →
  split init_method "://" = ["file"] →
  init_process_group init_method device_id w = (Raise IndexError, w).
Proof.
  intros Hnone Hsplit. unfold init_process_group.
  rewrite run_bind. unfold is_initialized, gets.
  rewrite bool_decide_false by (rewrite Hnone; auto).
  rewrite Hsplit. reflexivity.
Qed.

(** ** Further properties: the bootstrap *)

Lemma available_log s e w k : available s (log e w) k ↔ available s w k.
Proof. unfold available. rewrite store_contents_log. reflexivity. Qed.

Lemma frame_available s key w w' k :
  rendezvous_frame s key w w' → k ≠ key → available s w k → available s w' k.
Proof.
  intros Hfr Hk (v & id & Hv & Hid). exists v, id.
  rewrite (frame_keys _ _ _ _ Hfr _ Hk). done.
Qed.

Lemma obtainable_available s w r comm_type root :
  available s w (unique_id_key comm_type root) →
  obtainable s w r comm_type root.
Proof. intros H. right. exact H. Qed.

Lemma gen_nccl_unique_id_available comm_type root store s w r id w1 :
  store_handle store w = Some s →
  rank_of w = inr r →
  gen_nccl_unique_id comm_type root store w = (Ret id, w1) →
  available s w1 (unique_id_key comm_type root).
Proof.
  intros Hs Hr Hgen.
  destruct (gen_nccl_unique_id_returns _ _ _ _ _ _ _ _ Hs Hr Hgen)
    as [(_ & _ & ->) | (_ & v & Hv & Hd & ->)].
  - exists (str_encode id), id. rewrite store_contents_published.
    rewrite lookup_insert_eq. split; [reflexivity | apply str_decode_encode].
  - exists v, id. rewrite store_contents_log. done.
Qed.

Lemma init_bagua_inter_communicator_available stream leader store s
    device_id w r ws lr ls res w' :
  configured w r ws lr ls →
  store_handle store w = Some s →
  init_bagua_inter_communicator stream leader store device_id w
  = (Ret res, w') →
  available s w' (unique_id_key "bagua_inter_comm" leader).
Proof.
  intros Hc Hs H.
  destruct (init_bagua_inter_communicator_returns _ _ _ _ _ _ _ _ _ _ _ Hc H)
    as (id & w1 & Hgen & _ & Hres).
  pose proof (gen_nccl_unique_id_available _ _ _ _ _ _ _ _
                Hs (cfg_rank _ _ _ _ _ Hc) Hgen) as Hav.
  destruct res as [c |].
  - destruct Hres as (_ & _ & ->). unfold constructed.
    apply available_log, Hav.
  - destruct Hres as [_ ->]. exact Hav.
Qed.

Lemma init_bagua_intra_communicator_available stream s d w r ws lr ls c w' :
  configured w r ws lr ls →
  init_bagua_intra_communicator stream (Some s) (Some d) w = (Ret c, w') →
  available s w' (unique_id_key "bagua_intra_comm" (r `div` ls * ls)).
Proof.
  intros Hc H. unfold init_bagua_intra_communicator in H.
  rewrite (bind_ret _ _ _ _ _ (default_device_id_run (Some d) _ _ _ _ _ Hc)) in H.
  rewrite (bind_ret _ _ _ _ _ (get_rank_run _ _ _ _ _ Hc)) in H.
  rewrite (bind_ret _ _ _ _ _ (get_local_size_run _ _ _ _ _ Hc)) in H.
  destruct (decide (ls = 0)) as [-> | Hls]; [discriminate H |].
  rewrite (py_floordiv_run _ _ Hls) in H. rewrite run_bind in H.
  cbn [lift_sum mret M_ret] in H.
  rewrite (bind_ret _ _ _ _ _ (get_local_size_run _ _ _ _ _ Hc)) in H.
  apply bind_ret_inv in H as (id & w1 & Hgen & H).
  pose proof (gen_nccl_unique_id_available _ _ (Some s) _ _ _ _ _
                eq_refl (cfg_rank _ _ _ _ _ Hc) Hgen) as Hav.
  pose proof (gen_nccl_unique_id_configured _ _ _ _ _ _ _ _ _ _ Hgen Hc) as Hc1.
  rewrite (bind_ret _ _ _ _ _ (get_rank_run _ _ _ _ _ Hc1)) in H.
  rewrite (bind_ret _ _ _ _ _ (get_local_size_run _ _ _ _ _ Hc1)) in H.
  rewrite (py_mod_run _ _ Hls) in H. rewrite run_bind in H.
  cbn [lift_sum mret M_ret] in H.
  rewrite (bind_ret _ _ _ _ _ (get_local_size_run _ _ _ _ _ Hc1)) in H.
  apply new_communicator_inv in H as [_ ->]. unfold constructed.
  apply available_log, Hav.
Qed.

Lemma init_bagua_communicator_available stream s d w r ws lr ls c w' :
  configured w r ws lr ls →
  init_bagua_communicator stream (Some s) (Some d) w = (Ret c, w') →
  available s w' (unique_id_key "bagua_global_comm" 0).
Proof.
  intros Hc H. unfold init_bagua_communicator in H.
  rewrite (bind_ret _ _ _ _ _ (default_device_id_run (Some d) _ _ _ _ _ Hc)) in H.
  apply bind_ret_inv in H as (id & w1 & Hgen & H).
  pose proof (gen_nccl_unique_id_available _ _ (Some s) _ _ _ _ _
                eq_refl (cfg_rank _ _ _ _ _ Hc) Hgen) as Hav.
  pose proof (gen_nccl_unique_id_configured _ _ _ _ _ _ _ _ _ _ Hgen Hc) as Hc1.
  rewrite (bind_ret _ _ _ _ _ (get_rank_run _ _ _ _ _ Hc1)) in H.
  rewrite (bind_ret _ _ _ _ _ (get_world_size_run _ _ _ _ _ Hc1)) in H.
  apply new_communicator_inv in H as [_ ->]. unfold constructed.
  apply available_log, Hav.
Qed.

Section NoFaultsInTurn.
Hypothesis no_faults : ∀ c, faults c = None.

Lemma new_BaguaGlobalState_publishes s device_id w r ws lr ls :
  configured w r ws lr ls →
  ls ≠ 0 →
  obtainable s w r "bagua_inter_comm" 0 →
  obtainable s w r "bagua_intra_comm" (r `div` ls * ls) →
  obtainable s w r "bagua_global_comm" 0 →
  ∃ g w',
    new_BaguaGlobalState (Some s) device_id w = (Ret g, w') ∧
    topology g r ws ls ∧
    available s w' (unique_id_key "bagua_inter_comm" 0) ∧
    available s w' (unique_id_key "bagua_intra_comm" (r `div` ls * ls)) ∧
    available s w' (unique_id_key "bagua_global_comm" 0) ∧
    (∀ k, available s w k → available s w' k).
Proof.
  intros Hc Hls Hinter Hintra Hglobal. unfold new_BaguaGlobalState.
  rewrite (bind_ret _ _ _ _ _ (default_device_id_run device_id _ _ _ _ _ Hc)).
  rewrite (bind_ret _ _ _ _ _ (extcall_run _ _ (no_faults _))).
  rewrite (bind_ret _ _ _ _ _ (new_cuda_stream_run _ _ (no_faults _))).
  rewrite (bind_ret _ _ _ _ _ (extcall_run _ _ (no_faults _))).
  unfold get_autotune_server_addr. rewrite run_bind. cbn [gets].
  rewrite (bind_ret _ _ _ _ _ (extcall_run _ _ (no_faults _))).
  match goal with
  | |- context [(init_bagua_inter_communicator ?y _ _ _ ≫= _) ?x] =>
      set (w0 := x); set (strm := y)
  end.
  assert (rendezvous_frame s "" w w0) as Hfr0.
  { unfold w0.
    repeat (eapply frame_trans;
            [| first [apply frame_log | apply frame_set_next_handle]]).
    apply frame_refl. }
  assert (store_contents s w0 = store_contents s w) as Hst0.
  { unfold w0.
    rewrite !store_contents_log, store_contents_set_next_handle,
      !store_contents_log. reflexivity. }
  assert (∀ k, available s w k → available s w0 k) as Hav0.
  { intros k (v & id & Hv & Hid). exists v, id. rewrite Hst0. done. }
  assert (∀ ct root, obtainable s w r ct root → obtainable s w0 r ct root)
    as Hob0.
  { intros ct root [-> | Hav]; [left; reflexivity |].
    right. apply (Hav0 _ Hav). }
  pose proof (frame_configured _ _ _ _ _ _ _ _ Hfr0 Hc) as Hc0.
  destruct (init_bagua_inter_communicator_completes no_faults strm 0
              (Some s) s (Some (default lr device_id)) _ _ _ _ _
              eq_refl Hc0 Hls (Hob0 _ _ Hinter))
    as (id1 & w1 & Hrun1 & Hfr1).
  pose proof (init_bagua_inter_communicator_available _ _ (Some s) s
                _ _ _ _ _ _ _ _ Hc0 eq_refl Hrun1) as Hav1.
  rewrite (bind_ret _ _ _ _ _ Hrun1).
  pose proof (frame_configured _ _ _ _ _ _ _ _ Hfr1 Hc0) as Hc1.
  destruct (init_bagua_intra_communicator_completes no_faults strm s
              (default lr device_id) _ _ _ _ _ Hc1 Hls
              (frame_obtainable _ _ _ _ _ _ _ Hfr1 (key_intra_inter _ _)
                 (Hob0 _ _ Hintra)))
    as (id2 & w2 & Hrun2 & Hfr2).
  pose proof (init_bagua_intra_communicator_available _ _ _ _ _ _ _ _ _ _
                Hc1 Hrun2) as Hav2.
  rewrite (bind_ret _ _ _ _ _ Hrun2).
  pose proof (frame_configured _ _ _ _ _ _ _ _ Hfr2 Hc1) as Hc2.
  destruct (init_bagua_communicator_completes no_faults strm s
              (default lr device_id) _ _ _ _ _ Hc2
              (frame_obtainable _ _ _ _ _ _ _ Hfr2 (key_global_intra _ _)
                 (frame_obtainable _ _ _ _ _ _ _ Hfr1 (key_global_inter _ _)
                    (Hob0 _ _ Hglobal))))
    as (id3 & w3 & Hrun3 & Hfr3).
  pose proof (init_bagua_communicator_available _ _ _ _ _ _ _ _ _ _
                Hc2 Hrun3) as Hav3.
  rewrite (bind_ret _ _ _ _ _ Hrun3).
  assert (∀ k, available s w2 k → available s w3 k) as Hstep3.
  { intros k Hk.
    destruct (decide (k = unique_id_key "bagua_global_comm" 0)) as [-> | Hne];
      [exact Hav3 | exact (frame_available _ _ _ _ _ Hfr3 Hne Hk)]. }
  assert (∀ k, available s w1 k → available s w2 k) as Hstep2.
  { intros k Hk.
    destruct (decide (k = unique_id_key "bagua_intra_comm" (r `div` ls * ls)))
      as [-> | Hne];
      [exact Hav2 | exact (frame_available _ _ _ _ _ Hfr2 Hne Hk)]. }
  assert (∀ k, available s w0 k → available s w1 k) as Hstep1.
  { intros k Hk.
    destruct (decide (k = unique_id_key "bagua_inter_comm" 0)) as [-> | Hne];
      [exact Hav1 | exact (frame_available _ _ _ _ _ Hfr1 Hne Hk)]. }
  eexists _, _. split; [reflexivity |]. split; [| split; [| split; [| split]]].
  - split; cbn; [| done | done].
    destruct (decide (r `mod` ls ≠ 0)) as [Hm | Hm]; [exact Hm |].
    apply dec_stable in Hm. done.
  - apply Hstep3, Hstep2, Hav1.
  - apply Hstep3, Hav2.
  - exact Hav3.
  - intros k Hk. apply Hstep3, Hstep2, Hstep1, Hav0, Hk.
Qed.

Lemma init_process_group_publishes init_method device_id s w r ws lr ls :
  _global_state w = None →
  chosen_store init_method ws = Some s →
  configured w r ws lr ls →
  ls ≠ 0 →
  obtainable s w r "bagua_inter_comm" 0 →
  obtainable s w r "bagua_intra_comm" (r `div` ls * ls) →
  obtainable s w r "bagua_global_comm" 0 →
  ∃ g w',
    init_process_group init_method device_id w = (Ret tt, w') ∧
    _global_state w' = Some g ∧
    topology g r ws ls ∧
    available s w' (unique_id_key "bagua_inter_comm" 0) ∧
    available s w' (unique_id_key "bagua_intra_comm" (r `div` ls * ls)) ∧
    available s w' (unique_id_key "bagua_global_comm" 0) ∧
    (∀ k, available s w k → available s w' k).
Proof.
  intros Hnone Hs Hc Hls Hinter Hintra Hglobal.
  unfold init_process_group. rewrite run_bind.
  unfold is_initialized, gets. rewrite bool_decide_false by (rewrite Hnone; auto).
  unfold chosen_store in Hs.
  destruct (split init_method "://") as [| scheme rest] eqn:Hsplit;
    [discriminate |].
  rewrite run_bind. cbn [index lookup list_lookup mret M_ret].
  assert (∃ w0, choose_store scheme (scheme :: rest) w = (Ret s, w0) ∧
                rendezvous_frame s "" w w0 ∧
                store_contents s w0 = store_contents s w)
    as (w0 & Hch & Hfr0 & Hst0).
  { unfold choose_store. destruct (bool_decide (scheme = "file")) eqn:Hfile.
    - destruct rest as [| path rest]; [discriminate |].
      injection Hs as <-.
      rewrite run_bind. cbn [index lookup list_lookup mret M_ret].
      rewrite (bind_ret _ _ _ _ _ (get_world_size_run _ _ _ _ _ Hc)).
      rewrite (bind_ret _ _ _ _ _ (extcall_run _ _ (no_faults _))).
      eexists. split; [reflexivity |]. split; [apply frame_log |].
      apply store_contents_log.
    - destruct (bool_decide (scheme = "dist")); [| discriminate].
      injection Hs as <-. rewrite run_bind. unfold gets.
      destruct (dist_is_initialized w) eqn:Hd.
      + rewrite run_bind. cbn [mret M_ret]. unfold _get_default_store.
        rewrite Hd. eexists. split; [reflexivity |].
        split; [apply frame_refl | done].
      + rewrite !run_bind, (extcall_run _ _ (no_faults _)).
        cbn [modify]. unfold _get_default_store. cbn.
        eexists. split; [reflexivity |]. split.
        * eapply frame_trans; [apply frame_log | apply frame_set_dist].
        * reflexivity. }
  assert (∀ k, available s w k → available s w0 k) as Hav0.
  { intros k (v & id & Hv & Hid). exists v, id. rewrite Hst0. done. }
  assert (∀ ct root, obtainable s w r ct root → obtainable s w0 r ct root)
    as Hob0.
  { intros ct root [-> | Hav]; [left; reflexivity |].
    right. apply (Hav0 _ Hav). }
  assert (bool_decide (scheme ∉ ["dist"; "file"]) = false) as ->.
  { apply bool_decide_eq_false. intros Hn. apply Hn.
    destruct (bool_decide (scheme = "file")) eqn:Hfile.
    - apply bool_decide_eq_true in Hfile. subst. set_solver.
    - destruct (bool_decide (scheme = "dist")) eqn:Hdist; [| discriminate].
      apply bool_decide_eq_true in Hdist. subst. set_solver. }
  change (if bool_decide (scheme = "file") then _ else _)
    with (choose_store scheme (scheme :: rest)).
  rewrite (bind_ret _ _ _ _ _ Hch).
  destruct (new_BaguaGlobalState_publishes s device_id w0 r ws lr ls
              (frame_configured _ _ _ _ _ _ _ _ Hfr0 Hc) Hls
              (Hob0 _ _ Hinter) (Hob0 _ _ Hintra) (Hob0 _ _ Hglobal))
    as (g & w1 & Hnew & Htopo & Ha1 & Ha2 & Ha3 & Hkeep).
  rewrite (bind_ret _ _ _ _ _ Hnew).
  assert (∀ k, available s w1 k →
               available s (set_global_state (Some g) w1) k) as Hset.
  { intros k (v & id & Hv & Hid). exists v, id.
    split; [| exact Hid]. destruct s, w1; exact Hv. }
  exists g. eexists. split; [reflexivity |].
  split; [destruct w1; reflexivity |]. split; [exact Htopo |].
  split; [apply Hset, Ha1 |]. split; [apply Hset, Ha2 |].
  split; [apply Hset, Ha3 |].
  intros k Hk. apply Hset, Hkeep, Hav0, Hk.
Qed.

End NoFaultsInTurn.

(** ** Further properties: ranks bootstrapping in turn *)

Lemma available_with_stores s st w k :
  available s (with_stores st w) k ↔ shared_available s st k.
Proof.
  unfold available, shared_available.
  rewrite store_contents_with_stores. reflexivity.
Qed.

Lemma shared_available_stores_of s w k :
  shared_available s (stores_of w) k ↔ available s w k.
Proof.
  unfold available, shared_available.
  rewrite shared_contents_stores_of. reflexivity.
Qed.

Lemma length_run_in_turn {A} (f : M A) procs :
  ∀ st, length (run_in_turn f st procs) = length procs.
Proof.
  induction procs as [| w procs IH]; intros st; [reflexivity |].
  cbn. rewrite IH. reflexivity.
Qed.

Lemma node_root_below (k ls : Z) :
  (0 ≤ k)%Z → 0 < ls → (0 ≤ k `div` ls * ls ≤ k)%Z.
Proof.
  intros Hk Hls. pose proof (Z.mul_div_le k ls Hls).
  pose proof (Z.div_pos k ls Hk Hls). nia.
Qed.

Section InTurn.
Hypothesis no_faults : ∀ c, faults c = None.

Lemma run_in_turn_bootstrap init_method device_id s ws ls :
  chosen_store init_method ws = Some s →
  0 < ls →
  ∀ procs (k : nat) st,
    ready s ls k st →
    (∀ i w, procs !! i = Some w →
            _global_state w = None ∧
            ∃ lr, configured w (Z.of_nat (k + i)) ws lr ls) →
    ∀ i rw,
      run_in_turn (init_process_group init_method device_id) st procs !! i
      = Some rw →
      rw.1 = Ret tt ∧
      ∃ g, _global_state rw.2 = Some g ∧
           topology g (Z.of_nat (k + i)) ws ls.
Proof.
  intros Hs Hls. induction procs as [| w procs IH]; intros k st Hready Hprocs i rw Hi.
  { destruct i; discriminate Hi. }
  destruct (Hprocs 0%nat w eq_refl) as (Hnone & lr & Hc).
  rewrite Nat.add_0_r in Hc.
  assert (configured (with_stores st w) (Z.of_nat k) ws lr ls) as Hc'.
  { eapply configured_environ; [| exact Hc]. reflexivity. }
  destruct Hready as [Hfirst Hnodes].
  assert (∀ ct, (ct = "bagua_inter_comm" ∨ ct = "bagua_global_comm") →
                obtainable s (with_stores st w) (Z.of_nat k) ct 0) as Hzero.
  { intros ct Hct. destruct k as [| k'].
    - left. reflexivity.
    - right. apply available_with_stores.
      destruct (Hfirst ltac:(lia)) as [H1 H2].
      destruct Hct as [-> | ->]; assumption. }
  pose proof (node_root_below (Z.of_nat k) ls ltac:(lia) Hls) as Hroot.
  assert (obtainable s (with_stores st w) (Z.of_nat k) "bagua_intra_comm"
            (Z.of_nat k `div` ls * ls)) as Hintra.
  { destruct (decide (Z.of_nat k = Z.of_nat k `div` ls * ls)) as [He | Hne].
    - left. exact He.
    - right. apply available_with_stores. apply Hnodes. lia. }
  destruct (init_process_group_publishes no_faults init_method device_id s
              (with_stores st w) (Z.of_nat k) ws lr ls
              Hnone Hs Hc' ltac:(lia)
              (Hzero _ (or_introl eq_refl)) Hintra
              (Hzero _ (or_intror eq_refl)))
    as (g & w' & Hrun & Hg & Htopo & Ha1 & Ha2 & Ha3 & Hkeep).
  cbn [run_in_turn] in Hi. rewrite Hrun in Hi. cbn [snd] in Hi.
  destruct i as [| i].
  - injection Hi as <-. rewrite Nat.add_0_r. cbn. eauto.
  - cbn in Hi. replace (k + S i)%nat with (S k + i)%nat by lia.
    apply (IH (S k) (stores_of w')); [| | exact Hi].
    + split.
      * intros _. split; apply shared_available_stores_of; assumption.
      * intros m Hm. apply shared_available_stores_of.
        destruct (decide (m * ls < Z.of_nat k)) as [Hlt | Hge].
        -- apply Hkeep, available_with_stores, Hnodes. lia.
        -- assert (m * ls = Z.of_nat k) as He by lia.
           rewrite <- He in Ha2.
           rewrite Z.div_mul in Ha2 by lia. exact Ha2.
    + intros j wj Hj.
      replace (S k + j)%nat with (k + S j)%nat by lia.
      apply (Hprocs (S j) wj Hj).
Qed.

End InTurn.

(** ** Further properties: the keys of the rendezvous *)

Lemma unique_id_key_inj_root comm_type root root' :
  unique_id_key comm_type root = unique_id_key comm_type root' → root = root'.
Proof.
  unfold unique_id_key. intros H.
  apply (inj (String.append comm_type)) in H.
  apply (inj (String.append "-")) in H.
  apply string_app_inv_tail in H.
  apply (inj pretty) in H. exact H.
Qed.

Lemma unique_id_key_inj ct ct' root root' :
  ct ∈ purposes → ct' ∈ purposes →
  unique_id_key ct root = unique_id_key ct' root' →
  ct = ct' ∧ root = root'.
Proof.
  unfold purposes. rewrite !elem_of_cons, !elem_of_nil.
  intros [-> | [-> | [-> | []]]] [-> | [-> | [-> | []]]] H;
    first [ split; [reflexivity | exact (unique_id_key_inj_root _ _ _ H)]
          | exfalso; unfold unique_id_key in H; cbn in H; discriminate H ].
Qed.

Lemma same_node_same_root (r r' ls : Z) :
  ls ≠ 0 → (r `div` ls * ls = r' `div` ls * ls ↔ r `div` ls = r' `div` ls).
Proof.
  intros Hls. split; [| congruence].
  intros H. apply (Z.mul_cancel_r _ _ ls Hls). exact H.
Qed.

(** ** Further properties: where the bootstrap waits *)

Lemma bind_blocked_inv {A B} (m : M A) (k : A → M B) w key w' :
  (m ≫= k) w = (Blocked key, w') →
  m w = (Blocked key, w') ∨
  ∃ a w1, m w = (Ret a, w1) ∧ k a w1 = (Blocked key, w').
Proof.
  intros H. apply bind_inv in H as [(a & w1 & Hm & Hk) | [_ [(e & _ & He) | (key' & Hm & He)]]].
  - right. eauto.
  - discriminate He.
  - injection He as <-. left. exact Hm.
Qed.

Lemma waits_only_ret {A} P (a : A) : waits_only P (mret a).
Proof. intros w key w' H. discriminate H. Qed.

Lemma waits_only_raise {A} P e : waits_only P (raise (A := A) e).
Proof. intros w key w' H. discriminate H. Qed.

Lemma waits_only_gets {A} P (f : World → A) : waits_only P (gets f).
Proof. intros w key w' H. discriminate H. Qed.

Lemma waits_only_modify P f : waits_only P (modify f).
Proof. intros w key w' H. discriminate H. Qed.

Lemma waits_only_lift_sum {A} P (r : exn + A) : waits_only P (lift_sum r).
Proof. intros w key w' H. destruct r; discriminate H. Qed.

Lemma waits_only_index {A} P (l : list A) i : waits_only P (index l i).
Proof.
  intros w key w' H. unfold index in H. destruct (l !! i); discriminate H.
Qed.

Lemma waits_only_bind {A B} P (m : M A) (k : A → M B) :
  waits_only P m → (∀ a, waits_only P (k a)) → waits_only P (m ≫= k).
Proof.
  intros Hm Hk w key w' H.
  apply bind_blocked_inv in H as [H | (a & w1 & _ & H)].
  - exact (Hm _ _ _ H).
  - exact (Hk _ _ _ _ H).
Qed.

Lemma waits_only_extcall P c : waits_only P (extcall c).
Proof.
  intros w key w' H. unfold extcall in H. destruct (faults c); discriminate H.
Qed.

Lemma waits_only_getenv_int P name d : waits_only P (getenv_int name d).
Proof.
  unfold getenv_int. apply waits_only_bind; [apply waits_only_gets |].
  intros env. apply waits_only_lift_sum.
Qed.

Lemma waits_only_default_device_id P d : waits_only P (default_device_id d).
Proof.
  destruct d; [apply waits_only_ret |].
  unfold default_device_id, get_local_rank. apply waits_only_getenv_int.
Qed.

Lemma waits_only_new_communicator P r n d s id :
  waits_only P (new_communicator r n d s id).
Proof.
  unfold new_communicator. apply waits_only_bind; [apply waits_only_extcall |].
  intros _. apply waits_only_ret.
Qed.

Lemma waits_only_new_cuda_stream P p : waits_only P (new_cuda_stream p).
Proof.
  unfold new_cuda_stream.
  repeat first [ apply waits_only_bind; [| intros ?]
               | apply waits_only_extcall | apply waits_only_gets
               | apply waits_only_modify | apply waits_only_ret ].
Qed.

Lemma waits_only_store_handle P (store : option Store) :
  waits_only P (match store with
                | None => _get_default_store
                | Some s => mret s
                end).
Proof.
  destruct store; [apply waits_only_ret |].
  intros w key w' H. unfold _get_default_store in H.
  destruct (dist_is_initialized w); discriminate H.
Qed.

Lemma waits_only_gen_nccl_unique_id P comm_type root store :
  P (unique_id_key comm_type root) →
  waits_only P (gen_nccl_unique_id comm_type root store).
Proof.
  intros HP. unfold gen_nccl_unique_id.
  apply waits_only_bind; [apply waits_only_store_handle | intros s].
  unfold get_rank.
  apply waits_only_bind; [apply waits_only_getenv_int | intros r].
  destruct (decide (r = root)).
  - apply waits_only_bind; [intros w key w' H; discriminate H | intros id].
    apply waits_only_bind; [intros w key w' H; discriminate H | intros _].
    apply waits_only_ret.
  - apply waits_only_bind.
    + intros w key w' H. unfold store_get in H.
      destruct (store_contents s w !! unique_id_key comm_type root);
        [discriminate H |].
      injection H as <- _. exact HP.
    + intros v. apply waits_only_bind; [| intros ?; apply waits_only_ret].
      intros w key w' H. unfold py_str_utf8 in H.
      destruct (str_decode v); discriminate H.
Qed.

Lemma waits_only_choose_store P scheme metas :
  waits_only P (choose_store scheme metas).
Proof.
  unfold choose_store, get_world_size.
  destruct (bool_decide (scheme = "file")).
  - repeat first [ apply waits_only_index | apply waits_only_getenv_int
                 | apply waits_only_extcall | apply waits_only_ret
                 | apply waits_only_bind; [| intros ?] ].
  - apply waits_only_bind; [apply waits_only_gets | intros started].
    apply waits_only_bind.
    + destruct started; [apply waits_only_ret |].
      apply waits_only_bind; [apply waits_only_extcall | intros _].
      apply waits_only_modify.
    + intros _. apply (waits_only_store_handle P None).
Qed.

(** A rank waits in the rendezvous only when it is not the root. *)
Lemma gen_nccl_unique_id_waits comm_type root store w r key w' :
  rank_of w = inr r →
  gen_nccl_unique_id comm_type root store w = (Blocked key, w') →
  key = unique_id_key comm_type root ∧ r ≠ root.
Proof.
  intros Hr H. split.
  - exact (waits_only_gen_nccl_unique_id
             (λ k, k = unique_id_key comm_type root) _ _ _ eq_refl _ _ _ H).
  - intros ->. unfold gen_nccl_unique_id in H.
    apply bind_blocked_inv in H as [H | (s & w1 & Hs & H)].
    { exact (waits_only_store_handle (λ _, False) _ _ _ _ H). }
    assert (w1 = w) as ->.
    { destruct store; [injection Hs as _ <-; reflexivity |].
      unfold _get_default_store in Hs.
      destruct (dist_is_initialized w); [| discriminate Hs].
      injection Hs as _ <-. reflexivity. }
    unfold get_rank in H.
    rewrite (bind_ret _ _ _ _ _ (getenv_int_run _ _ _ _ Hr)) in H.
    rewrite decide_True in H by reflexivity.
    discriminate H.
Qed.

Ltac waits_auto :=
  unfold get_rank, get_world_size, get_local_rank, get_local_size;
  repeat first
    [ apply waits_only_index | apply waits_only_getenv_int
    | apply waits_only_default_device_id | apply waits_only_new_communicator
    | apply waits_only_new_cuda_stream | apply waits_only_choose_store
    | apply waits_only_extcall | apply waits_only_ret | apply waits_only_raise
    | apply waits_only_gets | apply waits_only_modify
    | apply waits_only_lift_sum
    | apply waits_only_bind; [| intros ?]
    | match goal with
      | |- waits_only _ (if ?b then _ else _) => destruct b
      end ].

Ltac keeps_environ :=
  solve [ eauto using blind_environ, keeps_default_device_id, keeps_extcall,
            keeps_new_cuda_stream, keeps_gets, keeps_inter, keeps_intra,
            keeps_comm, keeps_choose_store, keeps_new_state, keeps_index ].

Lemma configured_inj w r ws lr ls r' ws' lr' ls' :
  configured w r ws lr ls → configured w r' ws' lr' ls' →
  r = r' ∧ ws = ws' ∧ lr = lr' ∧ ls = ls'.
Proof. intros [] []. repeat split; congruence. Qed.

Lemma rendezvous_wait_environ w w' key :
  environ w' = environ w → rendezvous_wait w' key → rendezvous_wait w key.
Proof.
  intros He H r ws lr ls Hc. apply (H r ws lr ls).
  eapply configured_environ; [exact He | exact Hc].
Qed.

Lemma waits_in_never {A} (m : M A) : waits_only (λ _, False) m → waits_in m.
Proof. intros H w key w' Hm. destruct (H _ _ _ Hm). Qed.

Lemma waits_in_bind {A B} (m : M A) (k : A → M B) :
  keeps environ m → waits_in m → (∀ a, waits_in (k a)) → waits_in (m ≫= k).
Proof.
  intros Hkeep Hm Hk w key w' H.
  apply bind_blocked_inv in H as [H | (a & w1 & H1 & H)].
  - exact (Hm _ _ _ H).
  - apply (rendezvous_wait_environ _ w1); [exact (Hkeep _ _ _ H1) |].
    exact (Hk _ _ _ _ H).
Qed.

Lemma waits_in_inter stream store device_id :
  waits_in (init_bagua_inter_communicator stream 0 store device_id).
Proof.
  intros w key w' H r ws lr ls Hc. left.
  unfold init_bagua_inter_communicator in H.
  rewrite (bind_ret _ _ _ _ _ (default_device_id_run device_id _ _ _ _ _ Hc)) in H.
  apply bind_blocked_inv in H as [H | (id & w1 & _ & H)].
  - exact (gen_nccl_unique_id_waits _ _ _ _ _ _ _ (cfg_rank _ _ _ _ _ Hc) H).
  - exfalso. revert H. cbv beta.
    match goal with
    | |- ?m w1 = _ → False =>
        assert (waits_only (λ _, False) m) as Hw; [| exact (Hw _ _ _)]
    end.
    waits_auto.
Qed.

Lemma waits_in_intra stream store device_id :
  waits_in (init_bagua_intra_communicator stream store device_id).
Proof.
  intros w key w' H r ws lr ls Hc. right. left.
  unfold init_bagua_intra_communicator in H.
  rewrite (bind_ret _ _ _ _ _ (default_device_id_run device_id _ _ _ _ _ Hc)) in H.
  rewrite (bind_ret _ _ _ _ _ (get_rank_run _ _ _ _ _ Hc)) in H.
  rewrite (bind_ret _ _ _ _ _ (get_local_size_run _ _ _ _ _ Hc)) in H.
  destruct (decide (ls = 0)) as [-> | Hls]; [discriminate H |].
  rewrite (py_floordiv_run _ _ Hls) in H. rewrite run_bind in H.
  cbn [lift_sum mret M_ret] in H.
  rewrite (bind_ret _ _ _ _ _ (get_local_size_run _ _ _ _ _ Hc)) in H.
  apply bind_blocked_inv in H as [H | (id & w1 & _ & H)].
  - exact (gen_nccl_unique_id_waits _ _ _ _ _ _ _ (cfg_rank _ _ _ _ _ Hc) H).
  - exfalso. revert H. cbv beta.
    match goal with
    | |- ?m w1 = _ → False =>
        assert (waits_only (λ _, False) m) as Hw; [| exact (Hw _ _ _)]
    end.
    waits_auto.
Qed.

Lemma waits_in_comm stream store device_id :
  waits_in (init_bagua_communicator stream store device_id).
Proof.
  intros w key w' H r ws lr ls Hc. right. right.
  unfold init_bagua_communicator in H.
  rewrite (bind_ret _ _ _ _ _ (default_device_id_run device_id _ _ _ _ _ Hc)) in H.
  apply bind_blocked_inv in H as [H | (id & w1 & _ & H)].
  - exact (gen_nccl_unique_id_waits _ _ _ _ _ _ _ (cfg_rank _ _ _ _ _ Hc) H).
  - exfalso. revert H. cbv beta.
    match goal with
    | |- ?m w1 = _ → False =>
        assert (waits_only (λ _, False) m) as Hw; [| exact (Hw _ _ _)]
    end.
    waits_auto.
Qed.

Lemma waits_in_new_state store device_id :
  waits_in (new_BaguaGlobalState store device_id).
Proof.
  unfold new_BaguaGlobalState.
  apply waits_in_bind;
    [keeps_environ
    | apply waits_in_never; waits_auto | intros d].
  apply waits_in_bind;
    [keeps_environ
    | apply waits_in_never; waits_auto | intros _].
  apply waits_in_bind;
    [keeps_environ
    | apply waits_in_never; waits_auto | intros strm].
  apply waits_in_bind;
    [keeps_environ
    | apply waits_in_never; waits_auto | intros _].
  apply waits_in_bind;
    [keeps_environ
    | apply waits_in_never; unfold get_autotune_server_addr; waits_auto
    | intros addr].
  apply waits_in_bind;
    [keeps_environ
    | apply waits_in_never; waits_auto | intros _].
  apply waits_in_bind;
    [keeps_environ | apply waits_in_inter | intros inter].
  apply waits_in_bind;
    [keeps_environ | apply waits_in_intra | intros intra].
  apply waits_in_bind;
    [keeps_environ | apply waits_in_comm | intros glob].
  apply waits_in_never. waits_auto.
Qed.

Lemma waits_in_init_process_group init_method device_id :
  waits_in (init_process_group init_method device_id).
Proof.
  unfold init_process_group.
  apply waits_in_bind;
    [keeps_environ | apply waits_in_never; unfold is_initialized; waits_auto
    | intros initialized].
  destruct initialized; [apply waits_in_never; waits_auto |].
  apply waits_in_bind;
    [keeps_environ | apply waits_in_never; waits_auto | intros scheme].
  destruct (bool_decide (scheme ∉ ["dist"; "file"]));
    [apply waits_in_never; waits_auto |].
  change (if bool_decide (scheme = "file") then _ else _)
    with (choose_store scheme (split init_method "://")).
  apply waits_in_bind;
    [keeps_environ
    | apply waits_in_never; waits_auto | intros st].
  apply waits_in_bind;
    [keeps_environ | apply waits_in_new_state
    | intros g].
  apply waits_in_never. waits_auto.
Qed.

(** Without a store and without an initialised torch.distributed there is
    no rendezvous. *)
Lemma gen_nccl_unique_id_no_store comm_type root w :
  dist_is_initialized w = false →
  gen_nccl_unique_id comm_type root None w
  = (Raise (RuntimeError "Default process group has not been initialized"), w).
Proof.
  intros Hd. unfold gen_nccl_unique_id. rewrite run_bind.
  unfold _get_default_store. rewrite Hd. reflexivity.
Qed.

(** ** Further properties: how the state is wired *)

Lemma default_device_id_inv device_id w d w1 :
  default_device_id device_id w = (Ret d, w1) →
  w1 = w ∧
  match device_id with
  | Some d' => d = d'
  | None => environ_int (environ w) "LOCAL_RANK" 0 = inr d
  end.
Proof.
  destruct device_id as [d' |]; cbn.
  - intros [= <- <-]. done.
  - unfold get_local_rank, getenv_int. rewrite run_bind. cbn [gets].
    destruct (environ_int (environ w) "LOCAL_RANK" 0); cbn; intros [= <- <-].
    done.
Qed.

Lemma new_cuda_stream_inv p w s w' :
  new_cuda_stream p w = (Ret s, w') → priority s = p.
Proof.
  intros H. unfold new_cuda_stream in H. do 3 bind_ret_inv H.
  injection H as <- _. reflexivity.
Qed.

Lemma init_bagua_communicator_device stream store d w c w' :
  init_bagua_communicator stream store (Some d) w = (Ret c, w') →
  comm_device_id c = d.
Proof.
  intros H. unfold init_bagua_communicator in H.
  apply bind_ret_inv in H as (d' & w0 & [= <- <-] & H).
  do 3 bind_ret_inv H.
  apply new_communicator_inv in H as [-> _]. reflexivity.
Qed.

Lemma init_bagua_intra_communicator_device stream store d w c w' :
  init_bagua_intra_communicator stream store (Some d) w = (Ret c, w') →
  comm_device_id c = d.
Proof.
  intros H. unfold init_bagua_intra_communicator in H.
  apply bind_ret_inv in H as (d' & w0 & [= <- <-] & H).
  do 9 bind_ret_inv H.
  apply new_communicator_inv in H as [-> _]. reflexivity.
Qed.

Lemma init_bagua_inter_communicator_device stream leader store d w c w' :
  init_bagua_inter_communicator stream leader store (Some d) w
  = (Ret (Some c), w') →
  comm_device_id c = d.
Proof.
  intros H. unfold init_bagua_inter_communicator in H.
  apply bind_ret_inv in H as (d' & w0 & [= <- <-] & H).
  apply bind_ret_inv in H as (id & w1 & _ & H).
  apply bind_ret_inv in H as (r & w2 & _ & H).
  apply bind_ret_inv in H as (l & w3 & _ & H).
  apply bind_ret_inv in H as (m & w4 & _ & H).
  destruct (decide (m ≠ leader)); [discriminate |].
  do 6 bind_ret_inv H.
  apply bind_ret_inv in H as (c' & wn & Hn & H).
  injection H as <- _.
  apply new_communicator_inv in Hn as [-> _]. reflexivity.
Qed.

Lemma new_BaguaGlobalState_wiring st device_id w g w' :
  new_BaguaGlobalState st device_id w = (Ret g, w') →
  ∃ d,
    default_device_id device_id w = (Ret d, w) ∧
    backend g = {| schedule_channel_cap := 100; backend_device_id := d |} ∧
    store g = st ∧
    priority (stream g) = -1 ∧
    hyperparameters_service_client g
    = environ w !! "AUTO_TUNE_SERVER_ADDR" ∧
    comm_device_id (global_communicator g) = d ∧
    comm_device_id (intranode_communicator g) = d ∧
    (∀ c, internode_communicator g = Some c → comm_device_id c = d).
Proof.
  intros H. unfold new_BaguaGlobalState in H.
  apply bind_ret_inv in H as (d & w0 & Hd & H).
  pose proof (default_device_id_inv _ _ _ _ Hd) as [-> _].
  apply bind_ret_inv in H as ([] & w1 & H1 & H).
  apply bind_ret_inv in H as (strm & w2 & H2 & H).
  apply bind_ret_inv in H as ([] & w3 & H3 & H).
  apply bind_ret_inv in H as (addr & w4 & H4 & H).
  apply bind_ret_inv in H as ([] & w5 & H5 & H).
  apply bind_ret_inv in H as (inter & w6 & H6 & H).
  apply bind_ret_inv in H as (intra & w7 & H7 & H).
  apply bind_ret_inv in H as (glob & w8 & H8 & H).
  injection H as <- _. exists d. cbn.
  split; [exact Hd |]. split; [reflexivity |]. split; [reflexivity |].
  split; [exact (new_cuda_stream_inv _ _ _ _ H2) |].
  split.
  { unfold get_autotune_server_addr, gets in H4. injection H4 as <- <-.
    rewrite (keeps_extcall _ blind_environ _ _ _ _ H3).
    rewrite (keeps_new_cuda_stream _ blind_environ _ _ _ _ H2).
    rewrite (keeps_extcall _ blind_environ _ _ _ _ H1). reflexivity. }
  split; [exact (init_bagua_communicator_device _ _ _ _ _ _ H8) |].
  split; [exact (init_bagua_intra_communicator_device _ _ _ _ _ _ H7) |].
  intros c ->. exact (init_bagua_inter_communicator_device _ _ _ _ _ _ _ H6).
Qed.

Lemma choose_store_chosen init_method scheme rest w s w' r ws lr ls :
  split init_method "://" = scheme :: rest →
  scheme ∈ ["dist"; "file"] →
  configured w r ws lr ls →
  choose_store scheme (scheme :: rest) w = (Ret s, w') →
  chosen_store init_method ws = Some s.
Proof.
  intros Hsplit Hscheme Hc H. unfold chosen_store. rewrite Hsplit.
  unfold choose_store in H.
  destruct (bool_decide (scheme = "file")) eqn:Hfile.
  - apply bind_ret_inv in H as (path & w0 & Hp & H).
    destruct rest as [| path' rest]; [discriminate Hp |].
    injection Hp as <- <-.
    rewrite (bind_ret _ _ _ _ _ (get_world_size_run _ _ _ _ _ Hc)) in H.
    apply bind_ret_inv in H as ([] & w1 & _ & H).
    injection H as <- _. reflexivity.
  - apply bool_decide_eq_false in Hfile.
    assert (scheme = "dist") as ->.
    { apply elem_of_cons in Hscheme as [He | Hscheme]; [exact He |].
      apply list_elem_of_singleton in Hscheme. contradiction. }
    rewrite bool_decide_true by reflexivity.
    do 2 bind_ret_inv H. unfold _get_default_store in H.
    destruct (dist_is_initialized _); [| discriminate H].
    injection H as <- _. reflexivity.
Qed.

Lemma init_process_group_wiring init_method device_id w w' r ws lr ls :
  configured w r ws lr ls →
  init_process_group init_method device_id w = (Ret tt, w') →
  ∃ g,
    _global_state w' = Some g ∧
    backend g = {| schedule_channel_cap := 100;
                   backend_device_id := default lr device_id |} ∧
    store g = chosen_store init_method ws ∧
    priority (stream g) = -1 ∧
    hyperparameters_service_client g
    = environ w !! "AUTO_TUNE_SERVER_ADDR" ∧
    comm_device_id (global_communicator g) = default lr device_id ∧
    comm_device_id (intranode_communicator g) = default lr device_id ∧
    (∀ c, internode_communicator g = Some c →
          comm_device_id c = default lr device_id).
Proof.
  intros Hc H. unfold init_process_group in H.
  apply bind_ret_inv in H as (b & w0 & Hb & H).
  unfold is_initialized, gets in Hb. injection Hb as <- <-.
  destruct (bool_decide (_global_state w ≠ None)); [discriminate |].
  apply bind_ret_inv in H as (scheme & w1 & Hsch & H). cbv beta in H.
  unfold index in Hsch.
  destruct (split init_method "://") as [| scheme' rest] eqn:Hsplit;
    [discriminate Hsch |].
  injection Hsch as <- <-.
  destruct (bool_decide (scheme' ∉ ["dist"; "file"])) eqn:Hin;
    [discriminate |].
  apply bool_decide_eq_false in Hin. apply dec_stable in Hin.
  change (if bool_decide (scheme' = "file") then _ else _)
    with (choose_store scheme' (scheme' :: rest)) in H.
  apply bind_ret_inv in H as (st & w2 & Hst & H).
  apply bind_ret_inv in H as (g & w3 & Hg & H).
  injection H as <-.
  pose proof (choose_store_chosen _ _ _ _ _ _ _ _ _ _ Hsplit Hin Hc Hst) as Hch.
  pose proof (keeps_choose_store environ _ _ blind_environ _ _ _ Hst) as Henv.
  destruct (new_BaguaGlobalState_wiring _ _ _ _ _ Hg)
    as (d & Hd & Hbk & Hstore & Hprio & Haddr & Hglob & Hintra & Hinter).
  rewrite (default_device_id_run device_id _ _ _ _ _
             (configured_environ _ _ _ _ _ _ Henv Hc)) in Hd.
  injection Hd as <-.
  exists g. split; [destruct w3; reflexivity |].
  split; [exact Hbk |]. split; [rewrite Hstore, Hch; reflexivity |].
  split; [exact Hprio |]. split; [rewrite Haddr, Henv; reflexivity |].
  done.
Qed.

(** ** Further properties: ranks within their groups *)

Lemma topology_in_range g (r ws ls : Z) :
  topology g r ws ls →
  (0 ≤ r < ws)%Z → 0 < ls → ws `mod` ls = 0 →
  in_range (global_communicator g) ∧
  in_range (intranode_communicator g) ∧
  (∀ c, internode_communicator g = Some c →
        in_range c ∧
        nranks c * nranks (intranode_communicator g)
        = nranks (global_communicator g)).
Proof.
  intros [Hinter [Hi1 Hi2] [Hg1 Hg2]] Hr Hls Hdiv. unfold in_range.
  rewrite Hg1, Hg2, Hi1, Hi2.
  split; [exact Hr |]. split; [apply Z.mod_pos_bound, Hls |].
  intros c Hsome. rewrite Hsome in Hinter.
  destruct Hinter as (_ & -> & ->).
  pose proof (Z.div_exact ws ls ltac:(lia)) as Hex.
  apply Hex in Hdiv.
  split; [| lia]. split; [apply Z.div_pos; lia |].
  apply Z.div_lt_upper_bound; lia.
Qed.

Lemma topology_past_the_end g (ws ls : Z) :
  topology g (ws `div` ls * ls) ws ls →
  ls ≠ 0 →
  ∃ c, internode_communicator g = Some c ∧ rank c = nranks c.
Proof.
  intros [Hinter _ _] Hls.
  destruct (internode_communicator g) as [c |].
  - exists c. split; [reflexivity |].
    destruct Hinter as (_ & -> & ->). apply Z.div_mul, Hls.
  - exfalso. apply Hinter. apply Z.mod_mul, Hls.
Qed.

(** ** Further properties: env.py *)

Lemma getenv_int_pure name d w r w' : getenv_int name d w = (r, w') → w' = w.
Proof.
  unfold getenv_int. rewrite run_bind. cbn [gets].
  destruct (environ_int (environ w) name d); cbn; intros [= _ <-]; reflexivity.
Qed.

Lemma getenv_int_default name d w :
  environ w !! name = None → getenv_int name d w = (Ret d, w).
Proof.
  intros H. apply getenv_int_run. unfold environ_int. rewrite H. reflexivity.
Qed.

Lemma getenv_int_invalid name d w s :
  environ w !! name = Some s → py_int s = None →
  getenv_int name d w
  = (Raise (ValueError ("invalid literal for int(): " +:+ s)), w).
Proof.
  intros H Hs. apply getenv_int_raise. unfold environ_int. rewrite H, Hs.
  reflexivity.
Qed.

Lemma getenv_int_value name d w s z :
  environ w !! name = Some s → py_int s = Some z →
  getenv_int name d w = (Ret z, w).
Proof.
  intros H Hs. apply getenv_int_run. unfold environ_int. rewrite H, Hs.
  reflexivity.
Qed.

(** ** Further properties: repeated handles, sizes *)

Lemma last_occurrence (l : list nat) r :
  r ∈ l →
  ∃ i, l !! i = Some r ∧ ∀ j, (i < j)%nat → l !! j ≠ Some r.
Proof.
  induction l as [| x l IH]; intros Hin; [by apply elem_of_nil in Hin |].
  destruct (decide (r ∈ l)) as [Hl | Hl].
  - destruct (IH Hl) as (i & Hi & Hlast). exists (S i). split; [exact Hi |].
    intros [| j] Hj; [lia |]. cbn. apply Hlast. lia.
  - apply elem_of_cons in Hin as [-> | Hin]; [| contradiction].
    exists 0%nat. split; [reflexivity |].
    intros [| j] Hj; [lia |]. cbn. intros Hx. apply Hl.
    eapply list_elem_of_lookup_2, Hx.
Qed.

Lemma coalesced_effect_last w w' tensors ts flat d evs i r t v :
  coalesced_effect w w' tensors flat d (views_of (flat_ptr w) 0 ts) evs →
  denote w tensors ts →
  tensors !! i = Some r →
  (∀ j, (i < j)%nat → tensors !! j ≠ Some r) →
  ts !! i = Some t →
  views_of (flat_ptr w) 0 ts !! i = Some v →
  ∃ t', heap w' !! r = Some t' ∧
        data t' = take (view_numel v) (drop (view_offset v) d) ∧
        same_meta t' t.
Proof.
  intros [Hheap _ _ _] Hden Hr Hlast Ht Hv. rewrite Hheap.
  set (views := views_of (flat_ptr w) 0 ts) in *.
  assert (length tensors = length ts) as Hlen by (eapply Forall2_length, Hden).
  assert (length views = length ts) as Hlv by apply length_views_of.
  rewrite <- (take_drop_middle tensors i r Hr).
  rewrite <- (take_drop_middle views i v Hv).
  rewrite zip_with_app by (rewrite !length_take; lia).
  cbn [zip_with].
  apply scatter_lookup_last.
  - rewrite lookup_insert_ne.
    + exact (Forall2_lookup_lr _ _ _ _ _ _ Hden Hr Ht).
    + pose proof (denote_ne_flat_ptr _ _ _ Hden) as Hne.
      intros Heq. eapply (proj1 (list.Forall_forall _ _) Hne r).
      * eapply list_elem_of_lookup_2, Hr.
      * symmetry. exact Heq.
  - intros Hin. apply zip_fst_subseteq in Hin.
    apply list_elem_of_lookup_1 in Hin as [j Hj].
    rewrite lookup_drop in Hj. apply (Hlast (S i + j)%nat); [lia | exact Hj].
Qed.

Lemma views_of_bound p ts :
  ∀ o i v,
    views_of p o ts !! i = Some v →
    (view_offset v + view_numel v ≤ o + length (concat (data <$> ts)))%nat ∧
    ∃ t, ts !! i = Some t ∧ view_numel v = numel t.
Proof.
  induction ts as [| t ts IH]; intros o i v Hv; [destruct i; discriminate |].
  cbn [fmap list_fmap concat]. rewrite length_app.
  destruct i as [| i]; cbn in Hv.
  - injection Hv as <-. cbn. split; [unfold numel; lia |]. eauto.
  - destruct (IH _ _ _ Hv) as [Hb Ht]. split; [| exact Ht].
    unfold numel in Hb. lia.
Qed.

Lemma length_window {A} (d : list A) (o n : nat) :
  (o + n ≤ length d)%nat → length (take n (drop o d)) = n.
Proof. intros H. rewrite length_take, length_drop. lia. Qed.

(** A coalesced collective whose transport keeps the length of the flat
    buffer leaves every tensor with the size, the device, the element type
    and the shape it had. *)
Lemma coalesced_effect_numel w w' tensors ts flat d evs r t :
  coalesced_effect w w' tensors flat d (views_of (flat_ptr w) 0 ts) evs →
  denote w tensors ts →
  flatten_tensors ts = inr flat →
  length d = length (data flat) →
  heap w !! r = Some t →
  ∃ t', heap w' !! r = Some t' ∧ numel t' = numel t ∧ same_meta t' t.
Proof.
  intros Heff Hden Hflat Hd Hr.
  destruct (decide (r ∈ tensors)) as [Hin | Hnotin].
  - destruct (last_occurrence _ _ Hin) as (i & Hi & Hlast).
    destruct (Forall2_lookup_l _ _ _ _ _ Hden Hi) as (t0 & Ht0 & Hrt0).
    assert (t0 = t) as -> by congruence.
    assert (is_Some (views_of (flat_ptr w) 0 ts !! i)) as [v Hv].
    { apply lookup_lt_is_Some. rewrite length_views_of.
      eapply lookup_lt_Some, Ht0. }
    destruct (coalesced_effect_last _ _ _ _ _ _ _ _ _ _ _
                Heff Hden Hi Hlast Ht0 Hv) as (t' & Ht' & Hdata & Hmeta).
    exists t'. split; [exact Ht' |]. split; [| exact Hmeta].
    destruct (views_of_bound _ _ _ _ _ Hv) as [Hb (t1 & Ht1 & Hn)].
    assert (t1 = t) as -> by congruence.
    unfold numel at 1. rewrite Hdata, length_window; [exact Hn |].
    rewrite Hd. destruct (flatten_tensors_inv _ _ Hflat) as [-> _]. lia.
  - destruct (decide (r = flat_ptr w)) as [-> | Hne].
    { rewrite flat_ptr_fresh in Hr. discriminate. }
    exists t. rewrite (coalesced_effect_frame _ _ _ _ _ _ _ _ Heff Hnotin Hne).
    split; [exact Hr |]. split; [reflexivity | apply same_meta_refl].
Qed.

Lemma length_divided n d : length (divided n d) = length d.
Proof. unfold divided. apply length_fmap. Qed.

Lemma length_reduced c (average : bool) d :
  length (comm_allreduce c d) = length d →
  length (reduced c average d) = length d.
Proof.
  intros H. unfold reduced. destruct average; [rewrite length_divided |];
    exact H.
Qed.

(** ** Further properties: broadcast of a list, tensor by tensor *)

Lemma m_data_denote w tensors ts :
  denote w tensors ts → m_data w <$> tensors = data <$> ts.
Proof.
  intros Hden. induction Hden as [| r t tensors ts Hr _ IH]; [reflexivity |].
  cbn. rewrite IH. unfold m_data at 1. rewrite Hr. reflexivity.
Qed.

Lemma length_concat_layout {A} (l1 l2 : list (list A)) :
  length <$> l1 = length <$> l2 → length (concat l1) = length (concat l2).
Proof.
  revert l2. induction l1 as [| x l1 IH]; intros [| y l2] H;
    try discriminate; [reflexivity |].
  cbn in H. injection H as Hxy H. cbn. rewrite !length_app, Hxy, (IH _ H).
  reflexivity.
Qed.

Lemma window_concat {A} (ds : list (list A)) i d :
  ds !! i = Some d →
  take (length d) (drop (length (concat (take i ds))) (concat ds)) = d.
Proof.
  intros Hi. rewrite <- (take_drop_middle ds i d Hi) at 2.
  rewrite concat_app. cbn [concat].
  rewrite drop_app_length, take_app_length. reflexivity.
Qed.

Lemma views_of_offset p ts :
  ∀ o i v,
    views_of p o ts !! i = Some v →
    view_offset v = (o + length (concat (data <$> take i ts)))%nat ∧
    ∃ t, ts !! i = Some t ∧ view_numel v = numel t.
Proof.
  induction ts as [| t ts IH]; intros o i v Hv; [destruct i; discriminate |].
  destruct i as [| i]; cbn in Hv.
  - injection Hv as <-. cbn. split; [lia | eauto].
  - destruct (IH _ _ _ Hv) as [Ho Ht]. split; [| exact Ht].
    rewrite Ho. cbn. rewrite length_app. unfold numel. lia.
Qed.

Lemma broadcast_coalesced_tensorwise (group : list cmember) (root : nat)
    mroot :
  (∀ r m, group !! r = Some m →
          ∃ c ts flat, cjoined (length group) r m c ts flat) →
  root_broadcast (cm_flat <$> group) →
  group !! root = Some mroot →
  ∀ r m,
    group !! r = Some m →
    NoDup (cm_tensors m) →
    length <$> (m_data (cm_world m) <$> cm_tensors m)
    = length <$> (m_data (cm_world mroot) <$> cm_tensors mroot) →
    ∃ w',
      broadcast_coalesced (cm_tensors m) (Z.of_nat root) (cm_comm m)
        (cm_world m)
      = (Ret tt, w') ∧
      ∀ i b broot,
        cm_tensors m !! i = Some b →
        cm_tensors mroot !! i = Some broot →
        m_data w' b = m_data (cm_world mroot) broot.
Proof.
  intros Hjoin Hbc Hroot r m Hm Hnd Hlayout.
  assert ((cm_flat <$> group) !! root = Some (cm_flat mroot)) as Hfr.
  { rewrite list_lookup_fmap, Hroot. reflexivity. }
  destruct (broadcast_coalesced_group group root _ Hjoin Hbc Hfr r m Hm)
    as (w' & ts & flat & evs & Hden & Hflat & Hrun & Heff).
  exists w'. split; [exact Hrun |].
  intros i b broot Hb Hbroot.
  destruct (Forall2_lookup_l _ _ _ _ _ Hden Hb) as (t & Ht & _).
  assert (is_Some (views_of (flat_ptr (cm_world m)) 0 ts !! i)) as [v Hv].
  { apply lookup_lt_is_Some. rewrite length_views_of.
    eapply lookup_lt_Some, Ht. }
  unfold m_data at 1.
  rewrite (coalesced_effect_lookup _ _ _ _ _ _ _ _ _ _ _
             Heff Hden Hnd Hb Ht Hv).
  cbn [data with_data].
  destruct (views_of_offset _ _ _ _ _ Hv) as [Ho (t1 & Ht1 & Hn)].
  assert (t1 = t) as -> by congruence.
  rewrite (m_data_denote _ _ _ Hden) in Hlayout.
  set (ds := m_data (cm_world mroot) <$> cm_tensors mroot) in *.
  assert (ds !! i = Some (m_data (cm_world mroot) broot)) as Hd.
  { unfold ds. rewrite list_lookup_fmap, Hbroot. reflexivity. }
  assert (numel t = length (m_data (cm_world mroot) broot)) as Hnum.
  { assert ((length <$> (data <$> ts)) !! i
            = Some (length (m_data (cm_world mroot) broot))) as Hl.
    { rewrite Hlayout, list_lookup_fmap, Hd. reflexivity. }
    rewrite !list_lookup_fmap, Ht in Hl. cbn in Hl.
    injection Hl as Hl. exact Hl. }
  assert (length (concat (data <$> take i ts)) = length (concat (take i ds)))
    as Hoff.
  { apply length_concat_layout. rewrite fmap_take, !fmap_take, Hlayout.
    reflexivity. }
  rewrite Ho, Hn, Hnum, Hoff. cbn [Nat.add].
  unfold cm_flat. fold ds. apply window_concat, Hd.
Qed.

(** ** Further properties: an identifier left in the store *)

Lemma gen_nccl_unique_id_stale comm_type root store s (wf wr : World)
    rf v stale :
  store_handle store wf = Some s →
  store_handle store wr = Some s →
  rank_of wf = inr rf →
  rf ≠ root →
  rank_of wr = inr root →
  store_contents s wf !! unique_id_key comm_type root = Some v →
  str_decode v = Some stale →
  ∃ wf' wr',
    gen_nccl_unique_id comm_type root store wf = (Ret stale, wf') ∧
    gen_nccl_unique_id comm_type root store (with_stores (stores_of wf') wr)
    = (Ret (generate_nccl_unique_id_str (id_seed wr)), wr') ∧
    store_contents s wr' !! unique_id_key comm_type root
    = Some (str_encode (generate_nccl_unique_id_str (id_seed wr))).
Proof.
  intros Hsf Hsr Hrf Hne Hrr Hv Hdec.
  eexists _, _. split; [| split].
  - eapply gen_nccl_unique_id_follower; eassumption.
  - rewrite (gen_nccl_unique_id_leader _ _ store _ s).
    + rewrite id_seed_with_stores. reflexivity.
    + rewrite store_handle_with_stores. exact Hsr.
    + pose proof (rank_of_with_stores (stores_of
                    (log (EvStoreGet s (unique_id_key comm_type root) v) wf))
                    wr) as Hrk.
      unfold rank_of in Hrk. rewrite Hrk. exact Hrr.
  - rewrite store_contents_published. apply lookup_insert_eq.
Qed.

Lemma init_bagua_communicator_no_store stream d w :
  dist_is_initialized w = false →
  init_bagua_communicator stream None (Some d) w
  = (Raise (RuntimeError "Default process group has not been initialized"), w).
Proof.
  intros Hd. unfold init_bagua_communicator, default_device_id.
  rewrite run_bind. cbn [mret M_ret].
  rewrite (bind_raise _ _ _ _ _ (gen_nccl_unique_id_no_store _ _ _ Hd)).
  reflexivity.
Qed.

Lemma init_bagua_inter_communicator_no_store stream leader d w :
  dist_is_initialized w = false →
  init_bagua_inter_communicator stream leader None (Some d) w
  = (Raise (RuntimeError "Default process group has not been initialized"), w).
Proof.
  intros Hd. unfold init_bagua_inter_communicator, default_device_id.
  rewrite run_bind. cbn [mret M_ret].
  rewrite (bind_raise _ _ _ _ _ (gen_nccl_unique_id_no_store _ _ _ Hd)).
  reflexivity.
Qed.

(** ** Further properties: the readers of env.py *)

Lemma int_readers_getenv name d f :
  (name, d, f) ∈ int_readers → f = getenv_int name d.
Proof.
  unfold int_readers. rewrite !elem_of_cons, elem_of_nil.
  intros [H | [H | [H | [H | [H | []]]]]]; injection H as -> -> ->;
    reflexivity.
Qed.

Lemma is_report_metrics_switch_on_run w v :
  environ_int (environ w) "BAGUA_REPORT_METRICS" 0 = inr v →
  is_report_metrics_switch_on w = (Ret (bool_decide (v = 1)), w).
Proof.
  intros H. unfold is_report_metrics_switch_on.
  rewrite (bind_ret _ _ _ _ _ (getenv_int_run _ _ _ _ H)). reflexivity.
Qed.

Lemma is_report_metrics_switch_on_pure w r w' :
  is_report_metrics_switch_on w = (r, w') → w' = w.
Proof.
  unfold is_report_metrics_switch_on, getenv_int. rewrite !run_bind.
  cbn [gets]. destruct (environ_int (environ w) "BAGUA_REPORT_METRICS" 0);
    cbn; intros [= _ <-]; reflexivity.
Qed.

Lemma get_state_attr_none w :
  _global_state w = None →
  (∃ msg, get_bagua_hyperparameters w = (Raise (AttributeError msg), w)) ∧
  (∃ msg,
     get_hyperparameters_service_client w = (Raise (AttributeError msg), w)).
Proof.
  intros H. unfold get_bagua_hyperparameters,
    get_hyperparameters_service_client.
  rewrite !run_bind. cbn [gets]. rewrite H. split; eexists; reflexivity.
Qed.

Lemma get_state_attr_some w g :
  _global_state w = Some g →
  get_bagua_hyperparameters w = (Ret (hyperparameters g), w) ∧
  get_hyperparameters_service_client w
  = (Ret (hyperparameters_service_client g), w).
Proof.
  intros H. unfold get_bagua_hyperparameters,
    get_hyperparameters_service_client.
  rewrite !run_bind. cbn [gets]. rewrite H. split; reflexivity.
Qed.

(** ** Further properties: all-reduce of a list, tensor by tensor *)

Lemma window_elementwise (add : elt → elt → elt) (o n : nat) bufs :
  take n (drop o (elementwise add bufs))
  = elementwise add ((λ d, take n (drop o d)) <$> bufs).
Proof.
  destruct bufs as [| b bs]; cbn.
  { rewrite drop_nil, take_nil. reflexivity. }
  revert b. induction bs as [| x bs IH]; intros b; cbn; [reflexivity |].
  rewrite IH, zip_with_drop, zip_with_take. reflexivity.
Qed.

Lemma window_averaged (average : bool) N (o n : nat) (total : list elt) :
  take n (drop o (averaged average N total))
  = averaged average N (take n (drop o total)).
Proof.
  unfold averaged, divided. destruct average; [| reflexivity].
  rewrite fmap_take, fmap_drop. reflexivity.
Qed.

Lemma cm_flat_window (m m0 : cmember) i d0 :
  length <$> (m_data (cm_world m) <$> cm_tensors m)
  = length <$> (m_data (cm_world m0) <$> cm_tensors m0) →
  (m_data (cm_world m0) <$> cm_tensors m0) !! i = Some d0 →
  take (length d0)
    (drop (length (concat (take i (m_data (cm_world m0) <$> cm_tensors m0))))
       (cm_flat m))
  = cm_data i m.
Proof.
  intros Hlayout Hd0. unfold cm_flat, cm_data.
  set (ds := m_data (cm_world m) <$> cm_tensors m) in *.
  set (ds0 := m_data (cm_world m0) <$> cm_tensors m0) in *.
  assert ((length <$> ds) !! i = Some (length d0)) as Hl.
  { rewrite Hlayout, list_lookup_fmap, Hd0. reflexivity. }
  rewrite list_lookup_fmap in Hl.
  destruct (ds !! i) as [d |] eqn:Hd; [| discriminate Hl].
  cbn in Hl. injection Hl as Hl. cbn [default].
  rewrite <- Hl.
  replace (length (concat (take i ds0))) with (length (concat (take i ds))).
  - apply window_concat, Hd.
  - apply length_concat_layout. rewrite !fmap_take, Hlayout. reflexivity.
Qed.

Lemma allreduce_coalesced_tensorwise add (group : list cmember)
    (average : bool) :
  (∀ r m, group !! r = Some m →
          ∃ c ts flat, cjoined (length group) r m c ts flat) →
  sum_reduction add (cm_flat <$> group) →
  ∀ r m,
    group !! r = Some m →
    NoDup (cm_tensors m) →
    (∀ j m', group !! j = Some m' →
             length <$> (m_data (cm_world m') <$> cm_tensors m')
             = length <$> (m_data (cm_world m) <$> cm_tensors m)) →
    ∃ w',
      allreduce_coalesced (cm_tensors m) (cm_comm m) average (cm_world m)
      = (Ret tt, w') ∧
      ∀ i b,
        cm_tensors m !! i = Some b →
        m_data w' b
        = averaged average (length group)
            (elementwise add (cm_data i <$> group)).
Proof.
  intros Hjoin Hsum r m Hm Hnd Hlayout.
  destruct (allreduce_coalesced_group add group average Hjoin Hsum r m Hm)
    as (w' & ts & flat & evs & Hden & Hflat & Hrun & Heff).
  exists w'. split; [exact Hrun |].
  intros i b Hb.
  destruct (Forall2_lookup_l _ _ _ _ _ Hden Hb) as (t & Ht & _).
  assert (is_Some (views_of (flat_ptr (cm_world m)) 0 ts !! i)) as [v Hv].
  { apply lookup_lt_is_Some. rewrite length_views_of.
    eapply lookup_lt_Some, Ht. }
  unfold m_data at 1.
  rewrite (coalesced_effect_lookup _ _ _ _ _ _ _ _ _ _ _
             Heff Hden Hnd Hb Ht Hv).
  cbn [data with_data].
  destruct (views_of_offset _ _ _ _ _ Hv) as [Ho (t1 & Ht1 & Hn)].
  assert (t1 = t) as -> by congruence.
  rewrite window_averaged, window_elementwise. f_equal. f_equal.
  rewrite <- list_fmap_compose. apply list_fmap_ext.
  intros j m' Hm'. cbn [compose].
  rewrite Ho, Hn. cbn [Nat.add]. unfold numel.
  rewrite fmap_take, <- (m_data_denote _ _ _ Hden).
  apply cm_flat_window; [exact (Hlayout j m' Hm') |].
  rewrite (m_data_denote _ _ _ Hden), list_lookup_fmap, Ht. reflexivity.
Qed.

(** ** Further properties: a local size of zero *)

Section NoFaultsEntry.
Hypothesis no_faults : ∀ c, faults c = None.

Lemma choose_store_run init_method scheme rest s w r ws lr ls :
  split init_method "://" = scheme :: rest →
  chosen_store init_method ws = Some s →
  configured w r ws lr ls →
  scheme ∈ ["dist"; "file"] ∧
  ∃ w0,
    choose_store scheme (scheme :: rest) w = (Ret s, w0) ∧
    rendezvous_frame s "" w w0 ∧
    store_contents s w0 = store_contents s w.
Proof.
  intros Hsplit Hs Hc. unfold chosen_store in Hs. rewrite Hsplit in Hs.
  unfold choose_store. destruct (bool_decide (scheme = "file")) eqn:Hfile.
  - apply bool_decide_eq_true in Hfile. subst scheme.
    split; [apply elem_of_cons; right; apply elem_of_cons; left; reflexivity |].
    destruct rest as [| path rest]; [discriminate |].
    injection Hs as <-.
    rewrite run_bind. cbn [index lookup list_lookup mret M_ret].
    rewrite (bind_ret _ _ _ _ _ (get_world_size_run _ _ _ _ _ Hc)).
    rewrite (bind_ret _ _ _ _ _ (extcall_run _ _ (no_faults _))).
    eexists. split; [reflexivity |]. split; [apply frame_log |].
    apply store_contents_log.
  - destruct (bool_decide (scheme = "dist")) eqn:Hdist; [| discriminate].
    apply bool_decide_eq_true in Hdist. subst scheme.
    split; [apply elem_of_cons; left; reflexivity |].
    injection Hs as <-. rewrite run_bind. unfold gets.
    destruct (dist_is_initialized w) eqn:Hd.
    + rewrite run_bind. cbn [mret M_ret]. unfold _get_default_store.
      rewrite Hd. eexists. split; [reflexivity |].
      split; [apply frame_refl | done].
    + rewrite !run_bind, (extcall_run _ _ (no_faults _)).
      cbn [modify]. unfold _get_default_store. cbn.
      eexists. split; [reflexivity |]. split.
      * eapply frame_trans; [apply frame_log | apply frame_set_dist].
      * reflexivity.
Qed.

(** With the store chosen, initialisation is the construction of the state
    followed by the assignment of the global. *)
Lemma init_process_group_enters init_method device_id s w r ws lr ls :
  _global_state w = None →
  chosen_store init_method ws = Some s →
  configured w r ws lr ls →
  ∃ w0,
    rendezvous_frame s "" w w0 ∧
    store_contents s w0 = store_contents s w ∧
    init_process_group init_method device_id w
    = (new_BaguaGlobalState (Some s) device_id
       ≫= λ state, modify (set_global_state (Some state))) w0.
Proof.
  intros Hnone Hs Hc.
  destruct (split_nonempty init_method "://") as (scheme & rest & Hsplit).
  destruct (choose_store_run _ _ _ _ _ _ _ _ _ Hsplit Hs Hc)
    as (Hin & w0 & Hch & Hfr & Hst).
  exists w0. split; [exact Hfr |]. split; [exact Hst |].
  unfold init_process_group. rewrite run_bind.
  unfold is_initialized, gets. rewrite bool_decide_false by (rewrite Hnone; auto).
  rewrite Hsplit. rewrite run_bind. cbn [index lookup list_lookup mret M_ret].
  rewrite bool_decide_false by (intros Hn; exact (Hn Hin)).
  change (if bool_decide (scheme = "file") then _ else _)
    with (choose_store scheme (scheme :: rest)).
  rewrite (bind_ret _ _ _ _ _ Hch). reflexivity.
Qed.

Lemma new_BaguaGlobalState_zero_local_size s device_id w r ws lr :
  configured w r ws lr 0 →
  obtainable s w r "bagua_inter_comm" 0 →
  ∃ w',
    new_BaguaGlobalState (Some s) device_id w = (Raise ZeroDivisionError, w') ∧
    available s w' (unique_id_key "bagua_inter_comm" 0).
Proof.
  intros Hc Hinter. unfold new_BaguaGlobalState.
  rewrite (bind_ret _ _ _ _ _ (default_device_id_run device_id _ _ _ _ _ Hc)).
  rewrite (bind_ret _ _ _ _ _ (extcall_run _ _ (no_faults _))).
  rewrite (bind_ret _ _ _ _ _ (new_cuda_stream_run _ _ (no_faults _))).
  rewrite (bind_ret _ _ _ _ _ (extcall_run _ _ (no_faults _))).
  unfold get_autotune_server_addr. rewrite run_bind. cbn [gets].
  rewrite (bind_ret _ _ _ _ _ (extcall_run _ _ (no_faults _))).
  match goal with
  | |- context [(init_bagua_inter_communicator ?y _ _ _ ≫= _) ?x] =>
      set (w0 := x); set (strm := y)
  end.
  assert (rendezvous_frame s "" w w0) as Hfr0.
  { unfold w0.
    repeat (eapply frame_trans;
            [| first [apply frame_log | apply frame_set_next_handle]]).
    apply frame_refl. }
  assert (store_contents s w0 = store_contents s w) as Hst0.
  { unfold w0.
    rewrite !store_contents_log, store_contents_set_next_handle,
      !store_contents_log. reflexivity. }
  assert (obtainable s w0 r "bagua_inter_comm" 0) as Hob0.
  { destruct Hinter as [-> | (v & id & Hv & Hid)]; [left; reflexivity |].
    right. exists v, id. rewrite Hst0. done. }
  pose proof (frame_configured _ _ _ _ _ _ _ _ Hfr0 Hc) as Hc0.
  destruct (gen_nccl_unique_id_completes _ _ (Some s) _ _ _
              eq_refl (cfg_rank _ _ _ _ _ Hc0) Hob0)
    as (id & w1 & Hgen & Hfr1).
  pose proof (gen_nccl_unique_id_available _ _ (Some s) _ _ _ _ _
                eq_refl (cfg_rank _ _ _ _ _ Hc0) Hgen) as Hav.
  pose proof (frame_configured _ _ _ _ _ _ _ _ Hfr1 Hc0) as Hc1.
  assert (init_bagua_inter_communicator strm 0 (Some s)
            (Some (default lr device_id)) w0
          = (Raise ZeroDivisionError, w1)) as Hinit.
  { unfold init_bagua_inter_communicator.
    rewrite (bind_ret _ _ _ _ _
               (default_device_id_run (Some (default lr device_id))
                  _ _ _ _ _ Hc0)).
    rewrite (bind_ret _ _ _ _ _ Hgen).
    rewrite (bind_ret _ _ _ _ _ (get_rank_run _ _ _ _ _ Hc1)).
    rewrite (bind_ret _ _ _ _ _ (get_local_size_run _ _ _ _ _ Hc1)).
    reflexivity. }
  exists w1. split; [| exact Hav].
  rewrite (bind_raise _ _ _ _ _ Hinit). reflexivity.
Qed.

Lemma init_process_group_zero_local_size init_method device_id s w r ws lr :
  _global_state w = None →
  chosen_store init_method ws = Some s →
  configured w r ws lr 0 →
  obtainable s w r "bagua_inter_comm" 0 →
  ∃ w',
    init_process_group init_method device_id w
    = (Raise ZeroDivisionError, w') ∧
    _global_state w' = None ∧
    available s w' (unique_id_key "bagua_inter_comm" 0).
Proof.
  intros Hnone Hs Hc Hinter.
  destruct (init_process_group_enters init_method device_id _ _ _ _ _ _
              Hnone Hs Hc) as (w0 & Hfr & Hst & Hrun).
  assert (obtainable s w0 r "bagua_inter_comm" 0) as Hob0.
  { destruct Hinter as [-> | (v & id & Hv & Hid)]; [left; reflexivity |].
    right. exists v, id. rewrite Hst. done. }
  destruct (new_BaguaGlobalState_zero_local_size s device_id w0 r ws lr
              (frame_configured _ _ _ _ _ _ _ _ Hfr Hc) Hob0)
    as (w' & Hnew & Hav).
  exists w'. rewrite (bind_raise _ _ _ _ _ Hnew) in Hrun.
  split; [exact Hrun |]. split; [| exact Hav].
  rewrite (init_process_group_failed _ _ _ _ _ Hrun I). exact Hnone.
Qed.

End NoFaultsEntry.

(** ** Further properties: the identifiers after a bootstrap in turn *)

Lemma holds_same s w w' key id :
  store_contents s w' !! key = store_contents s w !! key →
  holds s w key id → holds s w' key id.
Proof. intros He (v & Hv & Hd). exists v. rewrite He. done. Qed.

Lemma shared_holds_inj s st key id id' :
  shared_holds s st key id → shared_holds s st key id' → id = id'.
Proof. intros (v & Hv & Hd) (v' & Hv' & Hd'). congruence. Qed.

Lemma holds_with_stores s st w key id :
  holds s (with_stores st w) key id ↔ shared_holds s st key id.
Proof.
  unfold holds, shared_holds. rewrite store_contents_with_stores.
  reflexivity.
Qed.

Lemma shared_holds_stores_of s w key id :
  shared_holds s (stores_of w) key id ↔ holds s w key id.
Proof.
  unfold holds, shared_holds. rewrite shared_contents_stores_of.
  reflexivity.
Qed.

Lemma gen_nccl_unique_id_holds comm_type root store s w r id w1 :
  store_handle store w = Some s →
  rank_of w = inr r →
  gen_nccl_unique_id comm_type root store w = (Ret id, w1) →
  holds s w1 (unique_id_key comm_type root) id ∧
  ∀ k, k ≠ unique_id_key comm_type root ∨ r ≠ root →
       store_contents s w1 !! k = store_contents s w !! k.
Proof.
  intros Hs Hr Hgen.
  destruct (gen_nccl_unique_id_returns _ _ _ _ _ _ _ _ Hs Hr Hgen)
    as [(-> & -> & ->) | (Hne & v & Hv & Hd & ->)].
  - split.
    + exists (str_encode (generate_nccl_unique_id_str (id_seed w))).
      rewrite store_contents_published, lookup_insert_eq.
      split; [reflexivity | apply str_decode_encode].
    + intros k [Hk | Hk]; [| contradiction].
      rewrite store_contents_published, lookup_insert_ne by congruence.
      rewrite store_contents_generated. reflexivity.
  - split.
    + exists v. rewrite store_contents_log. done.
    + intros k _. rewrite store_contents_log. reflexivity.
Qed.

Lemma init_bagua_inter_communicator_holds stream leader store s
    device_id w r ws lr ls res w' :
  configured w r ws lr ls →
  store_handle store w = Some s →
  init_bagua_inter_communicator stream leader store device_id w
  = (Ret res, w') →
  (∀ c, res = Some c →
        holds s w' (unique_id_key "bagua_inter_comm" leader)
          (nccl_unique_id_str c)) ∧
  (∀ k, k ≠ unique_id_key "bagua_inter_comm" leader ∨ r ≠ leader →
        store_contents s w' !! k = store_contents s w !! k).
Proof.
  intros Hc Hs H.
  destruct (init_bagua_inter_communicator_returns _ _ _ _ _ _ _ _ _ _ _ Hc H)
    as (id & w1 & Hgen & _ & Hres).
  destruct (gen_nccl_unique_id_holds _ _ _ _ _ _ _ _
              Hs (cfg_rank _ _ _ _ _ Hc) Hgen) as [Hh Ht].
  destruct res as [c |].
  - destruct Hres as (_ & -> & ->). unfold constructed. split.
    + intros c' [= <-]. cbn.
      eapply holds_same; [apply (f_equal (.!! _)), store_contents_log | exact Hh].
    + intros k Hk. rewrite store_contents_log. exact (Ht k Hk).
  - destruct Hres as [_ ->]. split; [discriminate | exact Ht].
Qed.

Lemma init_bagua_intra_communicator_holds stream s d w r ws lr ls c w' :
  configured w r ws lr ls →
  init_bagua_intra_communicator stream (Some s) (Some d) w = (Ret c, w') →
  holds s w' (unique_id_key "bagua_intra_comm" (r `div` ls * ls))
    (nccl_unique_id_str c) ∧
  (∀ k, k ≠ unique_id_key "bagua_intra_comm" (r `div` ls * ls) ∨
        r ≠ r `div` ls * ls →
        store_contents s w' !! k = store_contents s w !! k).
Proof.
  intros Hc H. unfold init_bagua_intra_communicator in H.
  rewrite (bind_ret _ _ _ _ _ (default_device_id_run (Some d) _ _ _ _ _ Hc)) in H.
  rewrite (bind_ret _ _ _ _ _ (get_rank_run _ _ _ _ _ Hc)) in H.
  rewrite (bind_ret _ _ _ _ _ (get_local_size_run _ _ _ _ _ Hc)) in H.
  destruct (decide (ls = 0)) as [-> | Hls]; [discriminate H |].
  rewrite (py_floordiv_run _ _ Hls) in H. rewrite run_bind in H.
  cbn [lift_sum mret M_ret] in H.
  rewrite (bind_ret _ _ _ _ _ (get_local_size_run _ _ _ _ _ Hc)) in H.
  apply bind_ret_inv in H as (id & w1 & Hgen & H).
  destruct (gen_nccl_unique_id_holds _ _ (Some s) _ _ _ _ _
              eq_refl (cfg_rank _ _ _ _ _ Hc) Hgen) as [Hh Ht].
  pose proof (gen_nccl_unique_id_configured _ _ _ _ _ _ _ _ _ _ Hgen Hc) as Hc1.
  rewrite (bind_ret _ _ _ _ _ (get_rank_run _ _ _ _ _ Hc1)) in H.
  rewrite (bind_ret _ _ _ _ _ (get_local_size_run _ _ _ _ _ Hc1)) in H.
  rewrite (py_mod_run _ _ Hls) in H. rewrite run_bind in H.
  cbn [lift_sum mret M_ret] in H.
  rewrite (bind_ret _ _ _ _ _ (get_local_size_run _ _ _ _ _ Hc1)) in H.
  apply new_communicator_inv in H as [-> ->]. unfold constructed. split.
  - cbn. eapply holds_same;
      [apply (f_equal (.!! _)), store_contents_log | exact Hh].
  - intros k Hk. rewrite store_contents_log. exact (Ht k Hk).
Qed.

Lemma init_bagua_communicator_holds stream s d w r ws lr ls c w' :
  configured w r ws lr ls →
  init_bagua_communicator stream (Some s) (Some d) w = (Ret c, w') →
  holds s w' (unique_id_key "bagua_global_comm" 0)
    (nccl_unique_id_str c) ∧
  (∀ k, k ≠ unique_id_key "bagua_global_comm" 0 ∨ r ≠ 0 →
        store_contents s w' !! k = store_contents s w !! k).
Proof.
  intros Hc H. unfold init_bagua_communicator in H.
  rewrite (bind_ret _ _ _ _ _ (default_device_id_run (Some d) _ _ _ _ _ Hc)) in H.
  apply bind_ret_inv in H as (id & w1 & Hgen & H).
  destruct (gen_nccl_unique_id_holds _ _ (Some s) _ _ _ _ _
              eq_refl (cfg_rank _ _ _ _ _ Hc) Hgen) as [Hh Ht].
  pose proof (gen_nccl_unique_id_configured _ _ _ _ _ _ _ _ _ _ Hgen Hc) as Hc1.
  rewrite (bind_ret _ _ _ _ _ (get_rank_run _ _ _ _ _ Hc1)) in H.
  rewrite (bind_ret _ _ _ _ _ (get_world_size_run _ _ _ _ _ Hc1)) in H.
  apply new_communicator_inv in H as [-> ->]. unfold constructed. split.
  - cbn. eapply holds_same;
      [apply (f_equal (.!! _)), store_contents_log | exact Hh].
  - intros k Hk. rewrite store_contents_log. exact (Ht k Hk).
Qed.

Lemma store_contents_extcall s c w x w' :
  extcall c w = (Ret x, w') → store_contents s w' = store_contents s w.
Proof.
  unfold extcall. destruct (faults c); intros H; [discriminate H |].
  injection H as _ <-. apply store_contents_log.
Qed.

Lemma store_contents_new_cuda_stream s p w strm w' :
  new_cuda_stream p w = (Ret strm, w') →
  store_contents s w' = store_contents s w.
Proof.
  intros H. unfold new_cuda_stream in H.
  apply bind_ret_inv in H as ([] & wa & Ha & H).
  apply bind_ret_inv in H as (h & wb & Hb & H).
  apply bind_ret_inv in H as ([] & wc & Hc & H).
  injection H as _ <-. injection Hb as _ <-. injection Hc as <-.
  rewrite store_contents_set_next_handle.
  exact (store_contents_extcall _ _ _ _ _ Ha).
Qed.

Lemma not_roots r ls key :
  ¬ roots r ls key →
  (key ≠ unique_id_key "bagua_inter_comm" 0 ∨ r ≠ 0) ∧
  (key ≠ unique_id_key "bagua_intra_comm" (r `div` ls * ls) ∨
   r ≠ r `div` ls * ls) ∧
  (key ≠ unique_id_key "bagua_global_comm" 0 ∨ r ≠ 0).
Proof.
  intros Hn. unfold roots in Hn. repeat split.
  - destruct (decide (key = unique_id_key "bagua_inter_comm" 0));
      [| left; assumption].
    destruct (decide (r = 0)); [| right; assumption]. exfalso. auto.
  - destruct (decide (key = unique_id_key "bagua_intra_comm"
                              (r `div` ls * ls))); [| left; assumption].
    destruct (decide (r = r `div` ls * ls)); [| right; assumption].
    exfalso. auto.
  - destruct (decide (key = unique_id_key "bagua_global_comm" 0));
      [| left; assumption].
    destruct (decide (r = 0)); [| right; assumption]. exfalso. auto.
Qed.

Lemma new_BaguaGlobalState_identifies s device_id w r ws lr ls g w' :
  configured w r ws lr ls →
  new_BaguaGlobalState (Some s) device_id w = (Ret g, w') →
  holds s w' (unique_id_key "bagua_global_comm" 0)
    (nccl_unique_id_str (global_communicator g)) ∧
  holds s w' (unique_id_key "bagua_intra_comm" (r `div` ls * ls))
    (nccl_unique_id_str (intranode_communicator g)) ∧
  (∀ c, internode_communicator g = Some c →
        holds s w' (unique_id_key "bagua_inter_comm" 0)
          (nccl_unique_id_str c)) ∧
  (∀ key id, holds s w key id → ¬ roots r ls key → holds s w' key id).
Proof.
  intros Hc H. unfold new_BaguaGlobalState in H.
  apply bind_ret_inv in H as (d & w0 & Hd & H).
  pose proof (default_device_id_inv _ _ _ _ Hd) as [-> _].
  apply bind_ret_inv in H as ([] & w1 & H1 & H).
  apply bind_ret_inv in H as (strm & w2 & H2 & H).
  apply bind_ret_inv in H as ([] & w3 & H3 & H).
  apply bind_ret_inv in H as (addr & w4 & H4 & H).
  apply bind_ret_inv in H as ([] & w5 & H5 & H).
  apply bind_ret_inv in H as (inter & w6 & H6 & H).
  apply bind_ret_inv in H as (intra & w7 & H7 & H).
  apply bind_ret_inv in H as (glob & w8 & H8 & H).
  injection H as <- <-. cbn.
  unfold get_autotune_server_addr, gets in H4. injection H4 as _ <-.
  assert (environ w5 = environ w) as Henv.
  { rewrite (keeps_extcall _ blind_environ _ _ _ _ H5).
    rewrite (keeps_extcall _ blind_environ _ _ _ _ H3).
    rewrite (keeps_new_cuda_stream _ blind_environ _ _ _ _ H2).
    rewrite (keeps_extcall _ blind_environ _ _ _ _ H1). reflexivity. }
  assert (store_contents s w5 = store_contents s w) as Hst.
  { rewrite (store_contents_extcall _ _ _ _ _ H5).
    rewrite (store_contents_extcall _ _ _ _ _ H3).
    rewrite (store_contents_new_cuda_stream _ _ _ _ _ H2).
    rewrite (store_contents_extcall _ _ _ _ _ H1). reflexivity. }
  pose proof (configured_environ _ _ _ _ _ _ Henv Hc) as Hc5.
  destruct (init_bagua_inter_communicator_holds _ _ (Some s) s _ _ _ _ _ _ _ _
              Hc5 eq_refl H6) as [Hh6 Ht6].
  pose proof (configured_environ _ _ _ _ _ _
                (keeps_inter _ blind_environ _ _ _ _ _ _ _ H6) Hc5) as Hc6.
  destruct (init_bagua_intra_communicator_holds _ _ _ _ _ _ _ _ _ _ Hc6 H7)
    as [Hh7 Ht7].
  pose proof (configured_environ _ _ _ _ _ _
                (keeps_intra _ blind_environ _ _ _ _ _ _ H7) Hc6) as Hc7.
  destruct (init_bagua_communicator_holds _ _ _ _ _ _ _ _ _ _ Hc7 H8)
    as [Hh8 Ht8].
  split; [exact Hh8 |]. split.
  { eapply holds_same; [| exact Hh7]. apply Ht8. left.
    apply not_eq_sym, key_global_intra. }
  split.
  { intros c Hsome. eapply holds_same; [| eapply holds_same; [| exact (Hh6 c Hsome)]].
    - apply Ht8. left. apply not_eq_sym, key_global_inter.
    - apply Ht7. left. apply not_eq_sym, key_intra_inter. }
  intros key id Hh Hn. destruct (not_roots _ _ _ Hn) as (N1 & N2 & N3).
  eapply holds_same; [apply (Ht8 key N3) |].
  eapply holds_same; [apply (Ht7 key N2) |].
  eapply holds_same; [apply (Ht6 key N1) |].
  eapply holds_same; [| exact Hh]. rewrite Hst. reflexivity.
Qed.

Lemma store_contents_choose_store s scheme metas w st w' :
  choose_store scheme metas w = (Ret st, w') →
  store_contents s w' = store_contents s w.
Proof.
  intros H. unfold choose_store in H.
  destruct (bool_decide (scheme = "file")).
  - apply bind_ret_inv in H as (path & w0 & Hp & H).
    apply bind_ret_inv in H as (n & w1 & Hn & H).
    apply bind_ret_inv in H as ([] & w2 & Hx & H).
    injection H as _ <-.
    rewrite (store_contents_extcall _ _ _ _ _ Hx).
    unfold get_world_size in Hn. apply getenv_int_pure in Hn as ->.
    unfold index in Hp. destruct (metas !! 1%nat); [| discriminate Hp].
    injection Hp as _ <-. reflexivity.
  - apply bind_ret_inv in H as (started & w0 & Hg & H).
    injection Hg as _ <-.
    apply bind_ret_inv in H as ([] & w1 & Hi & H).
    unfold _get_default_store in H.
    destruct (dist_is_initialized w1); [| discriminate H].
    injection H as _ <-.
    destruct started.
    + injection Hi as <-. reflexivity.
    + apply bind_ret_inv in Hi as ([] & w2 & Hx & Hi).
      injection Hi as <-. rewrite store_contents_set_dist.
      exact (store_contents_extcall _ _ _ _ _ Hx).
Qed.

Lemma init_process_group_identifies init_method device_id s w w'
    r ws lr ls :
  configured w r ws lr ls →
  chosen_store init_method ws = Some s →
  init_process_group init_method device_id w = (Ret tt, w') →
  ∃ g,
    _global_state w' = Some g ∧
    holds s w' (unique_id_key "bagua_global_comm" 0)
      (nccl_unique_id_str (global_communicator g)) ∧
    holds s w' (unique_id_key "bagua_intra_comm" (r `div` ls * ls))
      (nccl_unique_id_str (intranode_communicator g)) ∧
    (∀ c, internode_communicator g = Some c →
          holds s w' (unique_id_key "bagua_inter_comm" 0)
            (nccl_unique_id_str c)) ∧
    (∀ key id, holds s w key id → ¬ roots r ls key → holds s w' key id).
Proof.
  intros Hc Hs H. unfold init_process_group in H.
  apply bind_ret_inv in H as (b & w0 & Hb & H).
  unfold is_initialized, gets in Hb. injection Hb as <- <-.
  destruct (bool_decide (_global_state w ≠ None)); [discriminate |].
  apply bind_ret_inv in H as (scheme & w1 & Hsch & H). cbv beta in H.
  unfold index in Hsch.
  destruct (split init_method "://") as [| scheme' rest] eqn:Hsplit;
    [discriminate Hsch |].
  injection Hsch as <- <-.
  destruct (bool_decide (scheme' ∉ ["dist"; "file"])) eqn:Hin;
    [discriminate |].
  apply bool_decide_eq_false in Hin. apply dec_stable in Hin.
  change (if bool_decide (scheme' = "file") then _ else _)
    with (choose_store scheme' (scheme' :: rest)) in H.
  apply bind_ret_inv in H as (st & w2 & Hst & H).
  apply bind_ret_inv in H as (g & w3 & Hg & H).
  injection H as <-.
  pose proof (choose_store_chosen _ _ _ _ _ _ _ _ _ _ Hsplit Hin Hc Hst) as Hch.
  assert (st = s) as -> by congruence.
  pose proof (keeps_choose_store environ _ _ blind_environ _ _ _ Hst) as Henv.
  pose proof (store_contents_choose_store s _ _ _ _ _ Hst) as Hcont.
  destruct (new_BaguaGlobalState_identifies s device_id w2 r ws lr ls g w3
              (configured_environ _ _ _ _ _ _ Henv Hc) Hg)
    as (Hglob & Hintra & Hinter & Hkeep).
  assert (∀ key id, holds s w3 key id →
                    holds s (set_global_state (Some g) w3) key id) as Hset.
  { intros key id (v & Hv & Hd). exists v. split; [| exact Hd].
    destruct s, w3; exact Hv. }
  exists g. split; [destruct w3; reflexivity |].
  split; [apply Hset, Hglob |]. split; [apply Hset, Hintra |].
  split; [intros c Hsome; apply Hset, Hinter, Hsome |].
  intros key id Hh Hn. apply Hset, Hkeep; [| exact Hn].
  eapply holds_same; [| exact Hh]. rewrite Hcont. reflexivity.
Qed.

Lemma later_rank_not_root (k j : nat) ls key :
  0 < ls →
  (k < j)%nat →
  key = unique_id_key "bagua_inter_comm" 0 ∨
  key = unique_id_key "bagua_global_comm" 0 ∨
  key = unique_id_key "bagua_intra_comm" (Z.of_nat k `div` ls * ls) →
  ¬ roots (Z.of_nat j) ls key.
Proof.
  intros Hls Hkj Hkey [[Hj _] | [[Hj Hk] | [Hj _]]]; [lia | | lia].
  destruct Hkey as [-> | [-> | ->]].
  - exact (key_intra_inter _ _ (eq_sym Hk)).
  - exact (key_global_intra _ _ Hk).
  - apply unique_id_key_inj_root in Hk.
    pose proof (node_root_below (Z.of_nat k) ls ltac:(lia) Hls). lia.
Qed.

Section InTurnIdentified.
Hypothesis no_faults : ∀ c, faults c = None.

Lemma run_in_turn_identified init_method device_id s ws ls :
  chosen_store init_method ws = Some s →
  0 < ls →
  ∀ procs (k : nat) st,
    ready s ls k st →
    (∀ i w, procs !! i = Some w →
            _global_state w = None ∧
            ∃ lr, configured w (Z.of_nat (k + i)) ws lr ls) →
    (∀ key id,
       shared_holds s st key id →
       (∀ j, (k ≤ j)%nat → ¬ roots (Z.of_nat j) ls key) →
       shared_holds s
         (stores_after (init_process_group init_method device_id) st procs)
         key id) ∧
    ∀ i rw,
      run_in_turn (init_process_group init_method device_id) st procs !! i
      = Some rw →
      ∃ g, _global_state rw.2 = Some g ∧
           identified s
             (stores_after (init_process_group init_method device_id)
                st procs)
             g (Z.of_nat (k + i)) ls.
Proof.
  intros Hs Hls.
  induction procs as [| w procs IH]; intros k st Hready Hprocs.
  { split; [intros key id Hh _; exact Hh |].
    intros i rw Hi. destruct i; discriminate Hi. }
  destruct (Hprocs 0%nat w eq_refl) as (Hnone & lr & Hc).
  rewrite Nat.add_0_r in Hc.
  assert (configured (with_stores st w) (Z.of_nat k) ws lr ls) as Hc'.
  { eapply configured_environ; [| exact Hc]. reflexivity. }
  pose proof Hready as [Hfirst Hnodes].
  assert (∀ ct, (ct = "bagua_inter_comm" ∨ ct = "bagua_global_comm") →
                obtainable s (with_stores st w) (Z.of_nat k) ct 0) as Hzero.
  { intros ct Hct. destruct k as [| k'].
    - left. reflexivity.
    - right. apply available_with_stores.
      destruct (Hfirst ltac:(lia)) as [H1 H2].
      destruct Hct as [-> | ->]; assumption. }
  pose proof (node_root_below (Z.of_nat k) ls ltac:(lia) Hls) as Hroot.
  assert (obtainable s (with_stores st w) (Z.of_nat k) "bagua_intra_comm"
            (Z.of_nat k `div` ls * ls)) as Hintra.
  { destruct (decide (Z.of_nat k = Z.of_nat k `div` ls * ls)) as [He | Hne].
    - left. exact He.
    - right. apply available_with_stores. apply Hnodes. lia. }
  destruct (init_process_group_publishes no_faults init_method device_id s
              (with_stores st w) (Z.of_nat k) ws lr ls
              Hnone Hs Hc' ltac:(lia)
              (Hzero _ (or_introl eq_refl)) Hintra
              (Hzero _ (or_intror eq_refl)))
    as (g & w' & Hrun & Hg & Htopo & Ha1 & Ha2 & Ha3 & Hkeep).
  destruct (init_process_group_identifies _ _ _ _ _ _ _ _ _ Hc' Hs Hrun)
    as (g' & Hg' & Hglob & Hintra' & Hinter' & Hpres).
  assert (g' = g) as -> by congruence.
  assert (ready s ls (S k) (stores_of w')) as Hready'.
  { split.
    - intros _. split; apply shared_available_stores_of; assumption.
    - intros m Hm. apply shared_available_stores_of.
      destruct (decide (m * ls < Z.of_nat k)) as [Hlt | Hge].
      + apply Hkeep, available_with_stores, Hnodes. lia.
      + assert (m * ls = Z.of_nat k) as He by lia.
        rewrite <- He in Ha2.
        rewrite Z.div_mul in Ha2 by lia. exact Ha2. }
  assert (∀ i w0, procs !! i = Some w0 →
                  _global_state w0 = None ∧
                  ∃ lr0, configured w0 (Z.of_nat (S k + i)) ws lr0 ls)
    as Hprocs'.
  { intros j wj Hj.
    replace (S k + j)%nat with (k + S j)%nat by lia.
    apply (Hprocs (S j) wj Hj). }
  destruct (IH (S k) (stores_of w') Hready' Hprocs') as [IHkeep IHruns].
  assert (stores_after (init_process_group init_method device_id) st
            (w :: procs)
          = stores_after (init_process_group init_method device_id)
              (stores_of w') procs) as HF.
  { cbn [stores_after]. rewrite Hrun. reflexivity. }
  rewrite HF. split.
  - intros key id Hh Hn. apply IHkeep.
    + apply shared_holds_stores_of, Hpres; [apply holds_with_stores, Hh |].
      apply Hn. lia.
    + intros j Hj. apply Hn. lia.
  - intros i rw Hi. cbn [run_in_turn] in Hi. rewrite Hrun in Hi.
    cbn [snd] in Hi.
    destruct i as [| i].
    + injection Hi as <-. rewrite Nat.add_0_r. cbn [snd].
      exists g. split; [exact Hg |].
      assert (∀ key id,
                holds s w' key id →
                key = unique_id_key "bagua_inter_comm" 0 ∨
                key = unique_id_key "bagua_global_comm" 0 ∨
                key = unique_id_key "bagua_intra_comm"
                        (Z.of_nat k `div` ls * ls) →
                shared_holds s
                  (stores_after (init_process_group init_method device_id)
                     (stores_of w') procs) key id)
        as Hlift.
      { intros key id Hh Hkey. apply IHkeep.
        - apply shared_holds_stores_of, Hh.
        - intros j Hj. apply (later_rank_not_root k j ls key Hls);
            [lia | exact Hkey]. }
      split.
      * apply Hlift; [exact Hglob | right; left; reflexivity].
      * apply Hlift; [exact Hintra' | right; right; reflexivity].
      * intros c Hsome. apply Hlift; [exact (Hinter' c Hsome) | left; reflexivity].
    + cbn in Hi. replace (k + S i)%nat with (S k + i)%nat by lia.
      apply IHruns. exact Hi.
Qed.

(** Ranks that bootstrapped in turn hold the same identifiers wherever they
    share a group. *)
Lemma run_in_turn_agreement init_method device_id s ws ls st procs :
  chosen_store init_method ws = Some s →
  0 < ls →
  (∀ i w, procs !! i = Some w →
          _global_state w = None ∧
          ∃ lr, configured w (Z.of_nat i) ws lr ls) →
  ∀ (i j : nat) rwi rwj,
    run_in_turn (init_process_group init_method device_id) st procs !! i
    = Some rwi →
    run_in_turn (init_process_group init_method device_id) st procs !! j
    = Some rwj →
    ∃ gi gj,
      _global_state rwi.2 = Some gi ∧
      _global_state rwj.2 = Some gj ∧
      nccl_unique_id_str (global_communicator gi)
      = nccl_unique_id_str (global_communicator gj) ∧
      (Z.of_nat i `div` ls = Z.of_nat j `div` ls →
       nccl_unique_id_str (intranode_communicator gi)
       = nccl_unique_id_str (intranode_communicator gj)) ∧
      (∀ ci cj,
         internode_communicator gi = Some ci →
         internode_communicator gj = Some cj →
         nccl_unique_id_str ci = nccl_unique_id_str cj).
Proof.
  intros Hs Hls Hprocs i j rwi rwj Hi Hj.
  assert (ready s ls 0 st) as Hready.
  { split; [lia |]. intros m Hm. lia. }
  destruct (run_in_turn_identified init_method device_id s ws ls Hs Hls
              procs 0%nat st Hready Hprocs) as [_ Hruns].
  destruct (Hruns i rwi Hi) as (gi & Hgi & [Gi Ni Ii]).
  destruct (Hruns j rwj Hj) as (gj & Hgj & [Gj Nj Ij]).
  cbn [Nat.add] in *.
  exists gi, gj. split; [exact Hgi |]. split; [exact Hgj |].
  split; [exact (shared_holds_inj _ _ _ _ _ Gi Gj) |]. split.
  - intros Hnode. rewrite Hnode in Ni.
    exact (shared_holds_inj _ _ _ _ _ Ni Nj).
  - intros ci cj Hci Hcj.
    exact (shared_holds_inj _ _ _ _ _ (Ii ci Hci) (Ij cj Hcj)).
Qed.

End InTurnIdentified.

(** ** Further properties: what the collectives and the bootstrap leave
    alone *)

Lemma keeps_with_stream_blind {A B} (f : World → B) s (body : M A) :
  (∀ s w, f (set_current_stream s w) = f w) →
  keeps f body → keeps f (with_stream s body).
Proof.
  intros Hs Hbody w r w' H. unfold with_stream in H.
  destruct (body (set_current_stream s w)) as [r0 w0] eqn:Hb.
  injection H as _ <-. rewrite Hs, (Hbody _ _ _ Hb). apply Hs.
Qed.

Lemma keeps_with_stream_current {A} s (body : M A) :
  keeps current_stream (with_stream s body).
Proof.
  intros w r w' H. unfold with_stream in H.
  destruct (body (set_current_stream s w)) as [r0 w0].
  injection H as _ <-. destruct w0; reflexivity.
Qed.

Lemma quiet_environ : quiet environ.
Proof.
  split; try (intros ? []; reflexivity).
  intros A s body. apply keeps_with_stream_blind. intros ? []; reflexivity.
Qed.

Lemma quiet_global_state : quiet _global_state.
Proof.
  split; try (intros ? []; reflexivity).
  intros A s body. apply keeps_with_stream_blind. intros ? []; reflexivity.
Qed.

Lemma quiet_dist : quiet dist_is_initialized.
Proof.
  split; try (intros ? []; reflexivity).
  intros A s body. apply keeps_with_stream_blind. intros ? []; reflexivity.
Qed.

Lemma quiet_default_store : quiet default_store.
Proof.
  split; try (intros ? []; reflexivity).
  intros A s body. apply keeps_with_stream_blind. intros ? []; reflexivity.
Qed.

Lemma quiet_file_stores : quiet file_stores.
Proof.
  split; try (intros ? []; reflexivity).
  intros A s body. apply keeps_with_stream_blind. intros ? []; reflexivity.
Qed.

Lemma quiet_id_seed : quiet id_seed.
Proof.
  split; try (intros ? []; reflexivity).
  intros A s body. apply keeps_with_stream_blind. intros ? []; reflexivity.
Qed.

Lemma quiet_current_stream : quiet current_stream.
Proof.
  split; try (intros ? []; reflexivity).
  intros A s body _. apply keeps_with_stream_current.
Qed.

Section Quiet.
Context {B : Type} (f : World → B) (Hf : quiet f).

Lemma keeps_deref r : keeps f (deref r).
Proof.
  intros w x w' H. unfold deref in H.
  destruct (heap w !! r); injection H as _ <-; reflexivity.
Qed.

Lemma keeps_quiet_log e : keeps f (modify (log e)).
Proof. apply keeps_modify. intros w. apply Hf. Qed.

Lemma keeps_launch k : keeps f (launch k).
Proof.
  unfold launch. apply keeps_bind; [apply keeps_gets | intros s].
  apply keeps_quiet_log.
Qed.

Lemma keeps_store_data r t d : keeps f (store_data r t d).
Proof. apply keeps_modify. intros w. apply Hf. Qed.

Lemma keeps_record_event : keeps f record_event.
Proof.
  unfold record_event.
  apply keeps_bind; [apply keeps_gets | intros s].
  apply keeps_bind; [apply keeps_gets | intros h].
  apply keeps_bind; [apply keeps_modify; intros w; apply Hf | intros _].
  apply keeps_bind; [apply keeps_quiet_log | intros _].
  apply keeps_ret.
Qed.

Lemma keeps_wait_event s ev : keeps f (wait_event s ev).
Proof. apply keeps_quiet_log. Qed.

Lemma keeps_synchronize : keeps f synchronize.
Proof. apply keeps_quiet_log. Qed.

Lemma keeps_mapM {A C} (g : A → M C) l :
  (∀ a, keeps f (g a)) → keeps f (mapM g l).
Proof.
  intros Hg. induction l as [| a l IH]; cbn [mapM]; [apply keeps_ret |].
  apply keeps_bind; [apply Hg | intros y].
  apply keeps_bind; [exact IH | intros k]. apply keeps_ret.
Qed.

Lemma keeps_for_each {A} (l : list A) (body : A → M unit) :
  (∀ a, keeps f (body a)) → keeps f (for_each l body).
Proof.
  intros Hb. induction l as [| a l IH]; cbn [for_each]; [apply keeps_ret |].
  apply keeps_bind; [apply Hb | intros _; exact IH].
Qed.

Lemma keeps_assert_cuda msg r : keeps f (assert_cuda msg r).
Proof.
  unfold assert_cuda, py_assert.
  apply keeps_bind; [apply keeps_deref | intros t].
  destruct (bool_decide (device t ≠ cpu)); [apply keeps_ret | apply keeps_raise].
Qed.

Lemma keeps_default_comm comm : keeps f (default_comm comm).
Proof.
  unfold default_comm, _get_global_state. destruct comm; [apply keeps_ret |].
  apply keeps_bind; [apply keeps_gets | intros [g |]];
    [apply keeps_ret | apply keeps_raise].
Qed.

Lemma keeps_flatten tensors : keeps f (flatten tensors).
Proof.
  unfold flatten.
  apply keeps_bind; [apply keeps_mapM, keeps_deref | intros ts].
  apply keeps_bind; [apply keeps_lift_sum | intros flat].
  apply keeps_bind; [apply keeps_gets | intros p].
  apply keeps_bind; [apply keeps_launch | intros _].
  apply keeps_bind; [apply keeps_modify; intros w; apply Hf | intros _].
  apply keeps_ret.
Qed.

Lemma keeps_unflatten p tensors : keeps f (unflatten p tensors).
Proof.
  unfold unflatten.
  apply keeps_bind; [apply keeps_mapM, keeps_deref | intros ts].
  apply keeps_ret.
Qed.

Lemma keeps_copy_ buf synced : keeps f (copy_ buf synced).
Proof.
  unfold copy_, read_view.
  apply keeps_bind.
  { apply keeps_bind; [apply keeps_deref | intros ?; apply keeps_ret]. }
  intros src. apply keeps_bind; [apply keeps_deref | intros dst].
  apply keeps_bind; [apply keeps_launch | intros _].
  apply keeps_store_data.
Qed.

Lemma keeps_idiv t n : keeps f (idiv t n).
Proof.
  unfold idiv. apply keeps_bind; [apply keeps_deref | intros x].
  apply keeps_bind; [apply keeps_launch | intros _]. apply keeps_store_data.
Qed.

Lemma keeps_new_BaguaTensorPy t : keeps f (new_BaguaTensorPy t).
Proof.
  unfold new_BaguaTensorPy. apply keeps_bind; [apply keeps_deref | intros x].
  apply keeps_bind; [apply keeps_lift_sum | intros dt]. apply keeps_ret.
Qed.

Lemma keeps_transport c k g b : keeps f (transport c k g b).
Proof.
  unfold transport. apply keeps_bind; [apply keeps_deref | intros x].
  apply keeps_bind; [apply keeps_quiet_log | intros _].
  apply keeps_store_data.
Qed.

Lemma keeps_collective {A} comm (body : BaguaSingleCommunicatorPy → M A) :
  (∀ c, keeps f (body c)) →
  keeps f (comm ← default_comm comm;
           event ← record_event;
           wait_event (comm_cuda_stream comm) event ;;
           with_stream (comm_cuda_stream comm) (body comm) ;;
           synchronize).
Proof.
  intros Hbody.
  apply keeps_bind; [apply keeps_default_comm | intros c].
  apply keeps_bind; [apply keeps_record_event | intros ev].
  apply keeps_bind; [apply keeps_wait_event | intros _].
  apply keeps_bind; [apply (quiet_with_stream f Hf), Hbody | intros _].
  apply keeps_synchronize.
Qed.

Lemma keeps_allreduce tensor comm (average : bool) :
  keeps f (allreduce tensor comm average).
Proof.
  unfold allreduce.
  apply keeps_bind; [apply keeps_assert_cuda | intros _].
  apply (keeps_collective comm
           (λ c, b_tensor ← new_BaguaTensorPy tensor;
                 comm_do_allreduce c b_tensor ;;
                 (if average then idiv tensor (nranks c) else mret tt))).
  intros c. apply keeps_bind; [apply keeps_new_BaguaTensorPy | intros b].
  apply keeps_bind; [apply keeps_transport | intros _].
  destruct average; [apply keeps_idiv | apply keeps_ret].
Qed.

Lemma keeps_broadcast tensor root comm : keeps f (broadcast tensor root comm).
Proof.
  unfold broadcast.
  apply keeps_bind; [apply keeps_assert_cuda | intros _].
  apply (keeps_collective comm
           (λ c, b_tensor ← new_BaguaTensorPy tensor;
                 comm_do_broadcast c b_tensor root)).
  intros c. apply keeps_bind; [apply keeps_new_BaguaTensorPy | intros b].
  apply keeps_transport.
Qed.

Lemma keeps_scatter_tail coalesced tensors :
  keeps f (views ← unflatten coalesced tensors;
           for_each (zip tensors views) (λ '(buf, synced), copy_ buf synced)).
Proof.
  apply keeps_bind; [apply keeps_unflatten | intros views].
  apply keeps_for_each. intros [buf synced]. apply keeps_copy_.
Qed.

Lemma keeps_allreduce_coalesced tensors comm (average : bool) :
  keeps f (allreduce_coalesced tensors comm average).
Proof.
  unfold allreduce_coalesced.
  apply keeps_bind; [apply keeps_for_each; intros r; apply keeps_assert_cuda
                    | intros _].
  apply (keeps_collective comm
           (λ c, coalesced ← flatten tensors;
                 b_coalesced ← new_BaguaTensorPy coalesced;
                 comm_do_allreduce c b_coalesced ;;
                 (if average then idiv coalesced (nranks c) else mret tt) ;;
                 views ← unflatten coalesced tensors;
                 for_each (zip tensors views)
                   (λ '(buf, synced), copy_ buf synced))).
  intros c. apply keeps_bind; [apply keeps_flatten | intros p].
  apply keeps_bind; [apply keeps_new_BaguaTensorPy | intros b].
  apply keeps_bind; [apply keeps_transport | intros _].
  apply keeps_bind; [destruct average; [apply keeps_idiv | apply keeps_ret]
                    | intros _].
  apply keeps_scatter_tail.
Qed.

Lemma keeps_broadcast_coalesced tensors root comm :
  keeps f (broadcast_coalesced tensors root comm).
Proof.
  unfold broadcast_coalesced.
  apply keeps_bind; [apply keeps_for_each; intros r; apply keeps_assert_cuda
                    | intros _].
  apply (keeps_collective comm
           (λ c, coalesced ← flatten tensors;
                 b_coalesced ← new_BaguaTensorPy coalesced;
                 comm_do_broadcast c b_coalesced root ;;
                 views ← unflatten coalesced tensors;
                 for_each (zip tensors views)
                   (λ '(buf, synced), copy_ buf synced))).
  intros c. apply keeps_bind; [apply keeps_flatten | intros p].
  apply keeps_bind; [apply keeps_new_BaguaTensorPy | intros b].
  apply keeps_bind; [apply keeps_transport | intros _].
  apply keeps_scatter_tail.
Qed.

End Quiet.

Lemma process_state_kept_intro {A} (m : M A) :
  (∀ B (f : World → B), quiet f → keeps f m) →
  ∀ w r w', m w = (r, w') → process_state_kept w w'.
Proof.
  intros Hm w r w' H. split.
  - exact (Hm _ _ quiet_environ _ _ _ H).
  - exact (Hm _ _ quiet_global_state _ _ _ H).
  - exact (Hm _ _ quiet_dist _ _ _ H).
  - exact (Hm _ _ quiet_default_store _ _ _ H).
  - exact (Hm _ _ quiet_file_stores _ _ _ H).
  - exact (Hm _ _ quiet_id_seed _ _ _ H).
  - exact (Hm _ _ quiet_current_stream _ _ _ H).
Qed.

Lemma keeps_init_process_group {B} (f : World → B) init_method device_id :
  blind f → (∀ g w, f (set_global_state g w) = f w) →
  keeps f (init_process_group init_method device_id).
Proof.
  intros Hf Hg. unfold init_process_group.
  apply keeps_bind; [apply keeps_gets | intros initialized].
  destruct initialized; [apply keeps_raise |].
  apply keeps_bind; [apply keeps_index | intros scheme].
  destruct (bool_decide (scheme ∉ ["dist"; "file"])); [apply keeps_raise |].
  change (if bool_decide (scheme = "file") then _ else _)
    with (choose_store scheme (split init_method "://")).
  apply keeps_bind; [apply keeps_choose_store, Hf | intros st].
  apply keeps_bind; [apply keeps_new_state, Hf | intros g].
  apply keeps_modify. intros w. apply Hg.
Qed.

End Process.

Arguments cl_stores {elt A} c.
Arguments cl_procs {elt A} c.

(** The reference transport performs a sum-reduction over its group. *)
Lemma reference_backend_sum_reduction (group : list (list Qc)) :
  sum_reduction (E := reference_backend group) Qcplus group.
Proof.
  intros r b c Hb Hr _. cbn [comm_allreduce reference_backend].
  rewrite Hr, Nat2Z.id, list_insert_id by exact Hb. reflexivity.
Qed.

(** * The claims *)





(** C3.  The rendezvous of [gen_nccl_unique_id], for every purpose
    [comm_type] and leader rank [root], on a store whose [get] waits for
    the key and then returns what was last put under it.  The key is
    [comm_type-root-unique_id].  One process: the rank equal to [root]
    generates an identifier, puts it under the key and returns it; any
    other rank gets the value under that key, decodes it and returns it,
    and waits in [get], doing nothing else, while the key is not there.
    All processes, ranks distinct, the key not in the store at the start,
    under every schedule: a process that has returned has returned the one
    identifier that the store holds, so all returned identifiers are
    identical; it generated and put it if its rank is [root] and got it
    otherwise; the root's call returns whenever it is made, and every
    other call returns once the identifier is in the store. *)
Theorem rendezvous_identical_identifier :
  ∀ {elt} {E : Backend elt} (comm_type : string) (root : Z)
    (store : option Store) (s : Store),
    let key := unique_id_key comm_type root in
    let f := gen_nccl_unique_id comm_type root store in
    key = comm_type +:+ "-" +:+ pretty root +:+ "-unique_id" ∧
    (∀ (w : World) r,
       store_handle store w = Some s →
       rank_of w = inr r →
       (r = root →
        f w = (Ret (generate_nccl_unique_id_str (id_seed w)),
               published s key (generate_nccl_unique_id_str (id_seed w))
                 (generated w))) ∧
       (r ≠ root →
        ∀ v id, store_contents s w !! key = Some v →
                str_decode v = Some id →
                f w = (Ret id, log (EvStoreGet s key v) w)) ∧
       (r ≠ root →
        store_contents s w !! key = None → f w = (Blocked key, w))) ∧
    (∀ (ws : list World) (st : Stores) (c : cluster string),
       (∀ i w, ws !! i = Some w → ∃ r, rank_of w = inr r) →
       (∀ i w, ws !! i = Some w → store_handle store w = Some s) →
       (∀ i j wi wj, ws !! i = Some wi → ws !! j = Some wj →
                     rank_of wi = inr root → rank_of wj = inr root → i = j) →
       shared_contents s st !! key = None →
       rtc (attempt f) (start st ws) c →
       (∀ i w0 wi ri,
          ws !! i = Some w0 →
          cl_procs c !! i = Some (wi, Some ri) →
          ∃ id,
            ri = Ret id ∧
            shared_contents s (cl_stores c) !! key = Some (str_encode id) ∧
            (if decide (rank_of w0 = inr root)
             then trace wi = trace w0 ++
                    [EvGenerateId id; EvStoreSet s key (str_encode id)]
             else trace wi = trace w0 ++
                    [EvStoreGet s key (str_encode id)]) ∧
            ∀ j wj rj, cl_procs c !! j = Some (wj, Some rj) → rj = Ret id) ∧
       (∀ i w,
          cl_procs c !! i = Some (w, None) →
          rank_of w = inr root ∨
            is_Some (shared_contents s (cl_stores c) !! key) →
          ∃ id w', f (with_stores (cl_stores c) w) = (Ret id, w'))).
Proof.
  intros elt E comm_type root store s key f.
  split; [reflexivity |]. split.
  - intros w r Hs Hr. split; [| split].
    + intros ->. apply gen_nccl_unique_id_leader; assumption.
    + intros Hne v id Hv Hid.
      eapply gen_nccl_unique_id_follower; eassumption.
    + intros Hne Hv. eapply gen_nccl_unique_id_blocked; eassumption.
  - intros ws st c Hranks Hstores Hunique Hkey Hreach.
    pose proof (rendezvous_inv_reachable comm_type root store s ws
                  Hranks Hstores Hunique st c Hkey Hreach) as Hinv.
    split.
    + intros i w0 wi ri Hw0 Hi.
      destruct (rendezvous_agreement comm_type root s ws c i wi ri Hinv Hi)
        as (id & -> & Hpub & Hall).
      destruct (rendezvous_generator comm_type root s ws c i w0 wi _
                  Hinv Hw0 Hi) as (id' & [= <-] & Htrace).
      exists id. done.
    + intros i w Hi Hcan.
      exact (rendezvous_progress comm_type root store s ws
               Hranks Hstores c i w Hinv Hi Hcan).
Qed.

Lemma rendezvous_identical_identifier_witness :
  let ws : list (World (elt := Qc)) := [rank_world 2 1 0; rank_world 2 1 1] in
  let f :=
    gen_nccl_unique_id (E := plain_backend) "bagua_global_comm" 0
      (Some DefaultStore) in
  ∃ c w0 w1 id,
    rtc (attempt f) (start empty_stores ws) c ∧
    cl_procs c = [(w0, Some (Ret id)); (w1, Some (Ret id))] ∧
    shared_contents DefaultStore (cl_stores c)
      !! "bagua_global_comm-0-unique_id"
    = Some (String.list_byte_of_string id).
Proof.
  intros ws f.
  (* rank 1 looks first and waits, rank 0 publishes, rank 1 gets *)
  pose (w0' := (f (with_stores empty_stores (rank_world 2 1 0))).2).
  pose (c1 := {| cl_stores := stores_of w0';
                 cl_procs := [(w0', Some (Ret "nccl-unique-id-0"));
                              (rank_world 2 1 1, None)] |}).
  pose (w1' := (f (with_stores (cl_stores c1) (rank_world 2 1 1))).2).
  pose (c2 := {| cl_stores := stores_of w1';
                 cl_procs := [(w0', Some (Ret "nccl-unique-id-0"));
                              (w1', Some (Ret "nccl-unique-id-0"))] |}).
  assert (f (with_stores empty_stores (rank_world 2 1 1))
          = (Blocked "bagua_global_comm-0-unique_id",
             with_stores empty_stores (rank_world 2 1 1))) as Hwait
    by (vm_compute; reflexivity).
  assert (f (with_stores empty_stores (rank_world 2 1 0))
          = (Ret "nccl-unique-id-0", w0')) as Hroot
    by (vm_compute; reflexivity).
  assert (f (with_stores (cl_stores c1) (rank_world 2 1 1))
          = (Ret "nccl-unique-id-0", w1')) as Hgets
    by (vm_compute; reflexivity).
  assert (rtc (attempt f) (start empty_stores ws) c2) as Hreach.
  { eapply rtc_l.
    { exact (attempt_waits f (start empty_stores ws) 1 (rank_world 2 1 1)
               _ _ eq_refl Hwait). }
    eapply rtc_l.
    { exact (attempt_finishes f (start empty_stores ws) 0 (rank_world 2 1 0)
               (Ret "nccl-unique-id-0") w0' eq_refl Hroot
               (λ key H, eq_ind (Ret "nccl-unique-id-0")
                           (λ o, match o with Ret _ => True | _ => False end)
                           I _ H)). }
    eapply rtc_l; [| apply rtc_refl].
    exact (attempt_finishes f c1 1 (rank_world 2 1 1)
             (Ret "nccl-unique-id-0") w1' eq_refl Hgets
             (λ key H, eq_ind (Ret "nccl-unique-id-0")
                         (λ o, match o with Ret _ => True | _ => False end)
                         I _ H)). }
  clearbody w0' w1'.
  destruct (proj2 (proj2 (rendezvous_identical_identifier
                            (E := plain_backend) "bagua_global_comm" 0
                            (Some DefaultStore) DefaultStore))
              ws empty_stores c2) as [Hagree _].
  - intros [| [| i]] w [= <-]; eexists; reflexivity.
  - intros i w _. reflexivity.
  - intros [| [| i]] [| [| j]] wi wj [= <-] [= <-];
      try reflexivity; discriminate.
  - reflexivity.
  - exact Hreach.
  - destruct (Hagree 1%nat (rank_world 2 1 1) w1' (Ret "nccl-unique-id-0")
                eq_refl eq_refl) as (id & Hid & Hpub & _ & Hall).
    exists c2, w0', w1', id.
    split; [exact Hreach |]. split; [| exact Hpub].
    injection Hid as <-. reflexivity.
Defined.





(** C6.  On a process that is already initialised, that is when
    [is_initialized()] returns true, [init_process_group] raises
    [RepeatedInitializationError] whatever its arguments, and the world is
    the one it was called in: no store, state object or communicator has
    been created (the log has no new entry), and the global state, with its
    backend handle, its stream and its three communicators, is the same
    object as before. *)
Theorem repeated_initialization_rejected :
  ∀ {elt} {E : Backend elt} (init_method : string) (device_id : option Z)
    (w : World),
    is_initialized w = (Ret true, w) →
    init_process_group init_method device_id w
    = (Raise RepeatedInitializationError, w).
Proof.
  intros elt E init_method device_id w Hinit.
  apply init_process_group_repeated.
  unfold is_initialized, gets in Hinit. injection Hinit as Hinit.
  apply bool_decide_eq_true in Hinit. exact Hinit.
Qed.

Lemma repeated_initialization_rejected_witness :
  let w := (init_process_group (E := plain_backend) "dist://" None
              (rank_world 1 1 0)).2 in
  is_initialized w = (Ret true, w) ∧
  init_process_group (E := plain_backend) "dist://" None w
  = (Raise RepeatedInitializationError, w).
Proof.
  intros w.
  assert (is_initialized w = (Ret true, w)) as H
    by (vm_compute; reflexivity).
  split; [exact H |].
  exact (repeated_initialization_rejected "dist://" None w H).
Defined.




(** C8.  A tensor in host memory makes each of [broadcast], [allreduce],
    [broadcast_coalesced] and [allreduce_coalesced] fail at once with an
    [AssertionError] that says the input must be CUDA and dense.  The world
    is the one the call was made in: no event was recorded, nothing was
    flattened, the transport was not called.  In the coalesced forms any
    one host tensor in the list is enough, wherever it stands. *)
Theorem host_tensors_rejected :
  ∀ {elt} {E : Backend elt} (w : World),
    (∀ tensor t root comm,
       heap w !! tensor = Some t → device t = cpu →
       broadcast tensor root comm w
       = (Raise (AssertionError "input tensor must be CUDA and dense"), w)) ∧
    (∀ tensor t comm average,
       heap w !! tensor = Some t → device t = cpu →
       allreduce tensor comm average w
       = (Raise (AssertionError "input tensor must be CUDA and dense"), w)) ∧
    (∀ tensors ts root comm,
       denote w tensors ts → Exists (λ t, device t = cpu) ts →
       broadcast_coalesced tensors root comm w
       = (Raise (AssertionError "input tensors must be CUDA and dense"), w)) ∧
    (∀ tensors ts comm average,
       denote w tensors ts → Exists (λ t, device t = cpu) ts →
       allreduce_coalesced tensors comm average w
       = (Raise (AssertionError "input tensors must be CUDA and dense"), w)).
Proof.
  intros elt E w. repeat split.
  - intros tensor t root comm. apply broadcast_cpu.
  - intros tensor t comm average. apply allreduce_cpu.
  - intros tensors ts root comm. apply broadcast_coalesced_cpu.
  - intros tensors ts comm average. apply allreduce_coalesced_cpu.
Qed.

Lemma host_tensors_rejected_witness :
  let on_device := vector (cuda 0) [Qc_of_Z 1; Qc_of_Z 2] in
  let on_host := scalar cpu (Qc_of_Z 3) in
  let w := holding 1 on_host (holding 0 on_device (rank_world 1 1 0)) in
  broadcast (E := plain_backend) 1 0 None w
  = (Raise (AssertionError "input tensor must be CUDA and dense"), w) ∧
  allreduce (E := plain_backend) 1 None true w
  = (Raise (AssertionError "input tensor must be CUDA and dense"), w) ∧
  broadcast_coalesced (E := plain_backend) [0; 1]%nat 0 None w
  = (Raise (AssertionError "input tensors must be CUDA and dense"), w) ∧
  allreduce_coalesced (E := plain_backend) [0; 1]%nat None true w
  = (Raise (AssertionError "input tensors must be CUDA and dense"), w).
Proof.
  intros on_device on_host w.
  destruct (host_tensors_rejected (E := plain_backend) w)
    as (Hb & Ha & Hbc & Hac).
  assert (heap w !! 1%nat = Some on_host) as H1 by reflexivity.
  assert (denote w [0; 1]%nat [on_device; on_host]) as Hden
    by (repeat constructor).
  assert (Exists (λ t, device t = cpu) [on_device; on_host]) as Hex
    by (right; left; reflexivity).
  split; [exact (Hb 1%nat on_host 0 None H1 eq_refl) |].
  split; [exact (Ha 1%nat on_host None true H1 eq_refl) |].
  split; [exact (Hbc _ _ 0 None Hden Hex) |].
  exact (Hac _ _ None true Hden Hex).
Defined.

(** C9, as stated, at a repeated initialisation: the call raises, and
    [is_initialized()] returns true afterwards, not false. *)
Lemma failed_initialization_counterexample :
  let w := (init_process_group (E := plain_backend) "dist://" None
              (rank_world 1 1 0)).2 in
  init_process_group (E := plain_backend) "dist://" None w
  = (Raise RepeatedInitializationError, w) ∧
  is_initialized w = (Ret true, w) ∧
  is_initialized w ≠ (Ret false, w).
Proof.
  intros w. split; [vm_compute; reflexivity |].
  split; [vm_compute; reflexivity | discriminate].
Qed.

(** C9, amended.  However [init_process_group] fails (an exception of any
    kind, or a rendezvous that never completes), that call has not
    assigned the module-level global state: [_global_state] is what it was
    before the call, and [is_initialized()] returns what it returned
    before.  After a failed first attempt that is false, so no partly built
    state is visible and a later call may try again; an init method whose
    scheme is neither "dist" nor "file" is such a failure, a [ValueError]
    raised before anything is built. *)
Theorem failed_initialization_keeps_state :
  ∀ {elt} {E : Backend elt},
    (∀ (init_method : string) (device_id : option Z) (w w' : World)
       (r : outcome unit),
       init_process_group init_method device_id w = (r, w') →
       failed r →
       _global_state w' = _global_state w ∧
       (is_initialized w').1 = (is_initialized w).1 ∧
       (is_initialized w = (Ret false, w) →
        is_initialized w' = (Ret false, w'))) ∧
    (∀ (init_method scheme : string) (device_id : option Z) (w : World),
       is_initialized w = (Ret false, w) →
       split init_method "://" !! 0%nat = Some scheme →
       scheme ∉ ["dist"; "file"] →
       init_process_group init_method device_id w
       = (Raise (ValueError ("Illegal init method: " +:+ init_method)), w)).
Proof.
  intros elt E. split.
  - intros init_method device_id w w' r Hrun Hr.
    pose proof (init_process_group_failed _ _ _ _ _ Hrun Hr) as Hsame.
    split; [exact Hsame |].
    unfold is_initialized, gets. cbn [fst]. rewrite Hsame.
    split; [reflexivity |]. intros [= H]. rewrite H. reflexivity.
  - intros init_method scheme device_id w Hinit Hsplit Hscheme.
    apply (init_process_group_illegal _ _ _ scheme); [| exact Hsplit | exact Hscheme].
    unfold is_initialized, gets in Hinit. injection Hinit as Hinit.
    apply bool_decide_eq_false in Hinit. apply dec_stable in Hinit.
    exact Hinit.
Qed.

Lemma failed_initialization_keeps_state_witness :
  let w := rank_world (elt := Qc) 1 1 0 in
  init_process_group (E := plain_backend) "tcp://10.0.0.1" None w
  = (Raise (ValueError "Illegal init method: tcp://10.0.0.1"), w) ∧
  _global_state w = None ∧
  is_initialized w = (Ret false, w).
Proof.
  intros w.
  assert (is_initialized w = (Ret false, w)) as Hinit by reflexivity.
  assert (split "tcp://10.0.0.1" "://" !! 0%nat = Some "tcp") as Hsplit
    by reflexivity.
  assert ("tcp" ∉ ["dist"; "file"]) as Hscheme
    by (rewrite !not_elem_of_cons; repeat split;
        [discriminate | discriminate | apply not_elem_of_nil]).
  pose proof (proj2 (failed_initialization_keeps_state (E := plain_backend))
                "tcp://10.0.0.1" "tcp" None w Hinit Hsplit Hscheme) as Hraise.
  split; [exact Hraise |].
  destruct (proj1 (failed_initialization_keeps_state (E := plain_backend))
              "tcp://10.0.0.1" None w w _ Hraise I) as (Hstate & _ & Hstill).
  split; [exact Hstate | exact (Hstill Hinit)].
Defined.

(** C10.  In the inter-node factory every rank runs the rendezvous before
    anything else, whatever its rank and the local size.  A rank other than
    the leader that does not find the key [bagua_inter_comm-leader-unique_id]
    in the store is waiting in [store.get], with nothing else done, also
    when [rank % local_size] is not the leader rank and the result will be
    [None], and also when the membership test would raise.  A rendezvous
    that raises ends the factory with that exception.  So a factory that
    has returned, with a communicator or with [None], has come through a
    rendezvous that returned: the identifier is in the store, and any rank
    other than the leader found it there on its arrival. *)
Theorem inter_rendezvous_before_membership :
  ∀ {elt} {E : Backend elt} (stream : Stream) (leader : Z)
    (store : option Store) (s : Store) (device_id : option Z)
    (w : World) (r ws lr ls : Z),
    configured w r ws lr ls →
    store_handle store w = Some s →
    let key := unique_id_key "bagua_inter_comm" leader in
    let factory :=
      init_bagua_inter_communicator stream leader store device_id in
    (r ≠ leader →
     store_contents s w !! key = None →
     factory w = (Blocked key, w)) ∧
    (∀ k w1,
       gen_nccl_unique_id "bagua_inter_comm" leader store w
       = (Blocked k, w1) →
       factory w = (Blocked k, w1)) ∧
    (∀ e w1,
       gen_nccl_unique_id "bagua_inter_comm" leader store w
       = (Raise e, w1) →
       factory w = (Raise e, w1)) ∧
    (∀ res w',
       factory w = (Ret res, w') →
       (∃ id w1,
          gen_nccl_unique_id "bagua_inter_comm" leader store w
          = (Ret id, w1)) ∧
       is_Some (store_contents s w' !! key) ∧
       (r ≠ leader → is_Some (store_contents s w !! key))).
Proof.
  intros elt E stream leader store s device_id w r ws lr ls Hc Hs key factory.
  split; [| split; [| split]].
  - intros Hne Hkey. unfold factory.
    eapply init_bagua_inter_communicator_blocked; [exact Hc |].
    eapply gen_nccl_unique_id_blocked; [exact Hs | apply Hc | exact Hne |].
    exact Hkey.
  - intros k w1 Hgen.
    eapply init_bagua_inter_communicator_blocked; eassumption.
  - intros e w1 Hgen. unfold factory, init_bagua_inter_communicator.
    rewrite (bind_ret _ _ _ _ _ (default_device_id_run device_id _ _ _ _ _ Hc)).
    rewrite (bind_raise _ _ _ _ _ Hgen). reflexivity.
  - intros res w' Hrun. split.
    + destruct (init_bagua_inter_communicator_returns _ _ _ _ _ _ _ _ _ _ _
                  Hc Hrun) as (id & w1 & Hgen & _).
      eauto.
    + eapply init_bagua_inter_communicator_published; eassumption.
Qed.

Lemma inter_rendezvous_before_membership_witness :
  let stream := {| cuda_stream := 1; priority := -1 |} in
  let w := set_dist_is_initialized true (rank_world (elt := Qc) 4 2 3) in
  3 `mod` 2 ≠ 0 ∧
  init_bagua_inter_communicator (E := plain_backend) stream 0 None None w
  = (Blocked "bagua_inter_comm-0-unique_id", w).
Proof.
  intros stream w. split; [discriminate |].
  assert (configured (E := plain_backend) w 3 4 1 2) as Hc
    by (split; reflexivity).
  destruct (inter_rendezvous_before_membership (E := plain_backend)
              stream 0 None DefaultStore None w 3 4 1 2 Hc eq_refl)
    as (Hwait & _).
  apply Hwait; [discriminate | reflexivity].
Defined.

(** * Further properties of the code *)

(** The reference transport leaves the root's buffer with every member. *)
Lemma reference_backend_root_broadcast (group : list (list Qc)) :
  root_broadcast (E := reference_backend group) group.
Proof.
  intros r root b broot c Hb Hroot Hr. cbn.
  destruct (decide (rank c = Z.of_nat root)) as [He | Hne].
  - assert (r = root) as -> by lia. congruence.
  - rewrite Nat2Z.id, Hroot. reflexivity.
Qed.

(** X1.  Broadcast over a group whose transport leaves the root's buffer
    with every member.  After [broadcast] every member's tensor holds what
    the root's tensor held before the call.  After [broadcast_coalesced],
    when a member passes distinct tensors laid out as the root's are (the
    same sizes in the same order), its i-th tensor holds what the root's
    i-th tensor held: the windows cut from the flat buffer fall on the
    boundaries of the root's tensors. *)
Theorem broadcast_delivers_root_buffer :
  ∀ {elt} {E : Backend elt},
    (∀ (group : list member) (root : nat) broot,
       (∀ r m, group !! r = Some m → ∃ c, joined (length group) r m c) →
       root_broadcast (contribution <$> group) →
       (contribution <$> group) !! root = Some broot →
       ∀ r m,
         group !! r = Some m →
         ∃ w',
           broadcast (m_tensor m) (Z.of_nat root) (m_comm m) (m_world m)
           = (Ret tt, w') ∧
           m_data w' (m_tensor m) = broot) ∧
    (∀ (group : list cmember) (root : nat) mroot,
       (∀ r m, group !! r = Some m →
               ∃ c ts flat, cjoined (length group) r m c ts flat) →
       root_broadcast (cm_flat <$> group) →
       group !! root = Some mroot →
       ∀ r m,
         group !! r = Some m →
         NoDup (cm_tensors m) →
         length <$> (m_data (cm_world m) <$> cm_tensors m)
         = length <$> (m_data (cm_world mroot) <$> cm_tensors mroot) →
         ∃ w',
           broadcast_coalesced (cm_tensors m) (Z.of_nat root) (cm_comm m)
             (cm_world m)
           = (Ret tt, w') ∧
           ∀ i b broot,
             cm_tensors m !! i = Some b →
             cm_tensors mroot !! i = Some broot →
             m_data w' b = m_data (cm_world mroot) broot).
Proof.
  intros elt E. split.
  - intros group root broot. apply broadcast_group.
  - intros group root mroot. apply broadcast_coalesced_tensorwise.
Qed.

Lemma broadcast_delivers_root_buffer_witness :
  let stream := {| cuda_stream := 1; priority := -1 |} in
  let backend := reference_backend [[Qc_of_Z 1]; [Qc_of_Z 2]] in
  let member r x :=
    {| m_world := holding 0 (scalar (cuda 0) x) (rank_world 2 2 r);
       m_tensor := 0%nat;
       m_comm := Some (communicator_of r 2 r stream "id") |} in
  ∃ w',
    broadcast (E := backend) 0 0 (Some (communicator_of 1 2 1 stream "id"))
      (m_world (member 1 (Qc_of_Z 2)))
    = (Ret tt, w') ∧
    m_data w' 0 = [Qc_of_Z 1].
Proof.
  intros stream backend member.
  set (group := [member 0 (Qc_of_Z 1); member 1 (Qc_of_Z 2)]).
  assert (∀ r m, group !! r = Some m →
                 ∃ c, joined (E := backend) (length group) r m c)
    as Hjoined.
  { intros [| [| r]] m [= <-].
    - exists (communicator_of 0 2 0 stream "id"). split.
      + eexists _, "f32". split; [apply lookup_insert_eq |].
        split; [discriminate | reflexivity].
      + repeat split; reflexivity.
    - exists (communicator_of 1 2 1 stream "id"). split.
      + eexists _, "f32". split; [apply lookup_insert_eq |].
        split; [discriminate | reflexivity].
      + repeat split; reflexivity. }
  assert (contribution <$> group = [[Qc_of_Z 1]; [Qc_of_Z 2]]) as Hbuffers
    by (vm_compute; reflexivity).
  assert (root_broadcast (E := backend) (contribution <$> group)) as Hbc.
  { rewrite Hbuffers. apply reference_backend_root_broadcast. }
  assert ((contribution <$> group) !! 0%nat = Some [Qc_of_Z 1]) as Hroot.
  { rewrite Hbuffers. reflexivity. }
  destruct (proj1 (broadcast_delivers_root_buffer (E := backend))
              group 0%nat [Qc_of_Z 1] Hjoined Hbc Hroot
              1%nat (member 1 (Qc_of_Z 2)) eq_refl)
    as (w' & Hrun & Hdata).
  exists w'. split; [exact Hrun | exact Hdata].
Defined.

(** X2.  What the collectives leave alone.  A call that is given tensors on
    a device, a communicator and an element type the transport knows
    returns, and afterwards: every tensor that was not passed is the object
    it was (for the coalesced forms, every tensor other than those passed
    and the flat buffer allocated by the call); every tensor that was in the
    heap is still there, on the same device, with the same element type and
    shape; and, when the transport returns as many elements as it is given,
    with the same number of elements. *)
Theorem collectives_preserve_layout :
  ∀ {elt} {E : Backend elt} (w : World) comm c,
    default_comm comm w = (Ret c, w) →
    (∀ tensor t dt,
       heap w !! tensor = Some t →
       device t ≠ cpu →
       to_bagua_datatype (tensor_dtype t) = inr dt →
       (∀ average : bool,
          ∃ w' t',
            allreduce tensor comm average w = (Ret tt, w') ∧
            (∀ r, r ≠ tensor → heap w' !! r = heap w !! r) ∧
            heap w' !! tensor = Some t' ∧
            same_meta t' t ∧
            (length (comm_allreduce c (data t)) = length (data t) →
             numel t' = numel t)) ∧
       (∀ root : Z,
          ∃ w' t',
            broadcast tensor root comm w = (Ret tt, w') ∧
            (∀ r, r ≠ tensor → heap w' !! r = heap w !! r) ∧
            heap w' !! tensor = Some t' ∧
            same_meta t' t ∧
            (length (comm_broadcast c root (data t)) = length (data t) →
             numel t' = numel t))) ∧
    (∀ tensors ts flat dt,
       denote w tensors ts →
       Forall (λ t, device t ≠ cpu) ts →
       flatten_tensors ts = inr flat →
       to_bagua_datatype (tensor_dtype flat) = inr dt →
       (∀ average : bool,
          ∃ w',
            allreduce_coalesced tensors comm average w = (Ret tt, w') ∧
            (∀ r, r ∉ tensors → r ≠ flat_ptr w →
                  heap w' !! r = heap w !! r) ∧
            (∀ r t, heap w !! r = Some t →
                    ∃ t', heap w' !! r = Some t' ∧ same_meta t' t) ∧
            (length (comm_allreduce c (data flat)) = length (data flat) →
             ∀ r t, heap w !! r = Some t →
                    ∃ t', heap w' !! r = Some t' ∧ numel t' = numel t)) ∧
       (∀ root : Z,
          ∃ w',
            broadcast_coalesced tensors root comm w = (Ret tt, w') ∧
            (∀ r, r ∉ tensors → r ≠ flat_ptr w →
                  heap w' !! r = heap w !! r) ∧
            (∀ r t, heap w !! r = Some t →
                    ∃ t', heap w' !! r = Some t' ∧ same_meta t' t) ∧
            (length (comm_broadcast c root (data flat))
             = length (data flat) →
             ∀ r t, heap w !! r = Some t →
                    ∃ t', heap w' !! r = Some t' ∧ numel t' = numel t))).
Proof.
  intros elt E w comm c Hc. split.
  - intros tensor t dt Ht Hdev Hdt. split.
    + intros average.
      destruct (allreduce_run _ _ _ average _ _ _ Ht Hdev Hc Hdt)
        as (w' & Hrun & Heff).
      exists w', (with_data t (reduced c average (data t))).
      split; [exact Hrun |].
      split; [intros r Hr; exact (collective_effect_frame _ _ _ _ _ _ _ Heff Hr) |].
      split; [rewrite (effect_heap _ _ _ _ _ _ Heff); apply lookup_insert_eq |].
      split; [apply same_meta_with_data |].
      intros Hlen. unfold numel. cbn. apply length_reduced, Hlen.
    + intros root.
      destruct (broadcast_run _ root _ _ _ _ _ Ht Hdev Hc Hdt)
        as (w' & Hrun & Heff).
      exists w', (with_data t (comm_broadcast c root (data t))).
      split; [exact Hrun |].
      split; [intros r Hr; exact (collective_effect_frame _ _ _ _ _ _ _ Heff Hr) |].
      split; [rewrite (effect_heap _ _ _ _ _ _ Heff); apply lookup_insert_eq |].
      split; [apply same_meta_with_data |].
      intros Hlen. unfold numel. cbn. exact Hlen.
  - intros tensors ts flat dt Hden Hdev Hflat Hdt. split.
    + intros average.
      destruct (allreduce_coalesced_run _ _ _ average _ _ _ _
                  Hden Hdev Hc Hflat Hdt) as (w' & Hrun & Heff).
      exists w'. split; [exact Hrun |].
      split; [intros r; apply (coalesced_effect_frame _ _ _ _ _ _ _ _ Heff) |].
      split; [intros r t; apply (coalesced_effect_meta _ _ _ _ _ _ _ _ _ Heff) |].
      intros Hlen r t Hr.
      destruct (coalesced_effect_numel _ _ _ _ _ _ _ _ _ Heff Hden Hflat
                  (length_reduced _ _ _ Hlen) Hr) as (t' & Ht' & Hn & _).
      eauto.
    + intros root.
      destruct (broadcast_coalesced_run _ root _ _ _ _ _ _
                  Hden Hdev Hc Hflat Hdt) as (w' & Hrun & Heff).
      exists w'. split; [exact Hrun |].
      split; [intros r; apply (coalesced_effect_frame _ _ _ _ _ _ _ _ Heff) |].
      split; [intros r t; apply (coalesced_effect_meta _ _ _ _ _ _ _ _ _ Heff) |].
      intros Hlen r t Hr.
      destruct (coalesced_effect_numel _ _ _ _ _ _ _ _ _ Heff Hden Hflat
                  Hlen Hr) as (t' & Ht' & Hn & _).
      eauto.
Qed.

Lemma collectives_preserve_layout_witness :
  let a := vector (cuda 0) [Qc_of_Z 1; Qc_of_Z 2] in
  let b := scalar (cuda 0) (Qc_of_Z 3) in
  let other := scalar cpu (Qc_of_Z 4) in
  let w := holding 2 other (holding 1 b (holding 0 a (rank_world 1 1 0))) in
  let stream := {| cuda_stream := 1; priority := -1 |} in
  let c := communicator_of 0 1 0 stream "id" in
  ∃ w' a',
    allreduce_coalesced (E := plain_backend) [0; 1]%nat (Some c) true w
    = (Ret tt, w') ∧
    heap w' !! 2%nat = Some other ∧
    heap w' !! 0%nat = Some a' ∧
    numel a' = 2%nat.
Proof.
  intros a b other w stream c.
  assert (denote w [0; 1]%nat [a; b]) as Hden by (repeat constructor).
  assert (Forall (λ t, device t ≠ cpu) [a; b]) as Hdev
    by (repeat constructor; discriminate).
  destruct (proj1 (proj2 (collectives_preserve_layout (E := plain_backend)
                            w (Some c) c eq_refl)
                     [0; 1]%nat [a; b] _ "f32" Hden Hdev eq_refl eq_refl)
              true)
    as (w' & Hrun & Hframe & _ & Hnumel).
  destruct (Hnumel eq_refl 0%nat a eq_refl) as (a' & Ha' & Hn).
  exists w', a'. split; [exact Hrun |].
  split; [| split; [exact Ha' | exact Hn]].
  rewrite Hframe; [reflexivity | |].
  - rewrite !not_elem_of_cons. repeat split; try discriminate.
    apply not_elem_of_nil.
  - vm_compute. discriminate.
Defined.

(** X3.  A tensor passed more than once to a coalesced collective.  Each
    occurrence has its own range of the flat buffer and the copies back run
    in input order, so the tensor ends with the window of its last
    occurrence, whatever the earlier copies wrote; its device, element type
    and shape are untouched.  Without repetition this is the tensor's only
    window. *)
Theorem repeated_handle_takes_last_window :
  ∀ {elt} {E : Backend elt} (w : World) tensors ts flat comm c dt
    (i r : nat) t v,
    denote w tensors ts →
    Forall (λ t, device t ≠ cpu) ts →
    default_comm comm w = (Ret c, w) →
    flatten_tensors ts = inr flat →
    to_bagua_datatype (tensor_dtype flat) = inr dt →
    tensors !! i = Some r →
    (∀ j, (i < j)%nat → tensors !! j ≠ Some r) →
    ts !! i = Some t →
    views_of (flat_ptr w) 0 ts !! i = Some v →
    (∀ average : bool,
       ∃ w' t',
         allreduce_coalesced tensors comm average w = (Ret tt, w') ∧
         heap w' !! r = Some t' ∧
         data t'
         = take (view_numel v)
             (drop (view_offset v) (reduced c average (data flat))) ∧
         same_meta t' t) ∧
    (∀ root : Z,
       ∃ w' t',
         broadcast_coalesced tensors root comm w = (Ret tt, w') ∧
         heap w' !! r = Some t' ∧
         data t'
         = take (view_numel v)
             (drop (view_offset v) (comm_broadcast c root (data flat))) ∧
         same_meta t' t).
Proof.
  intros elt E w tensors ts flat comm c dt i r t v
    Hden Hdev Hc Hflat Hdt Hr Hlast Ht Hv.
  split.
  - intros average.
    destruct (allreduce_coalesced_run _ _ _ average _ _ _ _
                Hden Hdev Hc Hflat Hdt) as (w' & Hrun & Heff).
    destruct (coalesced_effect_last _ _ _ _ _ _ _ _ _ _ _
                Heff Hden Hr Hlast Ht Hv) as (t' & Ht' & Hdata & Hmeta).
    exists w', t'. done.
  - intros root.
    destruct (broadcast_coalesced_run _ root _ _ _ _ _ _
                Hden Hdev Hc Hflat Hdt) as (w' & Hrun & Heff).
    destruct (coalesced_effect_last _ _ _ _ _ _ _ _ _ _ _
                Heff Hden Hr Hlast Ht Hv) as (t' & Ht' & Hdata & Hmeta).
    exists w', t'. done.
Qed.

Lemma repeated_handle_takes_last_window_witness :
  let backend :=
    reference_backend [[Qc_of_Z 1; Qc_of_Z 1]; [Qc_of_Z 10; Qc_of_Z 20]] in
  let t := scalar (cuda 0) (Qc_of_Z 1) in
  let w := holding 0 t (rank_world 2 2 0) in
  let stream := {| cuda_stream := 1; priority := -1 |} in
  let c := communicator_of 0 2 0 stream "id" in
  ∃ w',
    allreduce_coalesced (E := backend) [0; 0]%nat (Some c) false w
    = (Ret tt, w') ∧
    m_data w' 0 = [Q2Qc (21 # 1)].
Proof.
  intros backend t w stream c.
  assert (denote w [0; 0]%nat [t; t]) as Hden by (repeat constructor).
  assert (Forall (λ t, device t ≠ cpu) [t; t]) as Hdev
    by (repeat constructor; discriminate).
  set (v := {| view_base := flat_ptr w; view_offset := 1; view_numel := 1;
               view_shape := [] |}).
  assert (∀ j, (1 < j)%nat → [0; 0]%nat !! j ≠ Some 0%nat) as Hlast.
  { intros [| [| j]] Hj; [lia | lia | discriminate]. }
  destruct (proj1 (repeated_handle_takes_last_window (E := backend)
                     w [0; 0]%nat [t; t] _ (Some c) c "f32" 1%nat 0%nat t v
                     Hden Hdev eq_refl eq_refl eq_refl eq_refl Hlast
                     eq_refl eq_refl) false)
    as (w' & t' & Hrun & Ht' & Hdata & _).
  exists w'. split; [exact Hrun |].
  unfold m_data. rewrite Ht', Hdata.
  vm_compute.
  first [reflexivity | f_equal; apply Qc_is_canon; reflexivity].
Defined.

(** X4.  An element type the transport does not know.  [allreduce] and
    [broadcast] pass the device check, record the event on the caller's
    stream and make the communicator's stream wait for it, and then fail
    inside the [with] block with the error of [to_bagua_datatype]: the
    transport is not called and the device is not synchronised.  The
    caller's stream is current again, no tensor has changed, and the log
    has grown by exactly the two entry events. *)
Theorem unsupported_element_type_aborts :
  ∀ {elt} {E : Backend elt} (w : World) tensor t comm c e,
    heap w !! tensor = Some t →
    device t ≠ cpu →
    default_comm comm w = (Ret c, w) →
    to_bagua_datatype (tensor_dtype t) = inl e →
    ∃ w',
      (∀ average : bool, allreduce tensor comm average w = (Raise e, w')) ∧
      (∀ root : Z, broadcast tensor root comm w = (Raise e, w')) ∧
      heap w' = heap w ∧
      current_stream w' = current_stream w ∧
      _global_state w' = _global_state w ∧
      trace w' = trace w ++ entry_events c w.
Proof.
  intros elt E w tensor t comm c e Ht Hdev Hc He.
  exists (set_current_stream (current_stream w) (prologue c w)).
  split; [intros average; eapply allreduce_unsupported; eassumption |].
  split; [intros root; eapply broadcast_unsupported; eassumption |].
  split; [reflexivity |]. split; [reflexivity |]. split; [reflexivity |].
  cbn. rewrite <- app_assoc. reflexivity.
Qed.

Lemma unsupported_element_type_aborts_witness :
  let t := {| device := cuda 0; tensor_dtype := float64; shape := [];
              data := [Qc_of_Z 1] |} in
  let w := holding 0 t (rank_world 1 1 0) in
  let stream := {| cuda_stream := 1; priority := -1 |} in
  let c := communicator_of 0 1 0 stream "id" in
  ∃ w',
    allreduce (E := plain_backend) 0 (Some c) true w
    = (Raise (ValueError "unsupported data type"), w') ∧
    heap w' = heap w ∧
    trace w' = [EvRecord 0 1; EvWait 1 1].
Proof.
  intros t w stream c.
  destruct (unsupported_element_type_aborts (E := plain_backend)
              w 0%nat t (Some c) c (ValueError "unsupported data type")
              eq_refl ltac:(discriminate) eq_refl eq_refl)
    as (w' & Hall & _ & Hheap & _ & _ & Htrace).
  exists w'. split; [apply Hall |]. split; [exact Hheap |].
  rewrite Htrace. reflexivity.
Defined.

(** X5.  A collective called without a communicator on a process that has
    not been initialised fails with an [AttributeError]: the global state is
    [None] and has no global communicator.  The device check has passed;
    nothing else has happened, the world is the one the call was made in. *)
Theorem collectives_need_initialisation :
  ∀ {elt} {E : Backend elt} (w : World),
    _global_state w = None →
    (∀ tensor t (average : bool),
       heap w !! tensor = Some t → device t ≠ cpu →
       ∃ msg,
         allreduce tensor None average w = (Raise (AttributeError msg), w)) ∧
    (∀ tensor t (root : Z),
       heap w !! tensor = Some t → device t ≠ cpu →
       ∃ msg,
         broadcast tensor root None w = (Raise (AttributeError msg), w)) ∧
    (∀ tensors ts (average : bool),
       denote w tensors ts → Forall (λ t, device t ≠ cpu) ts →
       ∃ msg,
         allreduce_coalesced tensors None average w
         = (Raise (AttributeError msg), w)) ∧
    (∀ tensors ts (root : Z),
       denote w tensors ts → Forall (λ t, device t ≠ cpu) ts →
       ∃ msg,
         broadcast_coalesced tensors root None w
         = (Raise (AttributeError msg), w)).
Proof.
  intros elt E w Hnone. split; [| split; [| split]].
  - intros tensor t average Ht Hd.
    exact (allreduce_uninitialized _ _ _ _ Ht Hd Hnone).
  - intros tensor t root Ht Hd.
    exact (broadcast_uninitialized _ _ _ _ Ht Hd Hnone).
  - intros tensors ts average Hden Hd.
    exact (allreduce_coalesced_uninitialized _ _ _ _ Hden Hd Hnone).
  - intros tensors ts root Hden Hd.
    exact (broadcast_coalesced_uninitialized _ _ _ _ Hden Hd Hnone).
Qed.

Lemma collectives_need_initialisation_witness :
  let t := scalar (cuda 0) (Qc_of_Z 1) in
  let w := holding 0 t (rank_world 1 1 0) in
  ∃ msg,
    allreduce (E := plain_backend) 0 None true w
    = (Raise (AttributeError msg), w).
Proof.
  intros t w.
  exact (proj1 (collectives_need_initialisation (E := plain_backend)
                  w eq_refl)
           0%nat t true eq_refl ltac:(discriminate)).
Defined.

(** X6.  The keys of the rendezvous.  For the three purposes the bootstrap
    uses, the key [comm_type-root-unique_id] determines both the purpose and
    the root: rendezvous for different purposes or different roots never
    meet under one key.  For the intra-node rendezvous, whose root is
    [rank // local_size * local_size], two ranks use the same key exactly
    when they are on the same node. *)
Theorem rendezvous_keys_separate :
  (∀ ct ct' (root root' : Z),
     ct ∈ purposes → ct' ∈ purposes →
     unique_id_key ct root = unique_id_key ct' root' →
     ct = ct' ∧ root = root') ∧
  (∀ r r' ls : Z,
     ls ≠ 0 →
     (unique_id_key "bagua_intra_comm" (r `div` ls * ls)
      = unique_id_key "bagua_intra_comm" (r' `div` ls * ls)
      ↔ r `div` ls = r' `div` ls)).
Proof.
  split.
  - intros ct ct' root root'. apply unique_id_key_inj.
  - intros r r' ls Hls. rewrite <- (same_node_same_root r r' ls Hls).
    split; [apply unique_id_key_inj_root | congruence].
Qed.

Lemma rendezvous_keys_separate_witness :
  unique_id_key "bagua_intra_comm" (6 `div` 4 * 4) = "bagua_intra_comm-4-unique_id" ∧
  (unique_id_key "bagua_intra_comm" (6 `div` 4 * 4)
   = unique_id_key "bagua_intra_comm" (7 `div` 4 * 4)) ∧
  (unique_id_key "bagua_intra_comm" (3 `div` 4 * 4)
   ≠ unique_id_key "bagua_intra_comm" (4 `div` 4 * 4)).
Proof.
  split; [reflexivity |]. split.
  - apply (proj2 rendezvous_keys_separate 6 7 4); [discriminate | reflexivity].
  - intros H.
    apply (proj2 rendezvous_keys_separate 3 4 4) in H; discriminate.
Defined.

(** X7.  Ranks within their groups.  When initialisation has returned on a
    process of rank [r] with [0 <= r < world_size] and the local size
    divides the world size, every communicator of the state has a rank that
    indexes its group, [0 <= rank < nranks], and the inter-node and
    intra-node sizes multiply to the world size.  When the local size does
    not divide the world size, the first rank of the last, incomplete node
    is a rank of the world whose inter-node communicator has a rank equal
    to its size, one past the end of its group. *)
Theorem communicator_ranks_in_range :
  ∀ {elt} {E : Backend elt} (init_method : string) (device_id : option Z)
    (s : Store) (w : World) (r ws lr ls : Z),
    (∀ c, faults c = None) →
    _global_state w = None →
    chosen_store init_method ws = Some s →
    configured w r ws lr ls →
    0 < ls →
    obtainable s w r "bagua_inter_comm" 0 →
    obtainable s w r "bagua_intra_comm" (r `div` ls * ls) →
    obtainable s w r "bagua_global_comm" 0 →
    ∃ g w',
      init_process_group init_method device_id w = (Ret tt, w') ∧
      _global_state w' = Some g ∧
      ((0 ≤ r < ws)%Z → ws `mod` ls = 0 →
       in_range (global_communicator g) ∧
       in_range (intranode_communicator g) ∧
       (∀ c, internode_communicator g = Some c →
             in_range c ∧
             nranks c * nranks (intranode_communicator g)
             = nranks (global_communicator g))) ∧
      ((0 ≤ ws)%Z → ws `mod` ls ≠ 0 → r = ws `div` ls * ls →
       (0 ≤ r < ws)%Z ∧
       ∃ c, internode_communicator g = Some c ∧ ¬ in_range c).
Proof.
  intros elt E init_method device_id s w r ws lr ls
    Hfaults Hnone Hs Hc Hls Hinter Hintra Hglobal.
  destruct (init_process_group_completes Hfaults init_method device_id
              s w r ws lr ls Hnone Hs Hc ltac:(lia) Hinter Hintra Hglobal)
    as (g & w' & Hrun & Hg & Htopo).
  exists g, w'. split; [exact Hrun |]. split; [exact Hg |]. split.
  - intros Hr Hdiv. exact (topology_in_range _ _ _ _ Htopo Hr Hls Hdiv).
  - intros Hws Hdiv ->. split.
    + pose proof (Z.mul_div_le ws ls Hls).
      pose proof (Z.div_pos ws ls Hws Hls).
      pose proof (Z.div_mod ws ls ltac:(lia)). nia.
    + destruct (topology_past_the_end _ _ _ Htopo ltac:(lia))
        as (c & Hsome & Heq).
      exists c. split; [exact Hsome |]. unfold in_range. lia.
Qed.

Lemma communicator_ranks_in_range_witness :
  ∃ g w',
    init_process_group (E := plain_backend) "dist://" None
      (rank_world 4 2 0) = (Ret tt, w') ∧
    _global_state w' = Some g ∧
    in_range (global_communicator g) ∧
    in_range (intranode_communicator g).
Proof.
  destruct (communicator_ranks_in_range (E := plain_backend)
              "dist://" None DefaultStore (rank_world 4 2 0) 0 4 0 2)
    as (g & w' & Hrun & Hg & Hin & _).
  - intros c. reflexivity.
  - reflexivity.
  - reflexivity.
  - split; reflexivity.
  - lia.
  - left. reflexivity.
  - left. reflexivity.
  - left. reflexivity.
  - exists g, w'. split; [exact Hrun |]. split; [exact Hg |].
    destruct (Hin ltac:(lia) eq_refl) as (H1 & H2 & _). split; assumption.
Defined.

(** X8.  No environment at all.  With none of [RANK], [WORLD_SIZE],
    [LOCAL_RANK] and [LOCAL_SIZE] set, the defaults of env.py make the
    process the only member of a world of one: initialisation returns
    without waiting for anyone, whatever the stores hold, and installs a
    state whose three communicators all have rank 0 in a group of 1, the
    inter-node communicator among them, on the device given or else on
    device 0. *)
Theorem unset_environment_is_single_process :
  ∀ {elt} {E : Backend elt} (init_method : string) (device_id : option Z)
    (s : Store) (w : World),
    (∀ c, faults c = None) →
    _global_state w = None →
    environ w !! "RANK" = None →
    environ w !! "WORLD_SIZE" = None →
    environ w !! "LOCAL_RANK" = None →
    environ w !! "LOCAL_SIZE" = None →
    chosen_store init_method 1 = Some s →
    ∃ g w',
      init_process_group init_method device_id w = (Ret tt, w') ∧
      _global_state w' = Some g ∧
      (∃ c, internode_communicator g = Some c ∧ rank c = 0 ∧ nranks c = 1) ∧
      rank (intranode_communicator g) = 0 ∧
      nranks (intranode_communicator g) = 1 ∧
      rank (global_communicator g) = 0 ∧
      nranks (global_communicator g) = 1 ∧
      backend_device_id (backend g) = default 0 device_id.
Proof.
  intros elt E init_method device_id s w Hfaults Hnone Hr Hws Hlr Hls Hs.
  assert (configured w 0 1 0 1) as Hc.
  { split; unfold environ_int;
      [rewrite Hr | rewrite Hws | rewrite Hlr | rewrite Hls]; reflexivity. }
  destruct (init_process_group_completes Hfaults init_method device_id
              s w 0 1 0 1 Hnone Hs Hc ltac:(lia)
              (or_introl eq_refl) (or_introl eq_refl) (or_introl eq_refl))
    as (g & w' & Hrun & Hg & [Hinter [Hi1 Hi2] [Hg1 Hg2]]).
  destruct (init_process_group_wiring _ _ _ _ _ _ _ _ Hc Hrun)
    as (g' & Hg' & Hbk & _).
  assert (g' = g) as -> by congruence.
  exists g, w'. split; [exact Hrun |]. split; [exact Hg |].
  split.
  { destruct (internode_communicator g) as [c |].
    - exists c. destruct Hinter as (_ & -> & ->). done.
    - exfalso. apply Hinter. reflexivity. }
  rewrite Hbk. done.
Qed.

Lemma unset_environment_is_single_process_witness :
  ∃ g w',
    init_process_group (E := plain_backend) "dist://" (Some 3)
      (fresh_world ∅) = (Ret tt, w') ∧
    _global_state w' = Some g ∧
    nranks (global_communicator g) = 1 ∧
    backend_device_id (backend g) = 3.
Proof.
  destruct (unset_environment_is_single_process (E := plain_backend)
              "dist://" (Some 3) DefaultStore (fresh_world ∅))
    as (g & w' & Hrun & Hg & _ & _ & _ & _ & Hn & Hd).
  - intros c. reflexivity.
  - reflexivity.
  - reflexivity.
  - reflexivity.
  - reflexivity.
  - reflexivity.
  - reflexivity.
  - exists g, w'. split; [exact Hrun |]. split; [exact Hg |].
    split; [exact Hn | exact Hd].
Defined.

(** X9.  Ranks that bootstrap one after the other in rank order, on shared
    stores, never wait.  Whatever the stores held at the start, every
    rank's initialisation returns, each with the communicators of its rank:
    whenever a rank needs an identifier that it does not publish itself, a
    lower rank has published it, rank 0 for the inter-node and the global
    rendezvous and the first rank of its node for the intra-node one.  The
    local size need not divide the world size. *)
Theorem bootstrap_in_rank_order_completes :
  ∀ {elt} {E : Backend elt} (init_method : string) (device_id : option Z)
    (s : Store) (ws ls : Z) (st : Stores) (procs : list World),
    (∀ c, faults c = None) →
    chosen_store init_method ws = Some s →
    0 < ls →
    (∀ i w, procs !! i = Some w →
            _global_state w = None ∧
            ∃ lr, configured w (Z.of_nat i) ws lr ls) →
    let runs :=
      run_in_turn (init_process_group init_method device_id) st procs in
    length runs = length procs ∧
    ∀ i rw,
      runs !! i = Some rw →
      rw.1 = Ret tt ∧
      ∃ g, _global_state rw.2 = Some g ∧ topology g (Z.of_nat i) ws ls.
Proof.
  intros elt E init_method device_id s ws ls st procs Hfaults Hs Hls Hprocs.
  split; [apply length_run_in_turn |].
  intros i rw Hi.
  apply (run_in_turn_bootstrap Hfaults init_method device_id s ws ls Hs Hls
           procs 0%nat st); [| exact Hprocs | exact Hi].
  split; [lia |]. intros m Hm. lia.
Qed.

Lemma bootstrap_in_rank_order_completes_witness :
  let runs := bootstrapped (E := plain_backend) "dist://" 3 2 [0; 1; 2] in
  length runs = 3%nat ∧
  ∀ i rw, runs !! i = Some rw → rw.1 = Ret tt.
Proof.
  destruct (bootstrap_in_rank_order_completes (E := plain_backend)
              "dist://" None DefaultStore 3 2 empty_stores
              (rank_world 3 2 <$> [0; 1; 2]))
    as [Hlen Hruns].
  - intros c. reflexivity.
  - reflexivity.
  - lia.
  - intros [| [| [| i]]] w [= <-].
    + split; [reflexivity |]. exists 0. split; reflexivity.
    + split; [reflexivity |]. exists 1. split; reflexivity.
    + split; [reflexivity |]. exists 0. split; reflexivity.
  - split; [exact Hlen |].
    intros i rw Hi. exact (proj1 (Hruns i rw Hi)).
Defined.

(** X10.  The init method.  [init_method.split("://")] always has a first
    piece, so the lookup of the scheme never fails, and joining the pieces
    with the separator gives the init method back.  The pieces are
    [["file"]] exactly when the init method is the bare word "file"; the
    scheme is then accepted and the lookup of the path, [metas[1]], raises
    [IndexError] before any store or state is created: the world is the one
    the call was made in. *)
Theorem file_method_without_path :
  ∀ {elt} {E : Backend elt} (init_method : string) (device_id : option Z)
    (w : World),
    _global_state w = None →
    (∃ scheme rest,
       split init_method "://" = scheme :: rest ∧
       join "://" (scheme :: rest) = init_method) ∧
    (split init_method "://" = ["file"] ↔ init_method = "file") ∧
    (split init_method "://" = ["file"] →
     init_process_group init_method device_id w = (Raise IndexError, w)).
Proof.
  intros elt E init_method device_id w Hnone. split; [| split].
  - destruct (split_nonempty init_method "://") as (scheme & rest & Hsplit).
    exists scheme, rest. split; [exact Hsplit |].
    rewrite <- Hsplit. apply join_split. discriminate.
  - split.
    + intros H. rewrite <- (join_split init_method "://") by discriminate.
      rewrite H. reflexivity.
    + intros ->. reflexivity.
  - intros Hsplit. apply init_process_group_no_path; assumption.
Qed.

Lemma file_method_without_path_witness :
  init_process_group (E := plain_backend) "file" None (rank_world 1 1 0)
  = (Raise IndexError, rank_world 1 1 0).
Proof.
  apply (proj2 (proj2 (file_method_without_path (E := plain_backend)
                         "file" None (rank_world 1 1 0) eq_refl))).
  reflexivity.
Defined.

(** X11.  The module-level accessors.  Before initialisation
    [get_bagua_hyperparameters] and [get_hyperparameters_service_client]
    raise [AttributeError], the global state being [None], and leave the
    world alone.  After an initialisation that returned they return the
    hyperparameters object of the state and the client that was built for
    the address [AUTO_TUNE_SERVER_ADDR] had in the environment when
    initialisation was called (no address if the variable was not set), and
    again change nothing. *)
Theorem state_accessors :
  ∀ {elt} {E : Backend elt},
    (∀ w : World (elt := elt),
       _global_state w = None →
       (∃ msg,
          get_bagua_hyperparameters w = (Raise (AttributeError msg), w)) ∧
       (∃ msg,
          get_hyperparameters_service_client w
          = (Raise (AttributeError msg), w))) ∧
    (∀ (init_method : string) (device_id : option Z) (w w' : World)
       (r ws lr ls : Z),
       configured w r ws lr ls →
       init_process_group init_method device_id w = (Ret tt, w') →
       get_bagua_hyperparameters w' = (Ret tt, w') ∧
       get_hyperparameters_service_client w'
       = (Ret (environ w !! "AUTO_TUNE_SERVER_ADDR"), w')).
Proof.
  intros elt E. split.
  - intros w. apply get_state_attr_none.
  - intros init_method device_id w w' r ws lr ls Hc Hrun.
    destruct (init_process_group_wiring _ _ _ _ _ _ _ _ Hc Hrun)
      as (g & Hg & _ & _ & _ & Haddr & _).
    destruct (get_state_attr_some _ _ Hg) as [H1 H2].
    rewrite H1, H2, Haddr. destruct (hyperparameters g). done.
Qed.

Lemma state_accessors_witness :
  let w :=
    fresh_world (elt := Qc)
      (<["AUTO_TUNE_SERVER_ADDR" := "127.0.0.1:8123"]> (env_of 0 1 0 1)) in
  let w' := (init_process_group (E := plain_backend) "dist://" None w).2 in
  get_hyperparameters_service_client w' = (Ret (Some "127.0.0.1:8123"), w').
Proof.
  intros w w'.
  assert (init_process_group (E := plain_backend) "dist://" None w
          = (Ret tt, w')) as Hrun by (vm_compute; reflexivity).
  assert (configured (E := plain_backend) w 0 1 0 1) as Hc
    by (split; reflexivity).
  exact (proj2 (proj2 (state_accessors (E := plain_backend))
                  "dist://" None w w' 0 1 0 1 Hc Hrun)).
Defined.

(** X12.  How [BaguaGlobalState.__init__] wires the state.  After an
    initialisation that returned, the state's backend was built with a
    schedule-channel capacity of 100 on device [device_id], or on the local
    rank when no device was given; the three communicators, as the getters
    return them, were built on that same device; the state's stream has
    priority -1; and the state keeps the store that the init method
    selected. *)
Theorem state_wiring :
  ∀ {elt} {E : Backend elt} (init_method : string) (device_id : option Z)
    (w w' : World) (r ws lr ls : Z),
    configured w r ws lr ls →
    init_process_group init_method device_id w = (Ret tt, w') →
    ∃ g,
      _global_state w' = Some g ∧
      get_backend g
      = {| schedule_channel_cap := 100;
           backend_device_id := default lr device_id |} ∧
      store g = chosen_store init_method ws ∧
      priority (stream g) = -1 ∧
      comm_device_id (get_global_communicator g) = default lr device_id ∧
      comm_device_id (get_intranode_communicator g)
      = default lr device_id ∧
      (∀ c, get_internode_communicator g = Some c →
            comm_device_id c = default lr device_id).
Proof.
  intros elt E init_method device_id w w' r ws lr ls Hc Hrun.
  destruct (init_process_group_wiring _ _ _ _ _ _ _ _ Hc Hrun)
    as (g & Hg & Hbk & Hst & Hprio & _ & Hglob & Hintra & Hinter).
  exists g. done.
Qed.

Lemma state_wiring_witness :
  let w := fresh_world (elt := Qc) (env_of 1 2 1 2) in
  let pub :=
    {| shared_default :=
         {[ "bagua_inter_comm-0-unique_id" := String.list_byte_of_string "a";
            "bagua_intra_comm-0-unique_id" := String.list_byte_of_string "b";
            "bagua_global_comm-0-unique_id" := String.list_byte_of_string "c"
         ]};
       shared_files := ∅ |} in
  let w' :=
    (init_process_group (E := plain_backend) "dist://" None
       (with_stores pub w)).2 in
  ∃ g,
    _global_state w' = Some g ∧
    backend_device_id (get_backend g) = 1 ∧
    comm_device_id (get_global_communicator g) = 1 ∧
    store g = Some DefaultStore.
Proof.
  intros w pub w'.
  assert (init_process_group (E := plain_backend) "dist://" None
            (with_stores pub w) = (Ret tt, w')) as Hrun
    by (vm_compute; reflexivity).
  assert (configured (E := plain_backend) (with_stores pub w) 1 2 1 2) as Hc
    by (split; reflexivity).
  destruct (state_wiring (E := plain_backend) "dist://" None
              (with_stores pub w) w' 1 2 1 2 Hc Hrun)
    as (g & Hg & Hbk & Hst & _ & Hglob & _).
  exists g. split; [exact Hg |]. rewrite Hbk, Hglob, Hst. done.
Defined.

(** X13.  The readers of env.py.  Each of [get_world_size], [get_rank],
    [get_local_rank], [get_local_size] and [get_autotune_level] reads its
    own variable and nothing else: unset, it returns its default (1, 0, 0,
    1, 0); set to text that [int] accepts, it returns that integer; set to
    any other text, it raises [ValueError].  [is_report_metrics_switch_on]
    returns true exactly when [BAGUA_REPORT_METRICS] is set to text that
    [int] reads as 1.  None of them changes the world, however it ends. *)
Theorem environment_readers :
  ∀ {elt} {E : Backend elt} (w : World),
    (∀ name d f,
       (name, d, f) ∈ int_readers →
       (∀ r w', f w = (r, w') → w' = w) ∧
       (environ w !! name = None → f w = (Ret d, w)) ∧
       (∀ s z, environ w !! name = Some s → py_int s = Some z →
               f w = (Ret z, w)) ∧
       (∀ s, environ w !! name = Some s → py_int s = None →
             ∃ msg, f w = (Raise (ValueError msg), w))) ∧
    (∀ r w', is_report_metrics_switch_on w = (r, w') → w' = w) ∧
    (is_report_metrics_switch_on w = (Ret true, w) ↔
     ∃ s, environ w !! "BAGUA_REPORT_METRICS" = Some s ∧ py_int s = Some 1).
Proof.
  intros elt E w. split; [| split].
  - intros name d f Hin. rewrite (int_readers_getenv _ _ _ Hin).
    split; [intros r w'; apply getenv_int_pure |].
    split; [apply getenv_int_default |].
    split; [intros s z; apply getenv_int_value |].
    intros s Hs Hint. eexists. apply getenv_int_invalid; eassumption.
  - apply is_report_metrics_switch_on_pure.
  - split.
    + intros H. unfold is_report_metrics_switch_on, getenv_int in H.
      rewrite !run_bind in H. cbn [gets] in H. unfold environ_int in H.
      destruct (environ w !! "BAGUA_REPORT_METRICS") as [s |] eqn:Hs.
      * exists s. split; [reflexivity |].
        destruct (py_int s) as [z |]; [| discriminate H].
        cbn in H. injection H as H. apply bool_decide_eq_true in H.
        rewrite H. reflexivity.
      * cbn in H. discriminate H.
    + intros (s & Hs & Hint).
      rewrite (is_report_metrics_switch_on_run w 1); [reflexivity |].
      unfold environ_int. rewrite Hs, Hint. reflexivity.
Qed.

Lemma environment_readers_witness :
  let w := fresh_world (elt := Qc) {[ "RANK" := "three" ]} in
  (∃ msg, get_rank (E := plain_backend) w = (Raise (ValueError msg), w)) ∧
  get_local_size (E := plain_backend) w = (Ret 1, w).
Proof.
  intros w. split.
  - refine (proj2 (proj2 (proj2
              (proj1 (environment_readers (E := plain_backend) w)
                 "RANK" 0 get_rank _))) "three" eq_refl eq_refl).
    unfold int_readers. apply elem_of_cons. right.
    apply elem_of_cons. left. reflexivity.
  - refine (proj1 (proj2
              (proj1 (environment_readers (E := plain_backend) w)
                 "LOCAL_SIZE" 1 get_local_size _)) eq_refl).
    unfold int_readers. do 3 (apply elem_of_cons; right).
    apply elem_of_cons. left. reflexivity.
Defined.

(** X14.  Where initialisation waits.  A process found waiting inside
    [init_process_group] is waiting for one of the three identifiers of its
    rank, the inter-node one, the intra-node one of its node or the global
    one, and it is not the root of that rendezvous; it has not assigned the
    global state.  A process of rank 0 is the root of all three and is
    never found waiting. *)
Theorem initialisation_waits_for_other_roots :
  ∀ {elt} {E : Backend elt} (init_method : string) (device_id : option Z)
    (w w' : World) (r ws lr ls : Z) (key : string),
    configured w r ws lr ls →
    init_process_group init_method device_id w = (Blocked key, w') →
    ((key = unique_id_key "bagua_inter_comm" 0 ∧ r ≠ 0) ∨
     (key = unique_id_key "bagua_intra_comm" (r `div` ls * ls) ∧
      r ≠ r `div` ls * ls) ∨
     (key = unique_id_key "bagua_global_comm" 0 ∧ r ≠ 0)) ∧
    r ≠ 0 ∧
    _global_state w' = _global_state w.
Proof.
  intros elt E init_method device_id w w' r ws lr ls key Hc Hrun.
  pose proof (waits_in_init_process_group _ _ _ _ _ Hrun r ws lr ls Hc)
    as Hwait.
  split; [exact Hwait |]. split.
  - intros ->. destruct Hwait as [[_ H] | [[_ H] | [_ H]]]; done.
  - exact (init_process_group_failed _ _ _ _ _ Hrun I).
Qed.

Lemma initialisation_waits_for_other_roots_witness :
  let w := rank_world (elt := Qc) 2 1 1 in
  ∃ w',
    init_process_group (E := plain_backend) "dist://" None w
    = (Blocked "bagua_inter_comm-0-unique_id", w') ∧
    _global_state w' = None.
Proof.
  intros w.
  set (w' := (init_process_group (E := plain_backend) "dist://" None w).2).
  assert (init_process_group (E := plain_backend) "dist://" None w
          = (Blocked "bagua_inter_comm-0-unique_id", w')) as Hrun
    by (vm_compute; reflexivity).
  assert (configured (E := plain_backend) w 1 2 0 1) as Hc
    by (split; reflexivity).
  destruct (initialisation_waits_for_other_roots (E := plain_backend)
              "dist://" None w w' 1 2 0 1 _ Hc Hrun) as (_ & _ & Hg).
  exists w'. split; [exact Hrun | exact Hg].
Defined.

(** X15.  No store and no process group.  [gen_nccl_unique_id] called
    without a store falls back on the default store of torch.distributed;
    when torch.distributed has not been initialised that lookup raises
    [RuntimeError], before the rank is read, an identifier generated or any
    store touched.  The factories [init_bagua_communicator] and
    [init_bagua_inter_communicator], called without a store and with a
    device, fail in the same way and build nothing. *)
Theorem rendezvous_needs_a_store :
  ∀ {elt} {E : Backend elt} (w : World),
    dist_is_initialized w = false →
    let e := RuntimeError "Default process group has not been initialized" in
    (∀ comm_type root,
       gen_nccl_unique_id comm_type root None w = (Raise e, w)) ∧
    (∀ stream d,
       init_bagua_communicator stream None (Some d) w = (Raise e, w)) ∧
    (∀ stream leader d,
       init_bagua_inter_communicator stream leader None (Some d) w
       = (Raise e, w)).
Proof.
  intros elt E w Hd e. split; [| split].
  - intros comm_type root. apply gen_nccl_unique_id_no_store, Hd.
  - intros stream d. apply init_bagua_communicator_no_store, Hd.
  - intros stream leader d.
    apply init_bagua_inter_communicator_no_store, Hd.
Qed.

Lemma rendezvous_needs_a_store_witness :
  gen_nccl_unique_id (E := plain_backend) "bagua_global_comm" 0 None
    (rank_world 2 1 0)
  = (Raise (RuntimeError "Default process group has not been initialized"),
     rank_world 2 1 0).
Proof.
  exact (proj1 (rendezvous_needs_a_store (E := plain_backend)
                  (rank_world 2 1 0) eq_refl) "bagua_global_comm" 0).
Defined.

(** X16.  An identifier left in the store.  The rendezvous never removes
    its key and never checks whether a value found under it is fresh.  When
    the key already holds an identifier, a rank other than the root returns
    that identifier at once; the root, whenever it runs, generates a new one
    and overwrites the key.  A rank that ran before the root has therefore
    returned the old identifier while the root returns, and the store now
    holds, the new one. *)
Theorem stale_identifier_is_served :
  ∀ {elt} {E : Backend elt} (comm_type : string) (root : Z)
    (store : option Store) (s : Store) (wf wr : World) (rf : Z)
    (v : list Byte.byte) (stale : string),
    store_handle store wf = Some s →
    store_handle store wr = Some s →
    rank_of wf = inr rf →
    rf ≠ root →
    rank_of wr = inr root →
    store_contents s wf !! unique_id_key comm_type root = Some v →
    str_decode v = Some stale →
    ∃ wf' wr',
      gen_nccl_unique_id comm_type root store wf = (Ret stale, wf') ∧
      gen_nccl_unique_id comm_type root store
        (with_stores (stores_of wf') wr)
      = (Ret (generate_nccl_unique_id_str (id_seed wr)), wr') ∧
      store_contents s wr' !! unique_id_key comm_type root
      = Some (str_encode (generate_nccl_unique_id_str (id_seed wr))).
Proof.
  intros elt E comm_type root store s wf wr rf v stale.
  apply gen_nccl_unique_id_stale.
Qed.

Lemma stale_identifier_is_served_witness :
  let old :=
    {| shared_default :=
         {[ "bagua_global_comm-0-unique_id" :=
              String.list_byte_of_string "left-over" ]};
       shared_files := ∅ |} in
  let wf := with_stores old (rank_world (elt := Qc) 2 1 1) in
  let wr := rank_world (elt := Qc) 2 1 0 in
  ∃ wf' wr',
    gen_nccl_unique_id (E := plain_backend) "bagua_global_comm" 0
      (Some DefaultStore) wf
    = (Ret "left-over", wf') ∧
    gen_nccl_unique_id (E := plain_backend) "bagua_global_comm" 0
      (Some DefaultStore) (with_stores (stores_of wf') wr)
    = (Ret "nccl-unique-id-0", wr').
Proof.
  intros old wf wr.
  destruct (stale_identifier_is_served (E := plain_backend)
              "bagua_global_comm" 0 (Some DefaultStore) DefaultStore
              wf wr 1 (String.list_byte_of_string "left-over") "left-over"
              eq_refl eq_refl eq_refl ltac:(discriminate) eq_refl
              eq_refl eq_refl)
    as (wf' & wr' & Hf & Hr & _).
  exists wf', wr'. split; [exact Hf | exact Hr].
Defined.

(** X17.  All-reduce of a list, tensor by tensor.  A group whose transport
    sum-reduces the flat buffers, every member passing tensors of the same
    sizes in the same order, a member's tensors distinct.  After
    [allreduce_coalesced] the member's i-th tensor holds the element-wise
    sum of all the members' i-th tensors, divided by the size of the group
    when [average] is set: coalescing is not visible in the result, which is
    what [allreduce] gives tensor by tensor. *)
Theorem allreduce_coalesced_is_tensorwise :
  ∀ {elt} {E : Backend elt} (add : elt → elt → elt) (group : list cmember)
    (average : bool),
    (∀ r m, group !! r = Some m →
            ∃ c ts flat, cjoined (length group) r m c ts flat) →
    sum_reduction add (cm_flat <$> group) →
    ∀ r m,
      group !! r = Some m →
      NoDup (cm_tensors m) →
      (∀ j m', group !! j = Some m' →
               length <$> (m_data (cm_world m') <$> cm_tensors m')
               = length <$> (m_data (cm_world m) <$> cm_tensors m)) →
      ∃ w',
        allreduce_coalesced (cm_tensors m) (cm_comm m) average (cm_world m)
        = (Ret tt, w') ∧
        ∀ i b,
          cm_tensors m !! i = Some b →
          m_data w' b
          = averaged average (length group)
              (elementwise add (cm_data i <$> group)).
Proof.
  intros elt E add group average. apply allreduce_coalesced_tensorwise.
Qed.

Lemma allreduce_coalesced_is_tensorwise_witness :
  let stream := {| cuda_stream := 1; priority := -1 |} in
  let backend :=
    reference_backend [[Qc_of_Z 1; Qc_of_Z 2]; [Qc_of_Z 10; Qc_of_Z 20]] in
  let member r x y :=
    {| cm_world :=
         holding 1 (scalar (cuda 0) y)
           (holding 0 (scalar (cuda 0) x) (rank_world 2 2 r));
       cm_tensors := [0; 1]%nat;
       cm_comm := Some (communicator_of r 2 r stream "id") |} in
  ∃ w',
    allreduce_coalesced (E := backend) [0; 1]%nat
      (Some (communicator_of 0 2 0 stream "id")) false
      (cm_world (member 0 (Qc_of_Z 1) (Qc_of_Z 2)))
    = (Ret tt, w') ∧
    m_data w' 0 = [Q2Qc (11 # 1)] ∧
    m_data w' 1 = [Q2Qc (22 # 1)].
Proof.
  intros stream backend member.
  set (m0 := member 0 (Qc_of_Z 1) (Qc_of_Z 2)).
  set (m1 := member 1 (Qc_of_Z 10) (Qc_of_Z 20)).
  set (group := [m0; m1]).
  assert (∀ r m, group !! r = Some m →
                 ∃ c ts flat,
                   cjoined (E := backend) (length group) r m c ts flat)
    as Hjoined.
  { intros [| [| r]] m [= <-].
    - exists (communicator_of 0 2 0 stream "id"),
        [scalar (cuda 0) (Qc_of_Z 1); scalar (cuda 0) (Qc_of_Z 2)].
      eexists. split; [repeat constructor |].
      split; [repeat constructor; discriminate |].
      split; [reflexivity |]. split; [exists "f32"; reflexivity |].
      repeat split; reflexivity.
    - exists (communicator_of 1 2 1 stream "id"),
        [scalar (cuda 0) (Qc_of_Z 10); scalar (cuda 0) (Qc_of_Z 20)].
      eexists. split; [repeat constructor |].
      split; [repeat constructor; discriminate |].
      split; [reflexivity |]. split; [exists "f32"; reflexivity |].
      repeat split; reflexivity. }
  assert (cm_flat <$> group
          = [[Qc_of_Z 1; Qc_of_Z 2]; [Qc_of_Z 10; Qc_of_Z 20]]) as Hbuffers
    by (vm_compute; reflexivity).
  assert (sum_reduction (E := backend) Qcplus (cm_flat <$> group)) as Hsum.
  { rewrite Hbuffers. apply reference_backend_sum_reduction. }
  assert (NoDup [0; 1]%nat) as Hnd.
  { apply NoDup_cons_2; [| apply NoDup_singleton].
    apply not_elem_of_cons. split; [discriminate | apply not_elem_of_nil]. }
  assert (∀ j m', group !! j = Some m' →
                  length <$> (m_data (cm_world m') <$> cm_tensors m')
                  = length <$> (m_data (cm_world m0) <$> cm_tensors m0))
    as Hlayout.
  { intros [| [| j]] m' [= <-]; reflexivity. }
  destruct (allreduce_coalesced_is_tensorwise (E := backend) Qcplus group
              false Hjoined Hsum 0%nat m0 eq_refl Hnd Hlayout)
    as (w' & Hrun & Hdata).
  exists w'. split; [exact Hrun |].
  assert (cm_data 0 <$> group = [[Qc_of_Z 1]; [Qc_of_Z 10]]) as Hd0
    by (vm_compute; reflexivity).
  assert (cm_data 1 <$> group = [[Qc_of_Z 2]; [Qc_of_Z 20]]) as Hd1
    by (vm_compute; reflexivity).
  split.
  - rewrite (Hdata 0%nat 0%nat eq_refl), Hd0. vm_compute.
    first [reflexivity | f_equal; apply Qc_is_canon; reflexivity].
  - rewrite (Hdata 1%nat 1%nat eq_refl), Hd1. vm_compute.
    first [reflexivity | f_equal; apply Qc_is_canon; reflexivity].
Defined.

(** X18.  A local size of zero.  [LOCAL_SIZE=0] is not rejected on entry:
    the state's backend and stream are created and the process takes part
    in the inter-node rendezvous; only then does [rank % local_size] raise
    [ZeroDivisionError].  The inter-node identifier is in the store when
    the call fails, and the global state has not been assigned. *)
Theorem zero_local_size_fails_after_rendezvous :
  ∀ {elt} {E : Backend elt} (init_method : string) (device_id : option Z)
    (s : Store) (w : World) (r ws lr : Z),
    (∀ c, faults c = None) →
    _global_state w = None →
    chosen_store init_method ws = Some s →
    configured w r ws lr 0 →
    obtainable s w r "bagua_inter_comm" 0 →
    ∃ w',
      init_process_group init_method device_id w
      = (Raise ZeroDivisionError, w') ∧
      _global_state w' = None ∧
      available s w' (unique_id_key "bagua_inter_comm" 0).
Proof.
  intros elt E init_method device_id s w r ws lr Hfaults.
  apply init_process_group_zero_local_size. exact Hfaults.
Qed.

Lemma zero_local_size_fails_after_rendezvous_witness :
  let w := fresh_world (elt := Qc) (env_of 0 2 0 0) in
  ∃ w',
    init_process_group (E := plain_backend) "dist://" None w
    = (Raise ZeroDivisionError, w') ∧
    is_Some (default_store w' !! "bagua_inter_comm-0-unique_id").
Proof.
  intros w.
  destruct (zero_local_size_fails_after_rendezvous (E := plain_backend)
              "dist://" None DefaultStore w 0 2 0)
    as (w' & Hrun & _ & (v & id & Hv & _)).
  - intros c. reflexivity.
  - reflexivity.
  - reflexivity.
  - split; reflexivity.
  - left. reflexivity.
  - exists w'. split; [exact Hrun |]. exists v. exact Hv.
Defined.

(** X19.  Agreement after a bootstrap in rank order.  When the ranks have
    run [init_process_group] one after the other on shared stores, any two
    of them hold the same identifier wherever they share a group: their
    global communicators were built with one identifier, their intra-node
    communicators with one identifier when they are on the same node
    ([rank // local_size] agrees), and their inter-node communicators, where
    both have one, with one identifier.  What the stores held at the start
    does not matter: every key is written by its root before any other rank
    reads it, and no later rank writes it again. *)
Theorem bootstrap_in_rank_order_agrees :
  ∀ {elt} {E : Backend elt} (init_method : string) (device_id : option Z)
    (s : Store) (ws ls : Z) (st : Stores) (procs : list World),
    (∀ c, faults c = None) →
    chosen_store init_method ws = Some s →
    0 < ls →
    (∀ i w, procs !! i = Some w →
            _global_state w = None ∧
            ∃ lr, configured w (Z.of_nat i) ws lr ls) →
    ∀ (i j : nat) rwi rwj,
      run_in_turn (init_process_group init_method device_id) st procs !! i
      = Some rwi →
      run_in_turn (init_process_group init_method device_id) st procs !! j
      = Some rwj →
      ∃ gi gj,
        _global_state rwi.2 = Some gi ∧
        _global_state rwj.2 = Some gj ∧
        nccl_unique_id_str (global_communicator gi)
        = nccl_unique_id_str (global_communicator gj) ∧
        (Z.of_nat i `div` ls = Z.of_nat j `div` ls →
         nccl_unique_id_str (intranode_communicator gi)
         = nccl_unique_id_str (intranode_communicator gj)) ∧
        (∀ ci cj,
           internode_communicator gi = Some ci →
           internode_communicator gj = Some cj →
           nccl_unique_id_str ci = nccl_unique_id_str cj).
Proof.
  intros elt E init_method device_id s ws ls st procs Hfaults.
  apply run_in_turn_agreement. exact Hfaults.
Qed.

Lemma bootstrap_in_rank_order_agrees_witness :
  let runs := bootstrapped (E := plain_backend) "dist://" 4 2 [0; 1; 2; 3] in
  ∃ rw2 rw3 g2 g3,
    runs !! 2%nat = Some rw2 ∧
    runs !! 3%nat = Some rw3 ∧
    _global_state rw2.2 = Some g2 ∧
    _global_state rw3.2 = Some g3 ∧
    nccl_unique_id_str (global_communicator g2)
    = nccl_unique_id_str (global_communicator g3) ∧
    nccl_unique_id_str (intranode_communicator g2)
    = nccl_unique_id_str (intranode_communicator g3).
Proof.
  intros runs.
  assert (length runs = 4%nat) as Hlen by apply length_run_in_turn.
  destruct (lookup_lt_is_Some_2 runs 2) as [rw2 H2]; [lia |].
  destruct (lookup_lt_is_Some_2 runs 3) as [rw3 H3]; [lia |].
  destruct (bootstrap_in_rank_order_agrees (E := plain_backend)
              "dist://" None DefaultStore 4 2 empty_stores
              (rank_world 4 2 <$> [0; 1; 2; 3]))
    with (i := 2%nat) (j := 3%nat) (rwi := rw2) (rwj := rw3)
    as (g2 & g3 & Hg2 & Hg3 & Hglob & Hintra & _).
  - intros c. reflexivity.
  - reflexivity.
  - lia.
  - intros [| [| [| [| i]]]] w [= <-].
    + split; [reflexivity |]. exists 0. split; reflexivity.
    + split; [reflexivity |]. exists 1. split; reflexivity.
    + split; [reflexivity |]. exists 0. split; reflexivity.
    + split; [reflexivity |]. exists 1. split; reflexivity.
  - exact H2.
  - exact H3.
  - exists rw2, rw3, g2, g3.
    split; [exact H2 |]. split; [exact H3 |].
    split; [exact Hg2 |]. split; [exact Hg3 |].
    split; [exact Hglob | exact (Hintra eq_refl)].
Defined.

(** X20.  What the collectives never touch.  However one of [broadcast],
    [allreduce], [broadcast_coalesced] and [allreduce_coalesced] ends, by
    returning or by raising anywhere along the way, it has not changed the
    environment, the global state, the stores, the state of
    torch.distributed or the source of identifiers, and the stream that was
    current at the call is current again: the [with] block puts it back
    also when its body fails. *)
Theorem collectives_keep_process_state :
  ∀ {elt} {E : Backend elt} (w w' : World) (r : outcome unit) comm,
    (∀ tensor (average : bool),
       allreduce tensor comm average w = (r, w') →
       process_state_kept w w') ∧
    (∀ tensor (root : Z),
       broadcast tensor root comm w = (r, w') → process_state_kept w w') ∧
    (∀ tensors (average : bool),
       allreduce_coalesced tensors comm average w = (r, w') →
       process_state_kept w w') ∧
    (∀ tensors (root : Z),
       broadcast_coalesced tensors root comm w = (r, w') →
       process_state_kept w w').
Proof.
  intros elt E w w' r comm. split; [| split; [| split]].
  - intros tensor average. apply process_state_kept_intro.
    intros B f Hf. apply keeps_allreduce, Hf.
  - intros tensor root. apply process_state_kept_intro.
    intros B f Hf. apply keeps_broadcast, Hf.
  - intros tensors average. apply process_state_kept_intro.
    intros B f Hf. apply keeps_allreduce_coalesced, Hf.
  - intros tensors root. apply process_state_kept_intro.
    intros B f Hf. apply keeps_broadcast_coalesced, Hf.
Qed.

Lemma collectives_keep_process_state_witness :
  let t := {| device := cuda 0; tensor_dtype := float64; shape := [];
              data := [Qc_of_Z 1] |} in
  let w := holding 0 t (rank_world 1 1 0) in
  let stream := {| cuda_stream := 1; priority := -1 |} in
  let c := communicator_of 0 1 0 stream "id" in
  let rw := allreduce (E := plain_backend) 0 (Some c) true w in
  current_stream rw.2 = current_stream w ∧ default_store rw.2 = default_store w.
Proof.
  intros t w stream c rw.
  destruct (proj1 (collectives_keep_process_state (E := plain_backend)
                     w rw.2 rw.1 (Some c))
              0%nat true (surjective_pairing rw))
    as [_ _ _ Hstore _ _ Hstream].
  split; [exact Hstream | exact Hstore].
Defined.

(** X21.  What the bootstrap never touches.  However [init_process_group]
    ends, by returning, by raising or waiting in a rendezvous, it has not
    changed any tensor, the current stream or the environment; all it may
    have changed is the log, the stores, the source of identifiers, the
    handle counter, the state of torch.distributed and, when it returns,
    the global state. *)
Theorem bootstrap_keeps_tensors_and_stream :
  ∀ {elt} {E : Backend elt} (init_method : string) (device_id : option Z)
    (w w' : World) (r : outcome unit),
    init_process_group init_method device_id w = (r, w') →
    heap w' = heap w ∧
    current_stream w' = current_stream w ∧
    environ w' = environ w.
Proof.
  intros elt E init_method device_id w w' r H.
  split; [| split].
  - apply (keeps_init_process_group heap init_method device_id
             blind_heap) in H; [exact H |]. intros g []; reflexivity.
  - apply (keeps_init_process_group current_stream init_method device_id
             blind_current_stream) in H; [exact H |].
    intros g []; reflexivity.
  - apply (keeps_init_process_group environ init_method device_id
             blind_environ) in H; [exact H |]. intros g []; reflexivity.
Qed.

Lemma bootstrap_keeps_tensors_and_stream_witness :
  let w := holding 0 (scalar (cuda 0) (Qc_of_Z 1)) (rank_world 2 1 1) in
  let rw := init_process_group (E := plain_backend) "dist://" None w in
  heap rw.2 = heap w ∧ current_stream rw.2 = current_stream w.
Proof.
  intros w rw.
  destruct (bootstrap_keeps_tensors_and_stream (E := plain_backend)
              "dist://" None w rw.2 rw.1 (surjective_pairing rw))
    as (Hheap & Hstream & _).
  split; [exact Hheap | exact Hstream].
Defined.
